(** * swbf-unmunge: the ucfb chunk reader, the model decoder and the object
    descriptor emitter, embedded as Rocq functions.

    Sources embedded here:
    - [src/ucfb_reader.hpp]  (class [Ucfb_reader], [Ucfb_reader_strict])
    - [src/handle_model.cpp] (materials, model info, PS2 segments)
    - [src/handle_object.cpp] (object descriptor emitter)

    Code that mutates an object and may throw is a function from the
    object's state to an outcome paired with the state the object is left
    in, so that what an exception leaves behind stays observable. *)

From Stdlib Require Import ZArith Lia Bool String.
From Stdlib Require Import Floats.SpecFloat.
From Stdlib.Strings Require Byte.
From stdpp Require Import base list.

Local Open Scope Z_scope.

(** ** Outcomes, errors and the state-and-exception monad *)

(** The exceptions the code raises.  All of them are [std::runtime_error]
    or [std::out_of_range] in the source; the names follow the error kinds
    of the specification. *)
Inductive Error : Type :=
| BoundsViolation      (* check_head: read past the end of the chunk *)
| UnexpectedMagic      (* read_child_strict: magic number mismatch *)
| UnterminatedString   (* cstring_length: no NUL in the remaining payload *)
| UnknownModelInfo     (* read_model_info: "Unknow model info encountered." *)
| InvalidIndexBuffer   (* read_vertex_strip_ps2: "Index buffer invalid" *)
| SubstrOutOfRange     (* std::string_view::substr with pos > size() *)
| Terminated           (* an exception leaving a noexcept function *)
| LoopFuelExhausted.   (* artefact of the embedding, shown unreachable *)

Inductive outcome (A : Type) : Type :=
| Ok (a : A)
| Throw (e : Error).
Arguments Ok {A} a.
Arguments Throw {A} e.

Definition M (S A : Type) : Type := S -> outcome A * S.

Definition ret {S A : Type} (a : A) : M S A := fun s => (Ok a, s).

Definition bind {S A B : Type} (m : M S A) (k : A -> M S B) : M S B :=
  fun s => match m s with
           | (Ok a, s') => k a s'
           | (Throw e, s') => (Throw e, s')
           end.

Definition throw {S A : Type} (e : Error) : M S A := fun s => (Throw e, s).
Definition get {S : Type} : M S S := fun s => (Ok s, s).
Definition put {S : Type} (s : S) : M S unit := fun _ => (Ok tt, s).
Definition modify {S : Type} (f : S -> S) : M S unit := fun s => (Ok tt, f s).
Definition when {S : Type} (b : bool) (m : M S unit) : M S unit :=
  if b then m else ret tt.

Notation "'let*' x := m 'in' k" := (bind m (fun x => k))
  (at level 10, x name, m at level 100, k at level 200, only parsing).
Notation "m ;;; k" := (bind m (fun _ => k))
  (at level 100, k at level 200, right associativity, only parsing).

(** ** Machine integers *)

(** [std::size_t] on the 64-bit target. *)
Definition size_t_modulus : Z := 2 ^ 64.
Definition wrap_size_t (z : Z) : Z := z mod size_t_modulus.

Definition wrap_u16 (z : Z) : Z := z mod 2 ^ 16.
Definition wrap_u8 (z : Z) : Z := z mod 2 ^ 8.

Definition byte_val (b : Byte.byte) : Z := Z.of_N (Byte.to_N b).

(** Little-endian value of a run of bytes. *)
Fixpoint le_value (bs : list Byte.byte) : Z :=
  match bs with
  | [] => 0
  | b :: rest => byte_val b + 256 * le_value rest
  end.

(** Two's complement reading of a [bits]-bit pattern. *)
Definition to_signed (bits : Z) (z : Z) : Z :=
  if z <? 2 ^ (bits - 1) then z else z - 2 ^ bits.

(** ** Trivially copyable types *)

(** Modelled from the spec: [view_type_as<Type>] (type_pun.hpp is not part of
    the sources) reinterprets the bytes at an address as a [Type], on a
    little-endian host with trivial-copy layout; a type is described by its
    [sizeof] and by how its value is decoded from that many bytes. *)
Record Trivial (T : Type) : Type := mkTrivial {
  sizeof : Z;
  view_type_as : list Byte.byte -> T
}.
Arguments mkTrivial {T} sizeof view_type_as.
Arguments sizeof {T} t.
Arguments view_type_as {T} t bytes.

Definition uint8_t : Trivial Z := mkTrivial 1 le_value.
Definition int8_t : Trivial Z := mkTrivial 1 (fun bs => to_signed 8 (le_value bs)).
Definition uint16_t : Trivial Z := mkTrivial 2 le_value.
Definition int16_t : Trivial Z := mkTrivial 2 (fun bs => to_signed 16 (le_value bs)).
Definition uint32_t : Trivial Z := mkTrivial 4 le_value.
Definition int32_t : Trivial Z := mkTrivial 4 (fun bs => to_signed 32 (le_value bs)).

(** The bytes of [count] consecutive elements starting at byte [pos]. *)
Definition bytes_at (data : list Byte.byte) (pos : Z) (count : Z) : list Byte.byte :=
  take (Z.to_nat count) (drop (Z.to_nat pos) data).

Fixpoint view_elements {T : Type} (ty : Trivial T) (n : nat)
    (data : list Byte.byte) : list T :=
  match n with
  | O => []
  | S n' => view_type_as ty (take (Z.to_nat (sizeof ty)) data)
            :: view_elements ty n' (drop (Z.to_nat (sizeof ty)) data)
  end.

(** [std::array<T, n>]. *)
Definition array_t {T : Type} (ty : Trivial T) (n : nat) : Trivial (list T) :=
  mkTrivial (sizeof ty * Z.of_nat n) (view_elements ty n).

(** ** Magic numbers *)

(** Modelled from the spec: [Magic_number] and the [_mn] literal
    (magic_number.hpp is not part of the sources): a four byte tag read as a
    32-bit little-endian integer; equality is integer equality. *)
Definition Magic_number : Type := Z.
Definition mn (tag : string) : Magic_number := le_value (list_byte_of_string tag).

(** ** Ucfb_reader *)

Record Ucfb_reader : Type := mkReader {
  _mn : Magic_number;
  _size : Z;
  _data : list Byte.byte;   (* the bytes from the payload start onwards *)
  _head : Z
}.

Definition set_head (h : Z) (r : Ucfb_reader) : Ucfb_reader :=
  {| _mn := _mn r; _size := _size r; _data := _data r; _head := h |}.

Definition magic_number (r : Ucfb_reader) : Magic_number := _mn r.
Definition size (r : Ucfb_reader) : Z := _size r.

(** Modelled from the spec: [Ucfb_reader::check_head] (declared in
    ucfb_reader.hpp, body in ucfb_reader.cpp which is not part of the
    sources): a read fails when the new head is past the declared size. *)
Definition check_head : M Ucfb_reader unit :=
  fun r => if _size r <? _head r then (Throw BoundsViolation, r) else (Ok tt, r).

Definition align_head : M Ucfb_reader unit :=
  fun r =>
    let remainder := _head r mod 4 in
    if negb (remainder =? 0)
    then (Ok tt, set_head (wrap_size_t (_head r + (4 - remainder))) r)
    else (Ok tt, r).

Definition read_trivial {T : Type} (ty : Trivial T) (unaligned : bool)
    : M Ucfb_reader T :=
  fun r =>
    let cur_pos := _head r in
    (modify (set_head (wrap_size_t (_head r + sizeof ty))) ;;;
     check_head ;;;
     when (negb unaligned) align_head ;;;
     ret (view_type_as ty (bytes_at (_data r) cur_pos (sizeof ty)))) r.

Definition read_trivial_unaligned {T : Type} (ty : Trivial T) : M Ucfb_reader T :=
  read_trivial ty true.

Definition read_array {T : Type} (ty : Trivial T) (size : Z) (unaligned : bool)
    : M Ucfb_reader (list T) :=
  fun r =>
    let cur_pos := _head r in
    (modify (set_head (wrap_size_t (_head r + wrap_size_t (sizeof ty * size)))) ;;;
     check_head ;;;
     when (negb unaligned) align_head ;;;
     ret (view_elements ty (Z.to_nat size) (drop (Z.to_nat cur_pos) (_data r)))) r.

Definition read_array_unaligned {T : Type} (ty : Trivial T) (size : Z)
    : M Ucfb_reader (list T) :=
  read_array ty size true.

(** Modelled from the spec: [cstring_length] (string_helpers.hpp is not part
    of the sources): scan forward for a NUL within the next [max_length]
    bytes; the read fails "unterminated string" when there is none. *)
Fixpoint cstring_length (str : list Byte.byte) (max_length : Z) : option Z :=
  match str with
  | [] => None
  | c :: rest =>
      if max_length <=? 0 then None
      else if byte_val c =? 0 then Some 0
      else option_map Z.succ (cstring_length rest (max_length - 1))
  end.

Definition read_string (unaligned : bool) : M Ucfb_reader (list Byte.byte) :=
  fun r =>
    let string := drop (Z.to_nat (_head r)) (_data r) in
    match cstring_length string (wrap_size_t (_size r - _head r)) with
    | None => (Throw UnterminatedString, r)
    | Some string_length =>
        (modify (set_head (wrap_size_t (_head r + (string_length + 1) * 1))) ;;;
         check_head ;;;
         when (negb unaligned) align_head ;;;
         ret (take (Z.to_nat string_length) string)) r
    end.

Definition read_string_unaligned : M Ucfb_reader (list Byte.byte) :=
  read_string true.

(** Modelled from the spec: [Ucfb_reader::consume] (declared in
    ucfb_reader.hpp, body not part of the sources): advances the head by a
    byte count with the bounds and alignment rules of a trivial read. *)
Definition consume (amount : Z) (unaligned : bool) : M Ucfb_reader unit :=
  fun r =>
    (modify (set_head (wrap_size_t (_head r + amount))) ;;;
     check_head ;;;
     when (negb unaligned) align_head) r.

Definition consume_unaligned (amount : Z) : M Ucfb_reader unit :=
  consume amount true.

(** Modelled from the spec: [Ucfb_reader::read_child] (body not part of the
    sources): the bytes at the head are a chunk header, magic then size, both
    32-bit; the [size] payload bytes are consumed and the child is a reader
    over that payload with its own head at 0. *)
Definition read_child (unaligned : bool) : M Ucfb_reader Ucfb_reader :=
  let* child_mn := read_trivial_unaligned uint32_t in
  let* child_size := read_trivial_unaligned uint32_t in
  let* r := get in
  let child_data_offset := _head r in
  consume child_size unaligned ;;;
  ret (mkReader child_mn child_size
         (drop (Z.to_nat child_data_offset) (_data r)) 0).

Definition read_child_unaligned : M Ucfb_reader Ucfb_reader := read_child true.

(** Modelled from the spec: the non-template [Ucfb_reader::read_child_strict]
    (body not part of the sources): the child is read and its magic number
    compared with the expected one; on a mismatch the head is not moved and
    the read fails "unexpected magic"; when the read fails the head is
    unchanged. *)
Definition read_child_strict_mn (child_mn : Magic_number) (unaligned : bool)
    : M Ucfb_reader Ucfb_reader :=
  fun r =>
    let old_head := _head r in
    match read_child unaligned r with
    | (Ok child, r') =>
        if negb (magic_number child =? child_mn)
        then (Throw UnexpectedMagic, set_head old_head r')
        else (Ok child, r')
    | (Throw e, r') => (Throw e, set_head old_head r')
    end.

(** Modelled from the spec: [Ucfb_reader::operator bool] (body not part of
    the sources): a reader is truthy while the head is before the size. *)
Definition operator_bool (r : Ucfb_reader) : bool := _head r <? _size r.

(** Modelled from the spec: [Ucfb_reader::reset_head]. *)
Definition reset_head : M Ucfb_reader unit := modify (set_head 0).

(** Modelled from the spec: the public constructor (body not part of the
    sources): magic in bytes 0..4, size in bytes 4..8, "size mismatch" unless
    the span is exactly the header and [size] payload bytes. *)
Definition Ucfb_reader_of_span (bytes : list Byte.byte) : option Ucfb_reader :=
  let size := view_type_as uint32_t (bytes_at bytes 4 4) in
  if Z.of_nat (length bytes) =? 8 + size
  then Some (mkReader (view_type_as uint32_t (bytes_at bytes 0 4)) size
               (drop 8 bytes) 0)
  else None.

(** ** Ucfb_reader_strict *)

(** [Ucfb_reader_strict<type_mn>] derives from [Ucfb_reader] and adds no
    state; the tag is a phantom parameter. *)
Definition Ucfb_reader_strict (type_mn : Magic_number) : Type := Ucfb_reader.

(** The explicit constructor, with its [Expects] contract. *)
Definition Ucfb_reader_strict_of (type_mn : Magic_number) (ucfb_reader : Ucfb_reader)
    : outcome (Ucfb_reader_strict type_mn) :=
  if type_mn =? magic_number ucfb_reader then Ok ucfb_reader else Throw Terminated.

(** The private constructor taking [Unchecked_tag]. *)
Definition Ucfb_reader_strict_unchecked (type_mn : Magic_number)
    (ucfb_reader : Ucfb_reader) : Ucfb_reader_strict type_mn := ucfb_reader.

Definition read_child_strict (type_mn : Magic_number) (unaligned : bool)
    : M Ucfb_reader (Ucfb_reader_strict type_mn) :=
  let* child := read_child_strict_mn type_mn unaligned in
  ret (Ucfb_reader_strict_unchecked type_mn child).

Definition read_child_strict_unaligned (type_mn : Magic_number)
    : M Ucfb_reader (Ucfb_reader_strict type_mn) :=
  read_child_strict type_mn true.

(** ** Calling conventions *)

(** A callee that takes a reader by value works on its own copy [r] and
    leaves the caller's state [S] alone; only the outcome comes back. *)
Definition by_value {R S A : Type} (r : R) (callee : M R A) : M S A :=
  fun s => (fst (callee r), s).

(** A function body with a local reader [R] next to an object [O] it holds by
    reference: [rd] runs a reader operation on the local, [upd] assigns to
    the referenced object, [local] enters the body and drops the local. *)
Definition rd {R O A : Type} (m : M R A) : M (R * O) A :=
  fun s => let '(res, r') := m (fst s) in (res, (r', snd s)).

Definition upd {R O : Type} (f : O -> O) : M (R * O) unit :=
  fun s => (Ok tt, (fst s, f (snd s))).

Definition out_ref {R O A : Type} (m : M O A) : M (R * O) A :=
  fun s => let '(res, o') := m (snd s) in (res, (fst s, o')).

Definition local {R O A : Type} (r : R) (body : M (R * O) A) : M O A :=
  fun out => let '(res, s') := body (r, out) in (res, snd s').

(** A [noexcept] function: an exception that would leave it ends the
    program. *)
Definition noexcept {S A : Type} (m : M S A) : M S A :=
  fun s => match m s with
           | (Ok a, s') => (Ok a, s')
           | (Throw _, s') => (Throw Terminated, s')
           end.

(** [while (reader) body]: every pass that returns moves the head forward,
    so [size + 1] passes are more than a loop can make. *)
Fixpoint while_reader {O : Type} (fuel : nat) (body : M (Ucfb_reader * O) unit)
    : M (Ucfb_reader * O) unit :=
  fun s =>
    match fuel with
    | O => (Throw LoopFuelExhausted, s)
    | S fuel' =>
        if operator_bool (fst s)
        then (body ;;; while_reader fuel' body) s
        else (Ok tt, s)
    end.

Definition loop_fuel (r : Ucfb_reader) : nat := S (Z.to_nat (_size r)).

Definition while_ {O : Type} (body : M (Ucfb_reader * O) unit)
    : M (Ucfb_reader * O) unit :=
  fun s => while_reader (loop_fuel (fst s)) body s.

(** ** Strings *)

#[global] Instance byte_eq_decision : EqDecision Byte.byte := Byte.byte_eq_dec.

(** A [std::string_view] is the run of bytes it covers; [_sv] literals. *)
Definition sv (literal : string) : list Byte.byte := list_byte_of_string literal.

(** [std::basic_string_view::substr]: throws [std::out_of_range] when
    [pos > size()], otherwise covers [min(count, size() - pos)] bytes. *)
Definition substr (view : list Byte.byte) (pos count : Z)
    : outcome (list Byte.byte) :=
  let size := Z.of_nat (length view) in
  if size <? pos then Throw SubstrOutOfRange
  else Ok (take (Z.to_nat (Z.min count (size - pos))) (drop (Z.to_nat pos) view)).

Definition lift_outcome {S A : Type} (o : outcome A) : M S A := fun s => (o, s).

(** ** Floating point and GLM *)

Record vec2 (F : Type) : Type := mkVec2 { x2 : F; y2 : F }.
Record vec3 (F : Type) : Type := mkVec3 { x3 : F; y3 : F; z3 : F }.
Record vec4 (F : Type) : Type := mkVec4 { x4 : F; y4 : F; z4 : F; w4 : F }.
Arguments mkVec2 {F} _ _.
Arguments mkVec3 {F} _ _ _.
Arguments mkVec4 {F} _ _ _ _.
Arguments x2 {F} _. Arguments y2 {F} _.
Arguments x3 {F} _. Arguments y3 {F} _. Arguments z3 {F} _.
Arguments x4 {F} _. Arguments y4 {F} _. Arguments z4 {F} _. Arguments w4 {F} _.

(** IEEE single precision arithmetic, GLM's packing functions and
    [range_convert] (math_helpers.hpp) are not part of the sources and are
    not interpreted: the decoders are embedded over any implementation of
    them, and so are the values a default constructed [msh::Material]
    holds in its floating point members. *)
Class FloatModel : Type := {
  float : Type;
  float_of_bits : Z -> float;          (* the 32 bits of a stored float *)
  float_of_int : Z -> float;           (* static_cast<float>(integer) *)
  uint8_of_float : float -> Z;         (* static_cast<std::uint8_t>(x) *)
  fsub : float -> float -> float;
  fmul : float -> float -> float;
  fdiv : float -> float -> float;
  fract : float -> float;              (* glm::fract *)
  range_convert : float -> float * float -> float * float -> float;
  unpackUnorm4x8 : Z -> vec4 float;    (* glm::unpackUnorm4x8 *)
  unpackSnorm4x8 : Z -> vec4 float;    (* glm::unpackSnorm4x8 *)
  default_diffuse_colour : vec4 float;
  default_specular_colour : vec4 float;
  default_specular_value : float
}.

(** ** namespace msh *)

(** Modelled from the spec: the [msh] data model (msh_builder.hpp is not
    part of the sources): the model accumulator and the material descriptor
    with the fields and enumerations the specification lists; render flags
    are a set drawn from six flags, [set_flags] is their union. *)
Module msh.

Module Lod.
Inductive t : Type := zero | one | two | lowres.
End Lod.

Module Render_flags.
Record t : Type := mk {
  has_hardedged : bool;
  has_transparent : bool;
  has_glow : bool;
  has_additive : bool;
  has_specular : bool;
  has_doublesided : bool
}.
Definition normal : t := mk false false false false false false.
Definition hardedged : t := mk true false false false false false.
Definition transparent : t := mk false true false false false false.
Definition glow : t := mk false false true false false false.
Definition additive : t := mk false false false true false false.
Definition specular : t := mk false false false false true false.
Definition doublesided : t := mk false false false false false true.
End Render_flags.

Definition set_flags (flags : Render_flags.t) (to_set : Render_flags.t)
    : Render_flags.t :=
  Render_flags.mk
    (Render_flags.has_hardedged flags || Render_flags.has_hardedged to_set)
    (Render_flags.has_transparent flags || Render_flags.has_transparent to_set)
    (Render_flags.has_glow flags || Render_flags.has_glow to_set)
    (Render_flags.has_additive flags || Render_flags.has_additive to_set)
    (Render_flags.has_specular flags || Render_flags.has_specular to_set)
    (Render_flags.has_doublesided flags || Render_flags.has_doublesided to_set).

Module Render_type.
Inductive t : Type :=
| normal | bumpmap | env_map | wireframe | scrolling | energy | animated
| refraction
| of_uint32 (value : Z).   (* static_cast<Render_type>(std::uint32_t) *)
End Render_type.

Module Render_type_swbf1.
Inductive t : Type :=
| normal | specular | glow | detail | scroll | reflection | camouflage
| refraction | bumpmap | bumpmap_specular | water.
End Render_type_swbf1.

Module Material.
Record t {FM : FloatModel} : Type := mk {
  name : list Byte.byte;
  textures : list (list Byte.byte);     (* std::array<std::string, 4> *)
  diffuse_colour : vec4 float;
  specular_colour : vec4 float;
  specular_value : float;
  params : list Z;                      (* two 8-bit values *)
  flags : Render_flags.t;
  type : Render_type.t;
  type_swbf1 : Render_type_swbf1.t;
  vertex_lighting : bool;
  attached_light : list Byte.byte
}.

Section Assign.
Context {FM : FloatModel}.

Definition default : t :=
  mk _ [] (replicate 4 []) default_diffuse_colour default_specular_colour
     default_specular_value [0; 0] Render_flags.normal Render_type.normal
     Render_type_swbf1.normal false [].

Definition set_name v (m : t) : t :=
  mk _ v (textures m) (diffuse_colour m) (specular_colour m)
     (specular_value m) (params m) (flags m) (type m) (type_swbf1 m)
     (vertex_lighting m) (attached_light m).
Definition set_textures v (m : t) : t :=
  mk _ (name m) v (diffuse_colour m) (specular_colour m)
     (specular_value m) (params m) (flags m) (type m) (type_swbf1 m)
     (vertex_lighting m) (attached_light m).
Definition set_diffuse_colour v (m : t) : t :=
  mk _ (name m) (textures m) v (specular_colour m)
     (specular_value m) (params m) (flags m) (type m) (type_swbf1 m)
     (vertex_lighting m) (attached_light m).
Definition set_specular_colour v (m : t) : t :=
  mk _ (name m) (textures m) (diffuse_colour m) v
     (specular_value m) (params m) (flags m) (type m) (type_swbf1 m)
     (vertex_lighting m) (attached_light m).
Definition set_specular_value v (m : t) : t :=
  mk _ (name m) (textures m) (diffuse_colour m) (specular_colour m)
     v (params m) (flags m) (type m) (type_swbf1 m)
     (vertex_lighting m) (attached_light m).
Definition set_params v (m : t) : t :=
  mk _ (name m) (textures m) (diffuse_colour m) (specular_colour m)
     (specular_value m) v (flags m) (type m) (type_swbf1 m)
     (vertex_lighting m) (attached_light m).
Definition set_flags v (m : t) : t :=
  mk _ (name m) (textures m) (diffuse_colour m) (specular_colour m)
     (specular_value m) (params m) v (type m) (type_swbf1 m)
     (vertex_lighting m) (attached_light m).
Definition set_type v (m : t) : t :=
  mk _ (name m) (textures m) (diffuse_colour m) (specular_colour m)
     (specular_value m) (params m) (flags m) v (type_swbf1 m)
     (vertex_lighting m) (attached_light m).
Definition set_type_swbf1 v (m : t) : t :=
  mk _ (name m) (textures m) (diffuse_colour m) (specular_colour m)
     (specular_value m) (params m) (flags m) (type m) v
     (vertex_lighting m) (attached_light m).
Definition set_vertex_lighting v (m : t) : t :=
  mk _ (name m) (textures m) (diffuse_colour m) (specular_colour m)
     (specular_value m) (params m) (flags m) (type m) (type_swbf1 m)
     v (attached_light m).
Definition set_attached_light v (m : t) : t :=
  mk _ (name m) (textures m) (diffuse_colour m) (specular_colour m)
     (specular_value m) (params m) (flags m) (type m) (type_swbf1 m)
     (vertex_lighting m) v.
End Assign.
End Material.

Module Skin_entry.
Record t {FM : FloatModel} : Type := mk {
  bones : Z * Z * Z;       (* glm::u8vec3 *)
  weights : vec3 float
}.
End Skin_entry.

Module Model.
Record t {FM : FloatModel} : Type := mk {
  lod : Lod.t;
  name : list Byte.byte;
  parent : list Byte.byte;
  material : Material.t;
  strips : list (list Z);
  positions : list (vec3 float);
  normals : list (vec3 float);
  texture_coords : list (vec2 float);
  colours : list (vec4 float);
  skin : list Skin_entry.t;
  bone_map : list Z;
  pretransformed : bool
}.

Section Assign.
Context {FM : FloatModel}.

(** [msh::Model model{}]. *)
Definition default : t :=
  mk _ Lod.zero [] [] Material.default [] [] [] [] [] [] [] false.

Definition set_lod v (m : t) : t :=
  mk _ v (name m) (parent m) (material m) (strips m) (positions m)
     (normals m) (texture_coords m) (colours m) (skin m) (bone_map m)
     (pretransformed m).
Definition set_name v (m : t) : t :=
  mk _ (lod m) v (parent m) (material m) (strips m) (positions m)
     (normals m) (texture_coords m) (colours m) (skin m) (bone_map m)
     (pretransformed m).
Definition set_parent v (m : t) : t :=
  mk _ (lod m) (name m) v (material m) (strips m) (positions m)
     (normals m) (texture_coords m) (colours m) (skin m) (bone_map m)
     (pretransformed m).
Definition set_material v (m : t) : t :=
  mk _ (lod m) (name m) (parent m) v (strips m) (positions m)
     (normals m) (texture_coords m) (colours m) (skin m) (bone_map m)
     (pretransformed m).
Definition set_strips v (m : t) : t :=
  mk _ (lod m) (name m) (parent m) (material m) v (positions m)
     (normals m) (texture_coords m) (colours m) (skin m) (bone_map m)
     (pretransformed m).
Definition set_positions v (m : t) : t :=
  mk _ (lod m) (name m) (parent m) (material m) (strips m) v
     (normals m) (texture_coords m) (colours m) (skin m) (bone_map m)
     (pretransformed m).
Definition set_normals v (m : t) : t :=
  mk _ (lod m) (name m) (parent m) (material m) (strips m) (positions m)
     v (texture_coords m) (colours m) (skin m) (bone_map m)
     (pretransformed m).
Definition set_texture_coords v (m : t) : t :=
  mk _ (lod m) (name m) (parent m) (material m) (strips m) (positions m)
     (normals m) v (colours m) (skin m) (bone_map m)
     (pretransformed m).
Definition set_colours v (m : t) : t :=
  mk _ (lod m) (name m) (parent m) (material m) (strips m) (positions m)
     (normals m) (texture_coords m) v (skin m) (bone_map m)
     (pretransformed m).
Definition set_skin v (m : t) : t :=
  mk _ (lod m) (name m) (parent m) (material m) (strips m) (positions m)
     (normals m) (texture_coords m) (colours m) v (bone_map m)
     (pretransformed m).
Definition set_bone_map v (m : t) : t :=
  mk _ (lod m) (name m) (parent m) (material m) (strips m) (positions m)
     (normals m) (texture_coords m) (colours m) (skin m) v
     (pretransformed m).
Definition set_pretransformed v (m : t) : t :=
  mk _ (lod m) (name m) (parent m) (material m) (strips m) (positions m)
     (normals m) (texture_coords m) (colours m) (skin m) (bone_map m)
     v.
End Assign.
End Model.

(** Modelled from the spec: [msh::Builder], as far as [add_model] goes:
    the models added so far, in insertion order. *)
Module Builder.
Definition t {FM : FloatModel} : Type := list Model.t.
Definition add_model {FM : FloatModel} (model : Model.t) : M t unit :=
  modify (fun models => models ++ [model]).
End Builder.

End msh.

(** ** handle_model.cpp *)

Module Material_flags.
Definition normal : Z := 1.
Definition hardedged : Z := 2.
Definition transparent : Z := 4.
Definition glossmap : Z := 8.
Definition glow : Z := 16.
Definition bumpmap : Z := 32.
Definition additive : Z := 64.
Definition specular : Z := 128.
Definition env_map : Z := 256.
Definition vertex_lighting : Z := 512.
Definition wireframe : Z := 2048.
Definition doublesided : Z := 65536.
Definition scrolling : Z := 16777216.
Definition energy : Z := 33554432.
Definition animated : Z := 67108864.
Definition attached_light : Z := 134217728.
End Material_flags.

Module Material_flags_swbf1.
Definition normal : Z := 1.
Definition hardedged : Z := 2.
Definition transparent : Z := 4.
Definition specular : Z := 48.
Definition additive : Z := 128.
Definition glow : Z := 256.
Definition detail : Z := 512.
Definition scroll : Z := 1024.
Definition reflection : Z := 4096.
Definition camouflage : Z := 8192.
Definition refraction : Z := 16384.
End Material_flags_swbf1.

(** Modelled from the spec: [are_flags_set] (bit_flags.hpp is not part of
    the sources): all the bits of [flags] are present in [value]. *)
Definition are_flags_set (value flags : Z) : bool := Z.land value flags =? flags.

Record Material_info : Type := mkMaterial_info {
  mi_flags : Z;
  mi_diffuse_colour : Z;
  mi_specular_colour : Z;
  mi_specular_intensity : Z;
  mi_params : Z * Z
}.

Definition Material_info_t : Trivial Material_info :=
  mkTrivial 24 (fun bs =>
    mkMaterial_info
      (view_type_as uint32_t (bytes_at bs 0 4))
      (view_type_as uint32_t (bytes_at bs 4 4))
      (view_type_as uint32_t (bytes_at bs 8 4))
      (view_type_as uint32_t (bytes_at bs 12 4))
      (view_type_as uint32_t (bytes_at bs 16 4),
       view_type_as uint32_t (bytes_at bs 20 4))).

Section HandleModel.
Context {FM : FloatModel}.

Definition float_t : Trivial float :=
  mkTrivial 4 (fun bs => float_of_bits (le_value bs)).

(** Modelled from the spec: [pod::Vec3] (glm_pod_wrappers.hpp is not part of
    the sources): a 3-vector of floats. *)
Definition Vec3_t : Trivial (vec3 float) :=
  mkTrivial 12 (fun bs =>
    mkVec3 (view_type_as float_t (bytes_at bs 0 4))
           (view_type_as float_t (bytes_at bs 4 4))
           (view_type_as float_t (bytes_at bs 8 4))).

(** [std::array<pod::Vec3, 2>], its two elements as a pair. *)
Definition Vec3_box_t : Trivial (vec3 float * vec3 float) :=
  mkTrivial 24 (fun bs =>
    (view_type_as Vec3_t (bytes_at bs 0 12),
     view_type_as Vec3_t (bytes_at bs 12 12))).

Record Model_info : Type := mkModel_info {
  vertex_box : vec3 float * vec3 float;
  visibility_box : vec3 float * vec3 float;
  face_count : Z
}.

Definition on_material {A : Type} (m : M msh.Material.t A) : M msh.Model.t A :=
  fun model =>
    let '(res, material') := m (msh.Model.material model) in
    (res, msh.Model.set_material material' model).

Definition on_textures {A : Type} (m : M (list (list Byte.byte)) A)
    : M msh.Material.t A :=
  fun material =>
    let '(res, textures') := m (msh.Material.textures material) in
    (res, msh.Material.set_textures textures' material).

Definition read_model_name : M (Ucfb_reader_strict (mn "NAME"))
                               (list Byte.byte * msh.Lod.t) :=
  let* name_view := read_string false in
  let length := Z.of_nat (length name_view) in
  let* suffix := lift_outcome (substr name_view (wrap_size_t (length - 4)) 4) in
  let* unsuffixed_name :=
    lift_outcome (substr name_view 0 (wrap_size_t (length - 4))) in
  if bool_decide (suffix = sv "LOD1") then ret (unsuffixed_name, msh.Lod.one)
  else if bool_decide (suffix = sv "LOD2") then ret (unsuffixed_name, msh.Lod.two)
  else if bool_decide (suffix = sv "LOWD") then ret (unsuffixed_name, msh.Lod.lowres)
  else ret (name_view, msh.Lod.zero).

Definition read_model_info : M (Ucfb_reader_strict (mn "INFO")) Model_info :=
  let* info := get in
  let size := size info in
  if negb (size =? 72) && negb (size =? 68) then throw UnknownModelInfo
  else
    (* swbfii has an array of four ints vs the array of three for swbf1 *)
    let* _ := (if size =? 72
               then read_trivial (array_t int32_t 4) false
               else read_trivial (array_t int32_t 3) false) in
    let* vertex_box := read_trivial Vec3_box_t false in
    let* vis_box := read_trivial Vec3_box_t false in
    let* _ := read_trivial int32_t false in
    let* face_count := read_trivial uint32_t false in
    ret (mkModel_info (fst vertex_box, snd vertex_box)
                      (fst vis_box, snd vis_box) face_count).

Definition read_texture_name (texture_name : Ucfb_reader_strict (mn "TNAM"))
    : M (list (list Byte.byte)) unit :=
  noexcept (local texture_name (
    let* index := rd (read_trivial uint32_t false) in
    let* name := rd (read_string false) in
    upd (fun out => if index <? Z.of_nat (length out)
                    then <[Z.to_nat index := name]> out
                    else out))).

(** [indices[pos]] on a [gsl::span]: an index out of range is a contract
    violation. *)
Definition span_at (indices : list Z) (pos : Z) : outcome Z :=
  if (0 <=? pos) && (pos <? Z.of_nat (length indices))
  then match indices !! Z.to_nat pos with
       | Some index => Ok index
       | None => Throw Terminated
       end
  else Throw Terminated.

(** The [for (; pos < indices.size(); ++pos)] loop of
    [read_vertex_strip_ps2]; the state is [pos], held by reference. *)
Fixpoint read_vertex_strip_ps2_loop (fuel : nat) (indices : list Z)
    (strip : list Z) : M Z (list Z) :=
  fun pos =>
    match fuel with
    | O => (Throw LoopFuelExhausted, pos)
    | S fuel' =>
        if pos <? Z.of_nat (length indices) then
          match span_at indices pos with
          | Ok index =>
              if Z.land index 0x8000 =? 0x8000 then (Ok strip, pos)
              else read_vertex_strip_ps2_loop fuel' indices (strip ++ [index])
                     (pos + 1)
          | Throw e => (Throw e, pos)
          end
        else (Ok strip, pos)
    end.

Definition read_vertex_strip_ps2 (indices : list Z) : M Z (list Z) :=
  let* pos := get in
  if Z.of_nat (length indices) <=? pos + 1 then throw InvalidIndexBuffer
  else
    let strip : list Z := [] in
    let* first := lift_outcome (span_at indices pos) in
    let strip := strip ++ [wrap_u16 (Z.land first (Z.lnot 0x8000))] in
    let* second := lift_outcome (span_at indices (pos + 1)) in
    let strip := strip ++ [wrap_u16 (Z.land second (Z.lnot 0x8000))] in
    put (pos + 2) ;;;
    read_vertex_strip_ps2_loop (S (length indices)) indices strip.

Definition read_index_buffer : M (Ucfb_reader_strict (mn "IBUF")) (list Z) :=
  let* indices_count := read_trivial uint32_t false in
  let* indices := read_array uint16_t indices_count false in
  ret indices.

Definition read_strip_buffer (index_count : Z)
    : M (Ucfb_reader_strict (mn "STRP")) (list Z) :=
  let* indices := read_array uint16_t index_count false in
  ret indices.

Definition component (compressed : list Z) (i : nat) : Z :=
  default 0 (compressed !! i).

Definition read_positions_buffer (vertex_count : Z)
    (vertex_box : vec3 float * vec3 float)
    : M (Ucfb_reader_strict (mn "POSI")) (list (vec3 float)) :=
  let* compressed_positions := read_array (array_t uint16_t 3) vertex_count false in
  let old_range := (float_of_int 0, float_of_int 65535) in
  let new_ranges :=
    ((x3 (fst vertex_box), x3 (snd vertex_box)),
     (y3 (fst vertex_box), y3 (snd vertex_box)),
     (z3 (fst vertex_box), z3 (snd vertex_box))) in
  ret (map (fun compressed =>
              mkVec3
                (range_convert (float_of_int (component compressed 0)) old_range
                   (fst (fst new_ranges)))
                (range_convert (float_of_int (component compressed 1)) old_range
                   (snd (fst new_ranges)))
                (range_convert (float_of_int (component compressed 2)) old_range
                   (snd new_ranges)))
           compressed_positions).

Definition read_normals_buffer (vertex_count : Z)
    : M (Ucfb_reader_strict (mn "NORM")) (list (vec3 float)) :=
  let* compressed_normals := read_array (array_t int8_t 3) vertex_count false in
  ret (map (fun compressed =>
              mkVec3
                (fdiv (float_of_int (component compressed 0)) (float_of_int 127))
                (fdiv (float_of_int (component compressed 1)) (float_of_int 127))
                (fdiv (float_of_int (component compressed 2)) (float_of_int 127)))
           compressed_normals).

Definition read_uv_buffer (vertex_count : Z)
    : M (Ucfb_reader_strict (mn "TEX0")) (list (vec2 float)) :=
  let* compressed_coords := read_array (array_t int16_t 2) vertex_count false in
  ret (map (fun compressed =>
              let factor := fdiv (float_of_int 1) (float_of_int 2048) in
              let uv := mkVec2 (float_of_int (component compressed 0))
                               (float_of_int (component compressed 1)) in
              let uv := mkVec2 (fmul (x2 uv) factor) (fmul (y2 uv) factor) in
              mkVec2 (x2 uv) (fsub (float_of_int 1) (fract (y2 uv))))
           compressed_coords).

Definition read_skin_buffer (vertex_count : Z)
    : M (Ucfb_reader_strict (mn "BONE")) (list msh.Skin_entry.t) :=
  let* hardskin := read_array uint8_t vertex_count false in
  ret (map (fun bone =>
              msh.Skin_entry.mk _ (bone, bone, bone)
                (mkVec3 (float_of_int 1) (float_of_int 0) (float_of_int 0)))
           hardskin).

Definition bgra (v : vec4 float) : vec4 float :=
  mkVec4 (z4 v) (y4 v) (x4 v) (w4 v).

Definition read_colour_buffer (vertex_count : Z)
    : M (Ucfb_reader_strict (mn "COL0")) (list (vec4 float)) :=
  let* packed_colours := read_array uint32_t vertex_count false in
  ret (map (fun packed => bgra (unpackSnorm4x8 packed)) packed_colours).

Definition read_bone_map : M (Ucfb_reader_strict (mn "BMAP")) (list Z) :=
  let* count := read_trivial uint32_t false in
  let* bones := read_array uint8_t count false in
  ret bones.

Definition set_render_flag (flag : msh.Render_flags.t) (out : msh.Material.t)
    : msh.Material.t :=
  msh.Material.set_flags (msh.set_flags (msh.Material.flags out) flag) out.

Definition set_param (i : nat) (value : Z) (out : msh.Material.t)
    : msh.Material.t :=
  msh.Material.set_params (<[i := value]> (msh.Material.params out)) out.

(** The two [range_convert]ed floats that [detail] and [scroll] read. *)
Definition read_swbf1_params
    : M (Ucfb_reader_strict (mn "MTRL") * msh.Material.t) unit :=
  let* p0 := rd (read_trivial float_t false) in
  upd (set_param 0 (uint8_of_float
         (range_convert p0 (float_of_int (-1), float_of_int 1)
            (float_of_int (-128), float_of_int 127)))) ;;;
  let* p1 := rd (read_trivial float_t false) in
  upd (set_param 1 (uint8_of_float
         (range_convert p1 (float_of_int (-1), float_of_int 1)
            (float_of_int (-128), float_of_int 127)))).

Definition read_material_swbf1 (material : Ucfb_reader_strict (mn "MTRL"))
    : M msh.Material.t unit :=
  local material (
    let* flags := rd (read_trivial uint32_t false) in
    when (are_flags_set flags Material_flags_swbf1.hardedged)
      (upd (set_render_flag msh.Render_flags.hardedged)) ;;;
    when (are_flags_set flags Material_flags_swbf1.transparent)
      (upd (set_render_flag msh.Render_flags.transparent)) ;;;
    when (are_flags_set flags Material_flags_swbf1.specular)
      (upd (msh.Material.set_type_swbf1 msh.Render_type_swbf1.specular) ;;;
       let* value := rd (read_trivial int32_t false) in
       upd (msh.Material.set_specular_value (float_of_int value)) ;;;
       let* colour := rd (read_trivial uint32_t false) in
       upd (msh.Material.set_specular_colour (unpackUnorm4x8 colour))) ;;;
    when (are_flags_set flags Material_flags_swbf1.additive)
      (upd (set_render_flag msh.Render_flags.additive)) ;;;
    when (are_flags_set flags Material_flags_swbf1.glow)
      (upd (msh.Material.set_type_swbf1 msh.Render_type_swbf1.glow)) ;;;
    when (are_flags_set flags Material_flags_swbf1.detail)
      (upd (msh.Material.set_type_swbf1 msh.Render_type_swbf1.detail) ;;;
       read_swbf1_params) ;;;
    when (are_flags_set flags Material_flags_swbf1.scroll)
      (upd (msh.Material.set_type_swbf1 msh.Render_type_swbf1.scroll) ;;;
       read_swbf1_params) ;;;
    when (are_flags_set flags Material_flags_swbf1.reflection)
      (upd (msh.Material.set_type_swbf1 msh.Render_type_swbf1.reflection)) ;;;
    when (are_flags_set flags Material_flags_swbf1.camouflage)
      (upd (msh.Material.set_type_swbf1 msh.Render_type_swbf1.camouflage)) ;;;
    when (are_flags_set flags Material_flags_swbf1.refraction)
      (upd (msh.Material.set_type_swbf1 msh.Render_type_swbf1.refraction))).

Definition read_material (material : Ucfb_reader_strict (mn "MTRL"))
    : M msh.Material.t unit :=
  if size material <? sizeof Material_info_t
  then read_material_swbf1 material
  else
    local material (
      let* info := rd (read_trivial Material_info_t false) in
      upd (msh.Material.set_diffuse_colour
             (unpackUnorm4x8 (mi_diffuse_colour info))) ;;;
      upd (msh.Material.set_specular_colour
             (unpackUnorm4x8 (mi_specular_colour info))) ;;;
      upd (msh.Material.set_specular_value
             (float_of_int (mi_specular_intensity info))) ;;;
      upd (set_param 0 (wrap_u8 (fst (mi_params info)))) ;;;
      upd (set_param 1 (wrap_u8 (snd (mi_params info)))) ;;;
      let* attached_light := rd read_string_unaligned in
      upd (msh.Material.set_vertex_lighting
             (are_flags_set (mi_flags info) Material_flags.vertex_lighting)) ;;;
      when (are_flags_set (mi_flags info) Material_flags.hardedged)
        (upd (set_render_flag msh.Render_flags.hardedged)) ;;;
      when (are_flags_set (mi_flags info) Material_flags.transparent
            && negb (are_flags_set (mi_flags info) Material_flags.doublesided))
        (upd (set_render_flag msh.Render_flags.transparent)) ;;;
      when (are_flags_set (mi_flags info) Material_flags.glow)
        (upd (set_render_flag msh.Render_flags.glow)) ;;;
      when (are_flags_set (mi_flags info) Material_flags.bumpmap)
        (upd (msh.Material.set_type msh.Render_type.bumpmap)) ;;;
      when (are_flags_set (mi_flags info) Material_flags.additive)
        (upd (set_render_flag msh.Render_flags.additive)) ;;;
      when (are_flags_set (mi_flags info) Material_flags.specular)
        (upd (set_render_flag msh.Render_flags.specular)) ;;;
      when (are_flags_set (mi_flags info) Material_flags.env_map)
        (upd (msh.Material.set_type msh.Render_type.env_map)) ;;;
      when (are_flags_set (mi_flags info) Material_flags.wireframe)
        (upd (msh.Material.set_type msh.Render_type.wireframe)) ;;;
      when (are_flags_set (mi_flags info) Material_flags.doublesided)
        (upd (set_render_flag msh.Render_flags.doublesided)) ;;;
      when (are_flags_set (mi_flags info) Material_flags.scrolling)
        (upd (msh.Material.set_type msh.Render_type.scrolling)) ;;;
      when (are_flags_set (mi_flags info) Material_flags.energy)
        (upd (msh.Material.set_type msh.Render_type.energy)) ;;;
      when (are_flags_set (mi_flags info) Material_flags.animated)
        (upd (msh.Material.set_type msh.Render_type.animated)) ;;;
      when (are_flags_set (mi_flags info) Material_flags.attached_light)
        (upd (msh.Material.set_attached_light attached_light))).

Definition read_material_name (mnam : Ucfb_reader_strict (mn "MNAM"))
    : M msh.Model.t unit :=
  local mnam (
    let* name := rd (read_string false) in
    upd (fun out => msh.Model.set_material
                      (msh.Material.set_name name (msh.Model.material out)) out) ;;;
    upd (msh.Model.set_name name)).

Definition read_render_type (render_type : Ucfb_reader_strict (mn "RTYP"))
    : M msh.Material.t unit :=
  local render_type (
    let* type := rd (read_string false) in
    if bool_decide (type = sv "Refraction")
    then upd (msh.Material.set_type msh.Render_type.refraction)
    else if bool_decide (type = sv "Bump")
    then upd (fun out =>
                match msh.Material.type_swbf1 out with
                | msh.Render_type_swbf1.specular =>
                    msh.Material.set_type_swbf1
                      msh.Render_type_swbf1.bumpmap_specular out
                | _ =>
                    msh.Material.set_type_swbf1 msh.Render_type_swbf1.bumpmap out
                end)
    else if bool_decide (type = sv "Water")
    then upd (msh.Material.set_type_swbf1 msh.Render_type_swbf1.water)
    else ret tt).

(** [Ucfb_reader_strict<tag>{child}] followed by a call that takes the
    strict reader by value. *)
Definition with_strict {S A : Type} (type_mn : Magic_number) (child : Ucfb_reader)
    (callee : Ucfb_reader_strict type_mn -> M S A) : M S A :=
  let* strict := lift_outcome (Ucfb_reader_strict_of type_mn child) in
  callee strict.

(** One pass of the [while (segment)] loop of [process_segment_ps2]: the
    state is the segment reader and the model under construction. *)
Definition process_segment_ps2_child (vertex_count index_count : Z)
    (model_info : Model_info) : M (Ucfb_reader * msh.Model.t) unit :=
  let* child := rd (read_child false) in
  if magic_number child =? mn "MTRL" then
    with_strict (mn "MTRL") child (fun c => out_ref (on_material (read_material c)))
  else if magic_number child =? mn "RTYP" then
    with_strict (mn "RTYP") child (fun rtyp =>
      let* value := by_value rtyp (read_trivial uint32_t false) in
      upd (fun model => msh.Model.set_material
             (msh.Material.set_type (msh.Render_type.of_uint32 value)
                (msh.Model.material model)) model))
  else if magic_number child =? mn "MNAM" then
    with_strict (mn "MNAM") child (fun c => out_ref (read_material_name c))
  else if magic_number child =? mn "TNAM" then
    with_strict (mn "TNAM") child (fun c =>
      out_ref (on_material (on_textures (read_texture_name c))))
  else if magic_number child =? mn "STRP" then
    with_strict (mn "STRP") child (fun c =>
      let* strip := by_value c (read_strip_buffer index_count) in
      upd (fun model => msh.Model.set_strips (msh.Model.strips model ++ [strip]) model))
  else if magic_number child =? mn "POSI" then
    with_strict (mn "POSI") child (fun c =>
      let* positions :=
        by_value c (read_positions_buffer vertex_count (vertex_box model_info)) in
      upd (msh.Model.set_positions positions))
  else if magic_number child =? mn "NORM" then
    with_strict (mn "NORM") child (fun c =>
      let* normals := by_value c (read_normals_buffer vertex_count) in
      upd (msh.Model.set_normals normals))
  else if magic_number child =? mn "TEX0" then
    with_strict (mn "TEX0") child (fun c =>
      let* texture_coords := by_value c (read_uv_buffer vertex_count) in
      upd (msh.Model.set_texture_coords texture_coords))
  else if magic_number child =? mn "COL0" then
    with_strict (mn "COL0") child (fun c =>
      let* colours := by_value c (read_colour_buffer vertex_count) in
      upd (msh.Model.set_colours colours))
  else if magic_number child =? mn "BMAP" then
    with_strict (mn "BMAP") child (fun c =>
      let* bone_map := by_value c read_bone_map in
      upd (msh.Model.set_bone_map bone_map) ;;;
      upd (msh.Model.set_pretransformed true))
  else if magic_number child =? mn "BONE" then
    with_strict (mn "BONE") child (fun c =>
      let* skin := by_value c (read_skin_buffer vertex_count) in
      upd (msh.Model.set_skin skin))
  else if magic_number child =? mn "BNAM" then
    with_strict (mn "BNAM") child (fun c =>
      let* parent := by_value c (read_string false) in
      upd (msh.Model.set_parent parent))
  else ret tt.

Definition process_segment_ps2 (segment : Ucfb_reader_strict (mn "segm"))
    (lod : msh.Lod.t) (model_info : Model_info) : M msh.Builder.t unit :=
  let model := msh.Model.set_lod lod msh.Model.default in
  let* model :=
    (fun builder =>
       let '(res, s) :=
         (let* info := rd (read_child_strict (mn "INFO") false) in
          let* counts :=
            by_value info
              (let* vertex_count := read_trivial uint32_t false in
               let* index_count := read_trivial uint32_t false in
               ret (vertex_count, index_count)) in
          while_ (process_segment_ps2_child (fst counts) (snd counts) model_info))
           (segment, model) in
       (match res with Ok _ => Ok (snd s) | Throw e => Throw e end, builder)) in
  msh.Builder.add_model model.
End HandleModel.

(** ** handle_object.cpp *)

Section HandleObject.
(** [lookup_fnv_hash] (swbf_fnv_hashes.hpp) is not part of the sources:
    any reverse lookup from a hash to a property name. *)
Variable lookup_fnv_hash : Z -> list Byte.byte.

(** Modelled from the spec: [File_saver] (file_saver.hpp is not part of the
    sources), whose [save_file] takes the contents, a directory tag, a base
    name and an extension: the files saved so far. *)
Record saved_file : Type := mkSaved_file {
  file_contents : list Byte.byte;
  file_directory : list Byte.byte;
  file_name : list Byte.byte;
  file_extension : list Byte.byte
}.
Definition File_saver : Type := list saved_file.

Definition save_file (contents directory name extension : list Byte.byte)
    : M File_saver unit :=
  modify (fun saved => saved ++ [mkSaved_file contents directory name extension]).

Definition newline : list Byte.byte := [Byte.x0a].

Definition write_bracketed_str (what : list Byte.byte) : M (list Byte.byte) unit :=
  modify (fun to => to ++ sv "[") ;;;
  modify (fun to => to ++ what) ;;;
  modify (fun to => to ++ sv "]" ++ newline ++ newline).

Definition write_property (prop_value : list Byte.byte * list Byte.byte)
    : M (list Byte.byte) unit :=
  modify (fun to => to ++ fst prop_value) ;;;
  modify (fun to => to ++ sv " = " ++ [Byte.x22]) ;;;
  modify (fun to => to ++ snd prop_value) ;;;
  modify (fun to => to ++ [Byte.x22] ++ newline).

(** One pass of the [while (object)] loop of [get_properties]: the state
    is the object reader and the vector of properties. *)
Definition get_properties_child
    : M (Ucfb_reader * list (Z * list Byte.byte)) unit :=
  let* property := rd (read_child_strict (mn "PROP") false) in
  let* read :=
    by_value property
      (let* hash := read_trivial uint32_t false in
       let* value := read_string false in
       ret (hash, value)) in
  upd (fun properties => properties ++ [read]).

Definition get_properties : M Ucfb_reader (list (Z * list Byte.byte)) :=
  fun object =>
    let '(res, s) := while_ get_properties_child (object, []) in
    (match res with Ok _ => Ok (snd s) | Throw e => Throw e end, fst s).

Definition find_geometry_name (properties : list (Z * list Byte.byte))
    : option (list Byte.byte) :=
  match List.find (fun prop => fst prop =? 0x47c86b4a) properties with
  | Some result => Some (snd result ++ sv ".msh")
  | None => None
  end.

Fixpoint write_properties (properties : list (Z * list Byte.byte))
    : M (list Byte.byte) unit :=
  match properties with
  | [] => ret tt
  | property :: rest =>
      write_property (lookup_fnv_hash (fst property), snd property) ;;;
      write_properties rest
  end.

Definition handle_object (object : Ucfb_reader) (type : list Byte.byte)
    : M File_saver unit :=
  let* saved :=
    by_value (object, [])
      (out_ref (write_bracketed_str type) ;;;
       let* base := rd (read_child_strict (mn "BASE") false) in
       let* class_name := by_value base (read_string false) in
       out_ref (write_property (sv "ClassLabel", class_name)) ;;;
       let* type_chunk := rd (read_child_strict (mn "TYPE") false) in
       let* odf_name := by_value type_chunk (read_string false) in
       let* state := get in
       let* properties := by_value (fst state) get_properties in
       let geom_name := find_geometry_name properties in
       match geom_name with
       | Some geometry => out_ref (write_property (sv "GeometryName", geometry))
       | None => ret tt
       end ;;;
       out_ref (modify (fun file_buffer => file_buffer ++ newline)) ;;;
       out_ref (write_bracketed_str (sv "Properties")) ;;;
       out_ref (write_properties properties) ;;;
       let* state := get in
       ret (snd state, odf_name)) in
  save_file (fst saved) (sv "odf") (snd saved) (sv ".odf").
End HandleObject.

(** ** Building chunks for the examples *)

Definition byte_of (z : Z) : Byte.byte :=
  default Byte.x00 (Byte.of_N (Z.to_N (z mod 256))).

Definition bytes_of (values : list Z) : list Byte.byte := map byte_of values.

Fixpoint le_bytes (width : nat) (z : Z) : list Byte.byte :=
  match width with
  | O => []
  | S width' => byte_of z :: le_bytes width' (z / 256)
  end.

Definition padding (n : nat) : list Byte.byte :=
  replicate (Z.to_nat ((4 - Z.of_nat n mod 4) mod 4)) Byte.x00.

(** A chunk: magic, size, payload and the padding to the next multiple of
    four. *)
Definition chunk (tag : string) (payload : list Byte.byte) : list Byte.byte :=
  sv tag ++ le_bytes 4 (Z.of_nat (length payload)) ++ payload
    ++ padding (length payload).

(** A reader over a payload, as [read_child] would hand it out. *)
Definition reader_over (tag : string) (payload : list Byte.byte) : Ucfb_reader :=
  mkReader (mn tag) (Z.of_nat (length payload)) payload 0.

(** ** A float model for running the decoders *)

(** Floating point values kept as the expressions that produce them, so a
    decoded value shows which operations of the source were applied to
    which stored bits; an expression is evaluated only where the source
    converts a float to an integer. *)
Module SymbolicFloat.
Inductive t : Type :=
| Bits (bits : Z)
| OfInt (value : Z)
| Sub (a b : t)
| Mul (a b : t)
| Div (a b : t)
| Fract (a : t)
| RangeConvert (value old_low old_high new_low new_high : t)
| Unorm (lane : nat) (word : Z)
| Snorm (lane : nat) (word : Z).

(** The value of an expression in IEEE single precision, by the operations
    of the Standard Library's [SpecFloat] at precision 24 and maximum
    exponent 128, each rounding to nearest even. *)
Definition prec : Z := 24.
Definition emax : Z := 128.

Definition of_int (value : Z) : spec_float :=
  binary_normalize prec emax value 0 false.

(** The single with the bits [bits]: sign, eight bits of exponent, 23 of
    mantissa. *)
Definition of_bits (bits : Z) : spec_float :=
  let sign := Z.testbit bits 31 in
  let exponent := Z.land (Z.shiftr bits 23) 255 in
  let mantissa := Z.land bits 8388607 in
  if exponent =? 255
  then (if mantissa =? 0 then S754_infinity sign else S754_nan)
  else if exponent =? 0
  then match mantissa with
       | Zpos m => S754_finite sign m (-149)
       | _ => S754_zero sign
       end
  else match mantissa + 8388608 with
       | Zpos m => S754_finite sign m (exponent - 150)
       | _ => S754_nan
       end.

(** The integer below a finite value, and the integer next to it towards
    zero. *)
Definition signed_mantissa (sign : bool) (m : positive) : Z :=
  if sign then Zneg m else Zpos m.

Definition floor_of (x : spec_float) : option Z :=
  match x with
  | S754_zero _ => Some 0
  | S754_finite sign m e =>
      Some (if e <? 0 then signed_mantissa sign m / 2 ^ (- e)
            else signed_mantissa sign m * 2 ^ e)
  | _ => None
  end.

Definition truncation_of (x : spec_float) : option Z :=
  match x with
  | S754_zero _ => Some 0
  | S754_finite sign m e =>
      Some (if e <? 0 then Z.quot (signed_mantissa sign m) (2 ^ (- e))
            else signed_mantissa sign m * 2 ^ e)
  | _ => None
  end.

(** The byte [lane] of [word], unsigned and signed. *)
Definition lane_of (lane : nat) (word : Z) : Z :=
  Z.land (Z.shiftr word (8 * Z.of_nat lane)) 255.

Definition signed_lane_of (lane : nat) (word : Z) : Z :=
  if lane_of lane word <? 128 then lane_of lane word else lane_of lane word - 256.

(** Modelled from the spec: [range_convert] (math_helpers.hpp is not part of
    the sources) is the linear map of the old range onto the new one, a byte
    of [unpackUnorm4x8] is divided by 255 and a signed byte of
    [unpackSnorm4x8] by 127, kept from -1 on; [glm::fract] is the value less
    its floor. *)
Fixpoint value_of (x : t) : spec_float :=
  match x with
  | Bits bits => of_bits bits
  | OfInt value => of_int value
  | Sub a b => SFsub prec emax (value_of a) (value_of b)
  | Mul a b => SFmul prec emax (value_of a) (value_of b)
  | Div a b => SFdiv prec emax (value_of a) (value_of b)
  | Fract a =>
      match floor_of (value_of a) with
      | Some below => SFsub prec emax (value_of a) (of_int below)
      | None => S754_nan
      end
  | RangeConvert value old_low old_high new_low new_high =>
      SFadd prec emax
        (SFdiv prec emax
           (SFmul prec emax
              (SFsub prec emax (value_of value) (value_of old_low))
              (SFsub prec emax (value_of new_high) (value_of new_low)))
           (SFsub prec emax (value_of old_high) (value_of old_low)))
        (value_of new_low)
  | Unorm lane word => SFdiv prec emax (of_int (lane_of lane word)) (of_int 255)
  | Snorm lane word =>
      SFdiv prec emax (of_int (Z.max (signed_lane_of lane word) (-127)))
        (of_int 127)
  end.

(** The conversion to [std::uint8_t] drops the fraction, towards zero, and
    keeps the low eight bits; 0 for an infinity and a NaN. *)
Definition to_uint8_def (value : t) : Z :=
  match truncation_of (value_of value) with
  | Some whole => wrap_u8 whole
  | None => 0
  end.

(** The conversion is sealed, so that a decoded parameter stays the
    expression it was converted from; [to_uint8_unseal] gives its value. *)
Definition to_uint8_aux : seal to_uint8_def.
Proof. by eexists. Qed.

Definition to_uint8 : t -> Z := unseal to_uint8_aux.

Definition to_uint8_unseal : to_uint8 = to_uint8_def := seal_eq to_uint8_aux.

#[global] Instance model : FloatModel := {|
  float := t;
  float_of_bits := Bits;
  float_of_int := OfInt;
  uint8_of_float := to_uint8;
  fsub := Sub;
  fmul := Mul;
  fdiv := Div;
  fract := Fract;
  range_convert := fun value old_range new_range =>
    RangeConvert value (fst old_range) (snd old_range)
      (fst new_range) (snd new_range);
  unpackUnorm4x8 := fun w => mkVec4 (Unorm 0 w) (Unorm 1 w) (Unorm 2 w) (Unorm 3 w);
  unpackSnorm4x8 := fun w => mkVec4 (Snorm 0 w) (Snorm 1 w) (Snorm 2 w) (Snorm 3 w);
  default_diffuse_colour := mkVec4 (OfInt 1) (OfInt 1) (OfInt 1) (OfInt 1);
  default_specular_colour := mkVec4 (OfInt 1) (OfInt 1) (OfInt 1) (OfInt 1);
  default_specular_value := OfInt 0
|}.
End SymbolicFloat.


(** * The model envelope *)

(** ** Optional children *)

(** Modelled from the spec: the non-template
    [Ucfb_reader::read_child_strict_optional] (declared in ucfb_reader.hpp,
    body not part of the sources): the child is read and its magic number
    compared with the expected one; on a mismatch the head is not moved and
    the result is absent; a child that goes past the end of the chunk is the
    bounds error, as the header documents. *)
Definition read_child_strict_optional_mn (child_mn : Magic_number) (unaligned : bool)
    : M Ucfb_reader (option Ucfb_reader) :=
  fun r =>
    let old_head := _head r in
    match read_child unaligned r with
    | (Ok child, r') =>
        if negb (magic_number child =? child_mn)
        then (Ok None, set_head old_head r')
        else (Ok (Some child), r')
    | (Throw e, r') => (Throw e, set_head old_head r')
    end.

Definition read_child_strict_optional (type_mn : Magic_number) (unaligned : bool)
    : M Ucfb_reader (option (Ucfb_reader_strict type_mn)) :=
  let* child := read_child_strict_optional_mn type_mn unaligned in
  match child with
  | Some child => ret (Some (Ucfb_reader_strict_unchecked type_mn child))
  | None => ret None
  end.

(** ** handle_model.cpp: [handle_model_impl] *)

Section HandleModelImpl.
Context {FM : FloatModel}.

(** The sum of two floats and [glm::abs], two more operations of IEEE
  arithmetic and GLM that are not interpreted. *)
Variable fadd : float -> float -> float.
Variable fabs : float -> float.

(** Modelled from the spec: [msh::Bbox] (msh_builder.hpp is not part of the
  sources): a centre and a half size. *)
Record Bbox : Type := mkBbox {
centre : vec3 float;
bbox_size : vec3 float
}.

Definition create_bbox (model_info : Model_info) : Bbox :=
let vertex_box := vertex_box model_info in
let two := float_of_int 2 in
let sum :=
  mkVec3 (fadd (x3 (fst vertex_box)) (x3 (snd vertex_box)))
         (fadd (y3 (fst vertex_box)) (y3 (snd vertex_box)))
         (fadd (z3 (fst vertex_box)) (z3 (snd vertex_box))) in
let centre := mkVec3 (fdiv (x3 sum) two) (fdiv (y3 sum) two) (fdiv (z3 sum) two) in
let absolute :=
  mkVec3 (fabs (fsub (x3 (fst vertex_box)) (x3 (snd vertex_box))))
         (fabs (fsub (y3 (fst vertex_box)) (y3 (snd vertex_box))))
         (fabs (fsub (z3 (fst vertex_box)) (z3 (snd vertex_box)))) in
mkBbox centre
  (mkVec3 (fdiv (x3 absolute) two) (fdiv (y3 absolute) two)
          (fdiv (z3 absolute) two)).

(** Modelled from the spec: [msh::Builders_map] (msh_builder.hpp is not part
  of the sources): the builders keyed by base name.  A builder holds the
  bounding box [set_bbox] gave it, if any, and the models added to it;
  [builders[name]] is the builder of [name], a fresh one when the name was
  not met before. *)
Record Keyed_builder : Type := mkKeyed_builder {
builder_bbox : option Bbox;
builder_models : msh.Builder.t
}.

Definition Builders_map : Type := list Byte.byte -> Keyed_builder.

Definition no_builders : Builders_map := fun _ => mkKeyed_builder None [].

Definition at_key (name : list Byte.byte) (f : Keyed_builder -> Keyed_builder)
  (builders : Builders_map) : Builders_map :=
fun key => if bool_decide (key = name) then f (builders key) else builders key.

Definition set_bbox (bbox : Bbox) (builder : Keyed_builder) : Keyed_builder :=
mkKeyed_builder (Some bbox) (builder_models builder).

(** A callee that is handed [builders[name]] by reference and adds models
  to it. *)
Definition on_builder {A : Type} (name : list Byte.byte) (m : M msh.Builder.t A)
  : M Builders_map A :=
fun builders =>
  let '(res, models') := m (builder_models (builders name)) in
  (res, at_key name (fun builder => mkKeyed_builder (builder_bbox builder) models')
          builders).

(** What is passed for [Segm_processor]: [process_segment_pc],
  [process_segment_xbox] or [process_segment_ps2]. *)
Definition Segm_processor : Type :=
Ucfb_reader_strict (mn "segm") -> msh.Lod.t -> Model_info -> M msh.Builder.t unit.

(** One pass of the [while (model)] loop of [handle_model_impl]: the state
  is the model reader and the map of builders. *)
Definition handle_model_impl_child (segm_processor : Segm_processor)
  (name : list Byte.byte) (lod : msh.Lod.t) (model_info : Model_info)
  : M (Ucfb_reader * Builders_map) unit :=
let* child := rd (read_child false) in
if magic_number child =? mn "segm" then
  with_strict (mn "segm") child (fun c =>
    out_ref (on_builder name (segm_processor c lod model_info)))
else ret tt.

Definition handle_model_impl (segm_processor : Segm_processor) (model : Ucfb_reader)
  : M Builders_map unit :=
local model (
  let* name_chunk := rd (read_child_strict (mn "NAME") false) in
  let* name_lod := by_value name_chunk read_model_name in
  let name := fst name_lod in
  let lod := snd name_lod in
  rd (read_child_strict_optional (mn "VRTX") false) ;;;
  rd (read_child_strict (mn "NODE") false) ;;;
  let* info := rd (read_child_strict (mn "INFO") false) in
  let* model_info := by_value info read_model_info in
  upd (at_key name (set_bbox (create_bbox model_info))) ;;;
  while_ (handle_model_impl_child segm_processor name lod model_info)).

Definition handle_model_ps2 (model : Ucfb_reader) : M Builders_map unit :=
handle_model_impl process_segment_ps2 model.
End HandleModelImpl.

(** * The object emitter over any file saver *)

(** [handle_object] is handed the file saver by reference and only calls
    its [save_file], whose body is not part of the sources.  Here the file
    saver is any state and [save_file] any operation on it, one that fails
    included; with the recorder [save_file] this is [handle_object] above. *)
Module AnyFileSaver.
Section HandleObject.
Variable lookup_fnv_hash : Z -> list Byte.byte.
Context {File_saver : Type}.
Variable save_file :
list Byte.byte -> list Byte.byte -> list Byte.byte -> list Byte.byte ->
M File_saver unit.

Definition handle_object (object : Ucfb_reader) (type : list Byte.byte)
  : M File_saver unit :=
let* saved :=
  by_value (object, [])
    (out_ref (write_bracketed_str type) ;;;
     let* base := rd (read_child_strict (mn "BASE") false) in
     let* class_name := by_value base (read_string false) in
     out_ref (write_property (sv "ClassLabel", class_name)) ;;;
     let* type_chunk := rd (read_child_strict (mn "TYPE") false) in
     let* odf_name := by_value type_chunk (read_string false) in
     let* state := get in
     let* properties := by_value (fst state) get_properties in
     let geom_name := find_geometry_name properties in
     match geom_name with
     | Some geometry => out_ref (write_property (sv "GeometryName", geometry))
     | None => ret tt
     end ;;;
     out_ref (modify (fun file_buffer => file_buffer ++ newline)) ;;;
     out_ref (write_bracketed_str (sv "Properties")) ;;;
     out_ref (write_properties lookup_fnv_hash properties) ;;;
     let* state := get in
     ret (snd state, odf_name)) in
save_file (fst saved) (sv "odf") (snd saved) (sv ".odf").
End HandleObject.
End AnyFileSaver.
(** * Vocabulary of the properties *)

(** The smallest multiple of four that is not below [e]. *)
Definition ceil4 (e : Z) : Z := (e + 3) / 4 * 4.

(** A reader a program can hold: the size is a 32-bit chunk size, and the
    head and the bytes in memory are far from the end of the address
    space. *)
Definition reader_ok (r : Ucfb_reader) : Prop :=
  0 <= _head r < 2 ^ 62 /\ 0 <= _size r < 2 ^ 32
  /\ Z.of_nat (length (_data r)) < 2 ^ 62.

(** Where the shared tail of every read (move the head, [check_head],
    [align_head] unless unaligned) leaves the reader when the bytes read
    end at [e]. *)
Definition advance_to (e : Z) (unaligned : bool) (r : Ucfb_reader)
    : outcome unit * Ucfb_reader :=
  if _size r <? e then (Throw BoundsViolation, set_head e r)
  else (Ok tt, set_head (if unaligned then e else ceil4 e) r).


(** What a successful read whose bytes end at [e] leaves behind: the bytes
    were inside the chunk, and the head is [e], or the next multiple of four
    when the read is aligned. *)
Definition read_post (unaligned : bool) (r : Ucfb_reader) (e : Z)
    (r' : Ucfb_reader) : Prop :=
  e <= _size r
  /\ r' = set_head (if unaligned then e else ceil4 e) r
  /\ e <= _head r' < e + 4
  /\ (unaligned = false -> _head r' mod 4 = 0)
  /\ (unaligned = true \/ _size r mod 4 = 0 -> _head r' <= _size r).

(** The chunk header found at the head of a reader, and the child chunk it
    announces. *)
Definition child_magic_at (r : Ucfb_reader) : Magic_number :=
  view_type_as uint32_t (bytes_at (_data r) (_head r) 4).

Definition child_size_at (r : Ucfb_reader) : Z :=
  view_type_as uint32_t (bytes_at (_data r) (_head r + 4) 4).

Definition child_end (r : Ucfb_reader) : Z := _head r + 8 + child_size_at r.

(** The header and the payload it declares lie inside the parent. *)
Definition child_fits (r : Ucfb_reader) : Prop := child_end r <= _size r.

Definition child_at (r : Ucfb_reader) : Ucfb_reader :=
  mkReader (child_magic_at r) (child_size_at r)
    (drop (Z.to_nat (_head r + 8)) (_data r)) 0.

(** The parent once the child and its padding have been passed. *)
Definition after_child (unaligned : bool) (r : Ucfb_reader) : Ucfb_reader :=
  set_head (if unaligned then child_end r else ceil4 (child_end r)) r.

Section ModelVocabulary.
Context {FM : FloatModel}.

(** The record [read_model_info] builds when the leading array of
    [i32] takes [skipped] bytes. *)
Definition Model_info_at (data : list Byte.byte) (skipped : Z) : Model_info :=
  mkModel_info
    (view_type_as Vec3_box_t (bytes_at data skipped 24))
    (view_type_as Vec3_box_t (bytes_at data (skipped + 24) 24))
    (view_type_as uint32_t (bytes_at data (skipped + 52) 4)).
End ModelVocabulary.

(** [if (b) out = f(out);] as a function of [out]. *)
Definition assign_if {O : Type} (b : bool) (f : O -> O) (out : O) : O :=
  if b then f out else out.

Section MaterialVocabulary.
Context {FM : FloatModel}.

(** The [Material_info] record at the start of a [MTRL] payload. *)
Definition info_at (material : Ucfb_reader) : Material_info :=
  view_type_as Material_info_t (bytes_at (_data material) 0 24).

(** The assignments the dialect-2 branch of [read_material] makes, in
    program order (innermost first), once the record [info] and the
    trailing string [attached_light] have been read. *)
Definition decoded_material (info : Material_info)
    (attached_light : list Byte.byte) (out : msh.Material.t) : msh.Material.t :=
  let flag f := are_flags_set (mi_flags info) f in
  assign_if (flag Material_flags.attached_light)
    (msh.Material.set_attached_light attached_light)
  (assign_if (flag Material_flags.animated)
    (msh.Material.set_type msh.Render_type.animated)
  (assign_if (flag Material_flags.energy)
    (msh.Material.set_type msh.Render_type.energy)
  (assign_if (flag Material_flags.scrolling)
    (msh.Material.set_type msh.Render_type.scrolling)
  (assign_if (flag Material_flags.doublesided)
    (set_render_flag msh.Render_flags.doublesided)
  (assign_if (flag Material_flags.wireframe)
    (msh.Material.set_type msh.Render_type.wireframe)
  (assign_if (flag Material_flags.env_map)
    (msh.Material.set_type msh.Render_type.env_map)
  (assign_if (flag Material_flags.specular)
    (set_render_flag msh.Render_flags.specular)
  (assign_if (flag Material_flags.additive)
    (set_render_flag msh.Render_flags.additive)
  (assign_if (flag Material_flags.bumpmap)
    (msh.Material.set_type msh.Render_type.bumpmap)
  (assign_if (flag Material_flags.glow)
    (set_render_flag msh.Render_flags.glow)
  (assign_if (flag Material_flags.transparent
              && negb (flag Material_flags.doublesided))
    (set_render_flag msh.Render_flags.transparent)
  (assign_if (flag Material_flags.hardedged)
    (set_render_flag msh.Render_flags.hardedged)
  (msh.Material.set_vertex_lighting (flag Material_flags.vertex_lighting)
  (set_param 1 (wrap_u8 (snd (mi_params info)))
  (set_param 0 (wrap_u8 (fst (mi_params info)))
  (msh.Material.set_specular_value (float_of_int (mi_specular_intensity info))
  (msh.Material.set_specular_colour (unpackUnorm4x8 (mi_specular_colour info))
  (msh.Material.set_diffuse_colour (unpackUnorm4x8 (mi_diffuse_colour info))
     out)))))))))))))))))).

(** The assignments the dialect-2 branch has made from the record [info]
    when it comes to read the trailing string. *)
Definition decoded_material_record (info : Material_info) (out : msh.Material.t)
    : msh.Material.t :=
  set_param 1 (wrap_u8 (snd (mi_params info)))
  (set_param 0 (wrap_u8 (fst (mi_params info)))
  (msh.Material.set_specular_value (float_of_int (mi_specular_intensity info))
  (msh.Material.set_specular_colour (unpackUnorm4x8 (mi_specular_colour info))
  (msh.Material.set_diffuse_colour (unpackUnorm4x8 (mi_diffuse_colour info))
     out)))).
End MaterialVocabulary.

(** The suffix rule, on a name of at least four characters. *)
Definition lod_of_name (name : list Byte.byte) : list Byte.byte * msh.Lod.t :=
  let base := take (length name - 4) name in
  let suffix := drop (length name - 4) name in
  if bool_decide (suffix = sv "LOD1") then (base, msh.Lod.one)
  else if bool_decide (suffix = sv "LOD2") then (base, msh.Lod.two)
  else if bool_decide (suffix = sv "LOWD") then (base, msh.Lod.lowres)
  else (name, msh.Lod.zero).

(** What [get_properties] reads from one [PROP] child: the hash and the
    value. *)
Definition property_of (property : Ucfb_reader) : outcome (Z * list Byte.byte) :=
  fst ((let* hash := read_trivial uint32_t false in
        let* value := read_string false in
        ret (hash, value)) property).

(** From [r] on, the object holds well-formed [PROP] children and then, at
    [r_foreign], a child inside the object whose magic is not [PROP]. *)
Inductive props_then_foreign : Ucfb_reader -> Ucfb_reader -> Prop :=
| foreign_here (r : Ucfb_reader) :
    operator_bool r = true -> child_fits r -> child_magic_at r <> mn "PROP" ->
    props_then_foreign r r
| prop_first (r r_foreign : Ucfb_reader) (read : Z * list Byte.byte) :
    operator_bool r = true -> child_fits r -> child_magic_at r = mn "PROP" ->
    property_of (child_at r) = Ok read ->
    props_then_foreign (after_child false r) r_foreign ->
    props_then_foreign r r_foreign.

(** The magic numbers [process_segment_ps2] recognises among the children
    of a segment (after the leading [INFO]). *)
Definition ps2_segment_magics : list Magic_number :=
  [mn "MTRL"; mn "RTYP"; mn "MNAM"; mn "TNAM"; mn "STRP"; mn "POSI";
   mn "NORM"; mn "TEX0"; mn "COL0"; mn "BMAP"; mn "BONE"; mn "BNAM"].

(** ** Inputs of the examples *)

(** An object: [BASE], [TYPE], one [PROP] and then a child whose magic is
    not [PROP]. *)
Definition object_with_foreign_child : Ucfb_reader :=
  reader_over "entc"
    (chunk "BASE" (sv "door" ++ [Byte.x00])
     ++ chunk "TYPE" (sv "my_door" ++ [Byte.x00])
     ++ chunk "PROP" (le_bytes 4 0x47c86b4a ++ sv "geo" ++ [Byte.x00])
     ++ chunk "XXXX" (bytes_of [1; 2; 3])).

(** The PS2 segment of the specification's third scenario: [INFO] with 3
    vertices and 5 indices, [POSI] at the maximum, [NORM] at 127, [TEX0] at
    0 and the strip buffer [0x8000, 0x8001, 2, 3, 4]. *)
Definition ps2_scenario_segment : Ucfb_reader :=
  reader_over "segm"
    (chunk "INFO" (le_bytes 4 3 ++ le_bytes 4 5)
     ++ chunk "POSI" (replicate 18 Byte.xff)
     ++ chunk "NORM" (replicate 9 Byte.x7f)
     ++ chunk "TEX0" (replicate 12 Byte.x00)
     ++ chunk "STRP" (le_bytes 2 0x8000 ++ le_bytes 2 0x8001 ++ le_bytes 2 2
                      ++ le_bytes 2 3 ++ le_bytes 2 4)).

Definition unit_box : vec3 SymbolicFloat.t * vec3 SymbolicFloat.t :=
  (mkVec3 (SymbolicFloat.OfInt (-1)) (SymbolicFloat.OfInt (-1))
          (SymbolicFloat.OfInt (-1)),
   mkVec3 (SymbolicFloat.OfInt 1) (SymbolicFloat.OfInt 1) (SymbolicFloat.OfInt 1)).

Definition ps2_scenario_info : Model_info (FM := SymbolicFloat.model) :=
  mkModel_info unit_box unit_box 2.

(** A computation that never reports the exhaustion of a loop's fuel, and
    one that leaves the reader of a body's state alone. *)
Definition fuel_free {S A : Type} (m : M S A) : Prop :=
  forall s : S, fst (m s) <> Throw LoopFuelExhausted.

Definition keeps_reader {R O A : Type} (m : M (R * O) A) : Prop :=
  forall (s s' : R * O) (res : outcome A), m s = (res, s') -> fst s' = fst s.

(** * Vocabulary of the further properties *)

(** [count] successive unaligned reads of one element. *)
Fixpoint read_each {T : Type} (ty : Trivial T) (n : nat) : M Ucfb_reader (list T) :=
  match n with
  | O => ret []
  | S n' =>
      let* value := read_trivial_unaligned ty in
      let* values := read_each ty n' in
      ret (value :: values)
  end.

(** Every state a computation can leave behind, whatever its outcome, is
    related to the state it started from. *)
Definition related {S A : Type} (P : S -> S -> Prop) (m : M S A) : Prop :=
  forall s : S, P s (snd (m s)).

(** The relation [Q] on the object a body holds by reference, as a relation
    on the body's state. *)
Definition on_object {R O : Type} (Q : O -> O -> Prop) : R * O -> R * O -> Prop :=
  fun s s' => Q (snd s) (snd s').

(** Every render flag of [before] is a render flag of [after]. *)
Definition render_flags_subset (before after : msh.Render_flags.t) : Prop :=
  (msh.Render_flags.has_hardedged before = true ->
   msh.Render_flags.has_hardedged after = true)
  /\ (msh.Render_flags.has_transparent before = true ->
      msh.Render_flags.has_transparent after = true)
  /\ (msh.Render_flags.has_glow before = true ->
      msh.Render_flags.has_glow after = true)
  /\ (msh.Render_flags.has_additive before = true ->
      msh.Render_flags.has_additive after = true)
  /\ (msh.Render_flags.has_specular before = true ->
      msh.Render_flags.has_specular after = true)
  /\ (msh.Render_flags.has_doublesided before = true ->
      msh.Render_flags.has_doublesided after = true).

Section MaterialFrame.
Context {FM : FloatModel}.

(** What decoding a [MTRL] chunk leaves alone in the material. *)
Definition material_frame (before after : msh.Material.t) : Prop :=
msh.Material.name after = msh.Material.name before
/\ msh.Material.textures after = msh.Material.textures before
/\ render_flags_subset (msh.Material.flags before) (msh.Material.flags after).

(** What the dialect-1 decoder leaves alone: it assigns to the render
  flags, the dialect-1 render type, the specular value and colour and the
  two parameters only. *)
Definition swbf1_frame (before after : msh.Material.t) : Prop :=
material_frame before after
/\ msh.Material.diffuse_colour after = msh.Material.diffuse_colour before
/\ msh.Material.type after = msh.Material.type before
/\ msh.Material.vertex_lighting after = msh.Material.vertex_lighting before
/\ msh.Material.attached_light after = msh.Material.attached_light before.

(** What the dialect-2 decoder leaves alone. *)
Definition dialect2_frame (before after : msh.Material.t) : Prop :=
material_frame before after
/\ msh.Material.type_swbf1 after = msh.Material.type_swbf1 before.
End MaterialFrame.

(** A vertex attribute that is absent or has one entry for every vertex. *)
Definition absent_or_sized {A : Type} (n : nat) (l : list A) : Prop :=
  l = [] \/ length l = n.

Section SegmentVocabulary.
Context {FM : FloatModel}.

(** What holds of the model a PS2 segment is decoded into, whatever
  children the segment has, when its [INFO] child announces
  [vertex_count] vertices and [index_count] indices. *)
Definition ps2_model_shape (lod : msh.Lod.t) (vertex_count index_count : Z)
  (model : msh.Model.t) : Prop :=
msh.Model.lod model = lod
/\ msh.Model.name model = msh.Material.name (msh.Model.material model)
/\ length (msh.Material.textures (msh.Model.material model)) = 4%nat
/\ Forall (fun strip => length strip = Z.to_nat index_count)
     (msh.Model.strips model)
/\ absent_or_sized (Z.to_nat vertex_count) (msh.Model.positions model)
/\ absent_or_sized (Z.to_nat vertex_count) (msh.Model.normals model)
/\ absent_or_sized (Z.to_nat vertex_count) (msh.Model.texture_coords model)
/\ absent_or_sized (Z.to_nat vertex_count) (msh.Model.colours model)
/\ absent_or_sized (Z.to_nat vertex_count) (msh.Model.skin model).

(** The shape, once it holds, holds from then on. *)
Definition shape_kept (lod : msh.Lod.t) (vertex_count index_count : Z)
  (before after : msh.Model.t) : Prop :=
ps2_model_shape lod vertex_count index_count before ->
ps2_model_shape lod vertex_count index_count after.
End SegmentVocabulary.

Section Swbf1Vocabulary.
Context {FM : FloatModel}.

(** The flag word at the start of a dialect-1 [MTRL] payload. *)
Definition swbf1_flags_at (material : Ucfb_reader) : Z :=
view_type_as uint32_t (bytes_at (_data material) 0 4).

(** The bytes the dialect-1 decoder reads: the flag word, and eight more
  for each of [specular], [detail] and [scroll]. *)
Definition swbf1_needed (flags : Z) : Z :=
4 + (if are_flags_set flags Material_flags_swbf1.specular then 8 else 0)
  + (if are_flags_set flags Material_flags_swbf1.detail then 8 else 0)
  + (if are_flags_set flags Material_flags_swbf1.scroll then 8 else 0).

(** The parameter [detail] and [scroll] make of the float stored at [pos]. *)
Definition swbf1_param_at (material : Ucfb_reader) (pos : Z) : Z :=
uint8_of_float
  (range_convert (view_type_as float_t (bytes_at (_data material) pos 4))
     (float_of_int (-1), float_of_int 1) (float_of_int (-128), float_of_int 127)).

(** The assignments of a [detail] or [scroll] block whose floats start at
  [pos], innermost first. *)
Definition swbf1_params_block (type : msh.Render_type_swbf1.t)
  (material : Ucfb_reader) (pos : Z) (out : msh.Material.t) : msh.Material.t :=
set_param 1 (swbf1_param_at material (pos + 4))
  (set_param 0 (swbf1_param_at material pos)
     (msh.Material.set_type_swbf1 type out)).

(** The assignments [read_material_swbf1] makes when every read succeeds,
  in program order (innermost first). *)
Definition decoded_material_swbf1 (material : Ucfb_reader) (out : msh.Material.t)
  : msh.Material.t :=
let flag f := are_flags_set (swbf1_flags_at material) f in
let detail_at := 4 + (if flag Material_flags_swbf1.specular then 8 else 0) in
let scroll_at := detail_at + (if flag Material_flags_swbf1.detail then 8 else 0) in
assign_if (flag Material_flags_swbf1.refraction)
  (msh.Material.set_type_swbf1 msh.Render_type_swbf1.refraction)
(assign_if (flag Material_flags_swbf1.camouflage)
  (msh.Material.set_type_swbf1 msh.Render_type_swbf1.camouflage)
(assign_if (flag Material_flags_swbf1.reflection)
  (msh.Material.set_type_swbf1 msh.Render_type_swbf1.reflection)
(assign_if (flag Material_flags_swbf1.scroll)
  (swbf1_params_block msh.Render_type_swbf1.scroll material scroll_at)
(assign_if (flag Material_flags_swbf1.detail)
  (swbf1_params_block msh.Render_type_swbf1.detail material detail_at)
(assign_if (flag Material_flags_swbf1.glow)
  (msh.Material.set_type_swbf1 msh.Render_type_swbf1.glow)
(assign_if (flag Material_flags_swbf1.additive)
  (set_render_flag msh.Render_flags.additive)
(assign_if (flag Material_flags_swbf1.specular)
  (fun out =>
     msh.Material.set_specular_colour
       (unpackUnorm4x8 (view_type_as uint32_t (bytes_at (_data material) 8 4)))
       (msh.Material.set_specular_value
          (float_of_int (view_type_as int32_t (bytes_at (_data material) 4 4)))
          (msh.Material.set_type_swbf1 msh.Render_type_swbf1.specular out)))
(assign_if (flag Material_flags_swbf1.transparent)
  (set_render_flag msh.Render_flags.transparent)
(assign_if (flag Material_flags_swbf1.hardedged)
  (set_render_flag msh.Render_flags.hardedged)
   out))))))))).
End Swbf1Vocabulary.

(** From [r] on, the object holds the well-formed [PROP] children that
    carry [properties], and ends with the last of them. *)
Inductive props_to_end : Ucfb_reader -> list (Z * list Byte.byte) -> Prop :=
| props_end (r : Ucfb_reader) :
    operator_bool r = false -> props_to_end r []
| props_next (r : Ucfb_reader) (read : Z * list Byte.byte)
    (properties : list (Z * list Byte.byte)) :
    operator_bool r = true -> child_fits r -> child_magic_at r = mn "PROP" ->
    property_of (child_at r) = Ok read ->
    props_to_end (after_child false r) properties ->
    props_to_end r (read :: properties).

(** The text of an object descriptor. *)
Definition bracketed (what : list Byte.byte) : list Byte.byte :=
  sv "[" ++ what ++ sv "]" ++ newline ++ newline.

Definition property_line (name value : list Byte.byte) : list Byte.byte :=
  name ++ sv " = " ++ [Byte.x22] ++ value ++ [Byte.x22] ++ newline.

Definition odf_text (lookup_fnv_hash : Z -> list Byte.byte)
    (type class_name : list Byte.byte) (properties : list (Z * list Byte.byte))
    : list Byte.byte :=
  bracketed type
  ++ property_line (sv "ClassLabel") class_name
  ++ match List.find (fun prop => fst prop =? 0x47c86b4a) properties with
     | Some geometry => property_line (sv "GeometryName") (snd geometry ++ sv ".msh")
     | None => []
     end
  ++ newline
  ++ bracketed (sv "Properties")
  ++ concat (map (fun prop => property_line (lookup_fnv_hash (fst prop)) (snd prop))
               properties).

(** An object: [BASE], [TYPE] and two [PROP] children, the second of which
    names the geometry. *)
Definition object_with_properties : Ucfb_reader :=
  reader_over "entc"
    (chunk "BASE" (sv "door" ++ [Byte.x00])
     ++ chunk "TYPE" (sv "my_door" ++ [Byte.x00])
     ++ chunk "PROP" (le_bytes 4 7 ++ sv "on" ++ [Byte.x00])
     ++ chunk "PROP" (le_bytes 4 0x47c86b4a ++ sv "geo" ++ [Byte.x00])).

(** The only exceptions a computation can raise are those of [allowed]. *)
Definition raises_only {S A : Type} (allowed : list Error) (m : M S A) : Prop :=
  forall (s : S) (e : Error), fst (m s) = Throw e -> In e allowed.

Section EnvelopeVocabulary.
Context {FM : FloatModel}.

(** The envelope of a model, read in order from [model]: [NAME], which
  gives the base name and the level of detail, [VRTX] when it is there,
  [NODE], and [INFO], which gives the model info; [rest] is the reader
  after them. *)
Definition model_envelope (model : Ucfb_reader) (name : list Byte.byte)
  (lod : msh.Lod.t) (model_info : Model_info) (rest : Ucfb_reader) : Prop :=
exists (name_chunk : Ucfb_reader_strict (mn "NAME")) (r1 : Ucfb_reader)
       (vrtx : option (Ucfb_reader_strict (mn "VRTX"))) (r2 : Ucfb_reader)
       (node : Ucfb_reader_strict (mn "NODE")) (r3 : Ucfb_reader)
       (info : Ucfb_reader_strict (mn "INFO")),
  read_child_strict (mn "NAME") false model = (Ok name_chunk, r1)
  /\ fst (read_model_name name_chunk) = Ok (name, lod)
  /\ read_child_strict_optional (mn "VRTX") false r1 = (Ok vrtx, r2)
  /\ read_child_strict (mn "NODE") false r2 = (Ok node, r3)
  /\ read_child_strict (mn "INFO") false r3 = (Ok info, rest)
  /\ fst (read_model_info info) = Ok model_info.

(** What a run of [handle_model_impl] for the base name [name] may do to
  the map of builders: the builders of the other names are as before. *)
Definition other_builders_kept (name : list Byte.byte)
  {Builder : Type} (before after : list Byte.byte -> Builder) : Prop :=
forall key : list Byte.byte, key <> name -> after key = before key.

(** What the loop over the children does to the builders, whatever the
  segment processor: only the models of [name] can change. *)
Definition entry_kept (name : list Byte.byte) (before after : Builders_map) : Prop :=
other_builders_kept name before after
/\ builder_bbox (after name) = builder_bbox (before name).

(** The model [process_segment_ps2] makes of [segment]: the segment starts
  with an [INFO] child of at least eight bytes, and the model has the shape
  of a PS2 model for the two counts this child starts with. *)
Definition ps2_model_of (lod : msh.Lod.t) (segment : Ucfb_reader)
  (model : msh.Model.t) : Prop :=
let info := child_at segment in
child_fits segment /\ child_magic_at segment = mn "INFO" /\ 8 <= size info
/\ ps2_model_shape lod
     (view_type_as uint32_t (bytes_at (_data info) 0 4))
     (view_type_as uint32_t (bytes_at (_data info) 4 4)) model.

(** The [segm] children met, in their order, when the children of a reader
  are read one after the other from the head of [from] to that of [stop]. *)
Inductive segments_between : Ucfb_reader -> Ucfb_reader -> list Ucfb_reader -> Prop :=
| segments_none (r : Ucfb_reader) : segments_between r r []
| segments_other (r stop : Ucfb_reader) (segments : list Ucfb_reader) :
    child_fits r -> child_magic_at r <> mn "segm" ->
    segments_between (after_child false r) stop segments ->
    segments_between r stop segments
| segments_segm (r stop : Ucfb_reader) (segments : list Ucfb_reader) :
    child_fits r -> child_magic_at r = mn "segm" ->
    segments_between (after_child false r) stop segments ->
    segments_between r stop (child_at r :: segments).

(** The builder of [name] was given one model for each [segm] child between
  [from] and [stop], in their order, after the models it had; each is of the
  level of detail [lod] and is the model of its segment. *)
Definition ps2_models_added (name : list Byte.byte) (lod : msh.Lod.t)
  (from stop : Ucfb_reader) (before after : Builders_map) : Prop :=
exists (segments : list Ucfb_reader) (added : list msh.Model.t),
  segments_between from stop segments
  /\ builder_models (after name) = builder_models (before name) ++ added
  /\ Forall2 (ps2_model_of lod) segments added.
End EnvelopeVocabulary.

(** ** Inputs of the examples *)

(** A PS2 model: [NAME], [NODE], an [INFO] of 68 bytes and the segment of
    the scenario. *)
Definition ps2_scenario_model : Ucfb_reader :=
  reader_over "modl"
    (chunk "NAME" (sv "CrateLOD1" ++ [Byte.x00])
     ++ chunk "NODE" []
     ++ chunk "INFO" (replicate 68 Byte.x00)
     ++ chunk "segm" (_data ps2_scenario_segment)).

(** The sum and the absolute value for the examples: the sum as
    [a - (0 - b)], and the absolute value of the differences of the example,
    which are not negative. *)
Definition example_fadd (a b : SymbolicFloat.t) : SymbolicFloat.t :=
  SymbolicFloat.Sub a (SymbolicFloat.Sub (SymbolicFloat.OfInt 0) b).

Definition example_fabs (a : SymbolicFloat.t) : SymbolicFloat.t := a.

(** ** Render types of the first dialect *)

(** What the name [Bump] makes of a render type. *)
Definition bumped (type : msh.Render_type_swbf1.t) : msh.Render_type_swbf1.t :=
  match type with
  | msh.Render_type_swbf1.specular => msh.Render_type_swbf1.bumpmap_specular
  | _ => msh.Render_type_swbf1.bumpmap
  end.

(** The render type the flag word of a dialect-1 [MTRL] decides, and
    [otherwise] when it has none of the flags of a render type. *)
Definition swbf1_type_of_flags (flags : Z) (otherwise : msh.Render_type_swbf1.t)
    : msh.Render_type_swbf1.t :=
  let flag f := are_flags_set flags f in
  if flag Material_flags_swbf1.refraction then msh.Render_type_swbf1.refraction
  else if flag Material_flags_swbf1.camouflage then msh.Render_type_swbf1.camouflage
  else if flag Material_flags_swbf1.reflection then msh.Render_type_swbf1.reflection
  else if flag Material_flags_swbf1.scroll then msh.Render_type_swbf1.scroll
  else if flag Material_flags_swbf1.detail then msh.Render_type_swbf1.detail
  else if flag Material_flags_swbf1.glow then msh.Render_type_swbf1.glow
  else if flag Material_flags_swbf1.specular then msh.Render_type_swbf1.specular
  else otherwise.
(** * Properties *)

(** ** The reader *)

Ltac unfold_wrap :=
  unfold wrap_size_t, size_t_modulus in *;
  change (2 ^ 64) with 18446744073709551616 in *;
  change (2 ^ 63) with 9223372036854775808 in *;
  change (2 ^ 62) with 4611686018427387904 in *;
  change (2 ^ 32) with 4294967296 in *.

Lemma ceil4_bounds (e : Z) : e <= ceil4 e < e + 4 /\ ceil4 e mod 4 = 0.
Proof.
  unfold ceil4. split.
  - pose proof (Z.div_mod (e + 3) 4 ltac:(lia)) as H.
    pose proof (Z.mod_pos_bound (e + 3) 4 ltac:(lia)). lia.
  - apply Z.mod_mul. lia.
Qed.

Lemma ceil4_le_multiple (e n : Z) : e <= n -> n mod 4 = 0 -> ceil4 e <= n.
Proof.
  intros He Hn. unfold ceil4. Z.div_mod_to_equations. lia.
Qed.

Lemma ceil4_aligned (e : Z) : e mod 4 = 0 -> ceil4 e = e.
Proof.
  intros H. pose proof (ceil4_bounds e) as [Hb Hm].
  pose proof (Z.div_mod e 4 ltac:(lia)). pose proof (Z.div_mod (ceil4 e) 4 ltac:(lia)).
  lia.
Qed.

Lemma set_head_same (r : Ucfb_reader) : set_head (_head r) r = r.
Proof. by destruct r. Qed.

Lemma set_head_set_head (h h' : Z) (r : Ucfb_reader) :
  set_head h (set_head h' r) = set_head h r.
Proof. done. Qed.

Lemma align_head_ceil4 (r : Ucfb_reader) :
  0 <= _head r < 2 ^ 64 - 3 ->
  align_head r = (Ok tt, set_head (ceil4 (_head r)) r).
Proof.
  intros Hh. unfold align_head.
  pose proof (ceil4_bounds (_head r)) as [Hb Hm].
  pose proof (Z.mod_pos_bound (_head r) 4 ltac:(lia)) as Hr.
  destruct (Z.eqb_spec (_head r mod 4) 0) as [E|E]; simpl.
  - rewrite ceil4_aligned by done. by rewrite set_head_same.
  - f_equal. f_equal.
    assert (ceil4 (_head r) = _head r + (4 - _head r mod 4)) as ->.
    { pose proof (Z.div_mod (_head r) 4 ltac:(lia)).
      pose proof (Z.div_mod (ceil4 (_head r)) 4 ltac:(lia)). lia. }
    unfold_wrap. rewrite Z.mod_small; lia.
Qed.

(** The tail of a read, as the source writes it. *)
Lemma read_tail (e : Z) (unaligned : bool) (r : Ucfb_reader) :
  0 <= e < 2 ^ 64 - 3 ->
  (modify (set_head (wrap_size_t e)) ;;; check_head ;;;
   when (negb unaligned) align_head) r
  = advance_to e unaligned r.
Proof.
  intros He. unfold bind, modify, check_head, advance_to, when. simpl.
  assert (wrap_size_t e = e) as -> by (unfold_wrap; rewrite Z.mod_small; lia).
  destruct (_size r <? e); [done|].
  destruct unaligned; simpl; [done|].
  rewrite align_head_ceil4 by (simpl; unfold_wrap; lia). done.
Qed.

Lemma read_tail_ret {A : Type} (e : Z) (unaligned : bool) (v : A) (r : Ucfb_reader) :
  0 <= e < 2 ^ 64 - 3 ->
  (modify (set_head (wrap_size_t e)) ;;; check_head ;;;
   when (negb unaligned) align_head ;;; ret v) r
  = match advance_to e unaligned r with
    | (Ok _, r') => (Ok v, r')
    | (Throw err, r') => (Throw err, r')
    end.
Proof.
  intros He. rewrite <- (read_tail e unaligned r He).
  unfold bind, modify, check_head, when, ret. simpl.
  destruct (_size r <? wrap_size_t e); [done|].
  destruct unaligned; simpl; [done|].
  unfold align_head. simpl. by destruct (negb _).
Qed.

Lemma advance_to_post (e : Z) (unaligned : bool) (r r' : Ucfb_reader) :
  advance_to e unaligned r = (Ok tt, r') -> read_post unaligned r e r'.
Proof.
  unfold advance_to, read_post.
  destruct (Z.ltb_spec (_size r) e); [done|].
  intros [= <-]. pose proof (ceil4_bounds e) as [Hb Hm].
  split; [done|]. split; [done|]. simpl.
  destruct unaligned.
  - repeat split; try lia; done.
  - repeat split; try lia.
    intros [?|Hs]; [done|]. by apply ceil4_le_multiple.
Qed.

Lemma read_trivial_advance {T : Type} (ty : Trivial T) (unaligned : bool)
    (r : Ucfb_reader) :
  reader_ok r -> 0 <= sizeof ty < 2 ^ 32 ->
  read_trivial ty unaligned r
  = match advance_to (_head r + sizeof ty) unaligned r with
    | (Ok _, r') => (Ok (view_type_as ty (bytes_at (_data r) (_head r) (sizeof ty))), r')
    | (Throw err, r') => (Throw err, r')
    end.
Proof.
  intros (Hh & Hs & Hd) Hty. unfold read_trivial.
  apply read_tail_ret. unfold_wrap. lia.
Qed.

Lemma read_array_advance {T : Type} (ty : Trivial T) (count : Z) (unaligned : bool)
    (r : Ucfb_reader) :
  reader_ok r -> 0 <= sizeof ty * count < 2 ^ 63 ->
  read_array ty count unaligned r
  = match advance_to (_head r + sizeof ty * count) unaligned r with
    | (Ok _, r') =>
        (Ok (view_elements ty (Z.to_nat count) (drop (Z.to_nat (_head r)) (_data r))), r')
    | (Throw err, r') => (Throw err, r')
    end.
Proof.
  intros (Hh & Hs & Hd) Hty. unfold read_array.
  assert (wrap_size_t (sizeof ty * count) = sizeof ty * count) as ->
    by (unfold_wrap; rewrite Z.mod_small; lia).
  apply read_tail_ret. unfold_wrap. lia.
Qed.

Lemma consume_advance (amount : Z) (unaligned : bool) (r : Ucfb_reader) :
  reader_ok r -> 0 <= amount < 2 ^ 63 ->
  consume amount unaligned r = advance_to (_head r + amount) unaligned r.
Proof.
  intros (Hh & Hs & Hd) Ha. unfold consume. apply read_tail. unfold_wrap. lia.
Qed.

(** What [cstring_length] finds: a NUL at [len], inside the limit and inside
    the bytes, with no NUL before it. *)
Lemma cstring_length_Some (str : list Byte.byte) (max_length len : Z) :
  cstring_length str max_length = Some len ->
  0 <= len < max_length
  /\ (Z.to_nat len < length str)%nat
  /\ str !! Z.to_nat len = Some Byte.x00
  /\ Forall (fun c => c <> Byte.x00) (take (Z.to_nat len) str).
Proof.
  revert max_length len. induction str as [|c rest IH]; intros m len; simpl; [done|].
  destruct (Z.leb_spec m 0); [done|].
  destruct (Z.eqb_spec (byte_val c) 0) as [E|E].
  - intros [= <-]. simpl. repeat split; try lia.
    + f_equal. destruct c; try done; vm_compute in E; done.
    + constructor.
  - destruct (cstring_length rest (m - 1)) as [l|] eqn:Hl; [|done].
    simpl. intros [= <-]. destruct (IH _ _ Hl) as (Hr & Hlen & Hnul & Hall).
    replace (Z.to_nat (Z.succ l)) with (S (Z.to_nat l)) by lia. simpl.
    repeat split; try lia; [done|].
    constructor; [|done]. intros ->. by vm_compute in E.
Qed.

Lemma read_string_advance (unaligned : bool) (r : Ucfb_reader) :
  reader_ok r ->
  read_string unaligned r
  = match cstring_length (drop (Z.to_nat (_head r)) (_data r))
            (wrap_size_t (_size r - _head r)) with
    | None => (Throw UnterminatedString, r)
    | Some len =>
        match advance_to (_head r + len + 1) unaligned r with
        | (Ok _, r') =>
            (Ok (take (Z.to_nat len) (drop (Z.to_nat (_head r)) (_data r))), r')
        | (Throw err, r') => (Throw err, r')
        end
    end.
Proof.
  intros (Hh & Hs & Hd). unfold read_string.
  destruct (cstring_length _ _) as [len|] eqn:Hlen; [|done].
  apply cstring_length_Some in Hlen as (Hr & Hl & _).
  rewrite length_drop in Hl.
  replace (_head r + (len + 1) * 1) with (_head r + len + 1) by lia.
  apply read_tail_ret. unfold_wrap. lia.
Qed.

(** C1, as the claim is written, fails: an aligned one-byte read in a chunk
    of size 1 succeeds with its byte ending at offset 1, and leaves the head
    at 4.  The head is not clamped to the size, and it is outside
    [[0, size]]. *)
Lemma aligned_read_overshoots_size :
  exists v r',
    read_trivial uint8_t false (reader_over "NAME" (sv "a")) = (Ok v, r')
    /\ _size r' = 1
    /\ _head r' = 4
    /\ _head r' <> Z.min (ceil4 (0 + sizeof uint8_t)) (_size r')
    /\ ~ (0 <= _head r' <= _size r').
Proof.
  eexists _, _. split; [vm_compute; reflexivity|]. simpl.
  repeat split; [vm_compute; congruence | lia].
Qed.

(** C1, amended: every successful read ([read_trivial], [read_array],
    [read_string], [consume]) whose bytes end at offset [e] had [e <= size];
    an unaligned read leaves the head at [e], an aligned read leaves it at
    [ceil4 e], unclamped: a multiple of four in [[e, e + 3]], which is
    within the size whenever the size is a multiple of four. *)
Theorem read_head_after_success (r : Ucfb_reader) (unaligned : bool) :
  reader_ok r ->
  (forall (T : Type) (ty : Trivial T) (v : T) (r' : Ucfb_reader),
      0 <= sizeof ty < 2 ^ 32 ->
      read_trivial ty unaligned r = (Ok v, r') ->
      read_post unaligned r (_head r + sizeof ty) r')
  /\ (forall (T : Type) (ty : Trivial T) (count : Z) (v : list T) (r' : Ucfb_reader),
      0 <= sizeof ty * count < 2 ^ 63 ->
      read_array ty count unaligned r = (Ok v, r') ->
      read_post unaligned r (_head r + sizeof ty * count) r')
  /\ (forall (v : list Byte.byte) (r' : Ucfb_reader),
      read_string unaligned r = (Ok v, r') ->
      read_post unaligned r (_head r + Z.of_nat (length v) + 1) r')
  /\ (forall (amount : Z) (r' : Ucfb_reader),
      0 <= amount < 2 ^ 63 ->
      consume amount unaligned r = (Ok tt, r') ->
      read_post unaligned r (_head r + amount) r').
Proof.
  intros Hok. split; [|split; [|split]].
  - intros T ty v r' Hty. rewrite read_trivial_advance by done.
    destruct (advance_to _ _ _) as [[[]|err] r1] eqn:Ha; [|done].
    intros [= _ <-]. by apply advance_to_post.
  - intros T ty count v r' Hty. rewrite read_array_advance by done.
    destruct (advance_to _ _ _) as [[[]|err] r1] eqn:Ha; [|done].
    intros [= _ <-]. by apply advance_to_post.
  - intros v r'. rewrite read_string_advance by done.
    destruct (cstring_length _ _) as [len|] eqn:Hlen; [|done].
    destruct (advance_to _ _ _) as [[[]|err] r1] eqn:Ha; [|done].
    intros [= <- <-].
    apply cstring_length_Some in Hlen as (Hr & Hl & _).
    rewrite length_take. rewrite Nat.min_l by lia. rewrite Z2Nat.id by lia.
    by apply advance_to_post.
  - intros amount r' Ha. rewrite consume_advance by done.
    apply advance_to_post.
Qed.

Lemma read_head_after_success_witness :
  reader_ok (reader_over "NAME" (sv "abcde"))
  /\ read_post false (reader_over "NAME" (sv "abcde"))
       (_head (reader_over "NAME" (sv "abcde")) + sizeof (array_t uint8_t 5))
       (set_head 8 (reader_over "NAME" (sv "abcde"))).
Proof.
  assert (reader_ok (reader_over "NAME" (sv "abcde"))) as Hok
    by (unfold reader_ok; simpl; lia).
  split; [exact Hok|].
  refine (proj1 (read_head_after_success _ false Hok) (list Z)
            (array_t uint8_t 5) [97; 98; 99; 100; 101] _ _ _).
  - simpl. lia.
  - reflexivity.
Defined.

(** ** Child chunks *)

Lemma byte_val_range (b : Byte.byte) : 0 <= byte_val b < 256.
Proof.
  unfold byte_val. pose proof (Byte.to_N_bounded b). lia.
Qed.

Lemma le_value_range (bs : list Byte.byte) :
  0 <= le_value bs < 256 ^ Z.of_nat (length bs).
Proof.
  induction bs as [|b rest IH]; simpl le_value; [simpl; lia|].
  pose proof (byte_val_range b).
  replace (Z.of_nat (length (b :: rest))) with (Z.succ (Z.of_nat (length rest)))
    by (simpl; lia).
  rewrite Z.pow_succ_r by lia. lia.
Qed.

Lemma uint32_range (data : list Byte.byte) (pos : Z) :
  0 <= view_type_as uint32_t (bytes_at data pos 4) < 2 ^ 32.
Proof.
  simpl. pose proof (le_value_range (bytes_at data pos 4)) as H.
  assert (length (bytes_at data pos 4) <= 4)%nat as Hl
    by (unfold bytes_at; rewrite length_take; lia).
  assert (256 ^ Z.of_nat (length (bytes_at data pos 4)) <= 256 ^ 4)
    by (apply Z.pow_le_mono_r; lia).
  change (256 ^ 4) with (2 ^ 32) in *. lia.
Qed.

Lemma reader_ok_set_head (h : Z) (r : Ucfb_reader) :
  reader_ok r -> 0 <= h < 2 ^ 62 -> reader_ok (set_head h r).
Proof. intros (Hh & Hs & Hd) Hr. repeat split; simpl; lia. Qed.

Lemma read_uint32_unaligned (r : Ucfb_reader) :
  reader_ok r ->
  read_trivial_unaligned uint32_t r
  = if _size r <? _head r + 4
    then (Throw BoundsViolation, set_head (_head r + 4) r)
    else (Ok (view_type_as uint32_t (bytes_at (_data r) (_head r) 4)),
          set_head (_head r + 4) r).
Proof.
  intros Hok. unfold read_trivial_unaligned.
  rewrite read_trivial_advance by (done || (simpl; lia)).
  unfold advance_to. simpl sizeof. by destruct (_size r <? _head r + 4).
Qed.

Lemma read_child_fits (unaligned : bool) (r : Ucfb_reader) :
  reader_ok r -> child_fits r ->
  read_child unaligned r = (Ok (child_at r), after_child unaligned r).
Proof.
  intros Hok Hfit. pose proof Hok as (Hh & Hs & Hd).
  unfold child_fits, child_end in Hfit.
  pose proof (uint32_range (_data r) (_head r + 4)) as Hsz.
  fold (child_size_at r) in Hsz.
  unfold read_child, bind, get.
  rewrite read_uint32_unaligned by done.
  destruct (Z.ltb_spec (_size r) (_head r + 4)); [lia|].
  assert (reader_ok (set_head (_head r + 4) r)) as Hok1
    by (apply reader_ok_set_head; [done | unfold_wrap; lia]).
  rewrite read_uint32_unaligned by done. simpl _head. simpl _size.
  destruct (Z.ltb_spec (_size r) (_head r + 4 + 4)); [lia|].
  simpl _data. fold (child_size_at r). fold (child_magic_at r).
  rewrite consume_advance
    by (try (apply reader_ok_set_head; [done | unfold_wrap; lia]); unfold_wrap; lia).
  unfold advance_to. simpl _head. simpl _size.
  destruct (Z.ltb_spec (_size r) (_head r + 4 + 4 + child_size_at r)); [lia|].
  unfold ret, child_at, after_child, child_end. simpl.
  by replace (_head r + 4 + 4) with (_head r + 8) by lia.
Qed.

Lemma read_child_overflows (unaligned : bool) (r : Ucfb_reader) :
  reader_ok r -> ~ child_fits r ->
  exists h, read_child unaligned r = (Throw BoundsViolation, set_head h r).
Proof.
  intros Hok Hfit. pose proof Hok as (Hh & Hs & Hd).
  unfold child_fits, child_end in Hfit.
  pose proof (uint32_range (_data r) (_head r + 4)) as Hsz.
  fold (child_size_at r) in Hsz.
  unfold read_child, bind, get.
  rewrite read_uint32_unaligned by done.
  destruct (Z.ltb_spec (_size r) (_head r + 4)); [by eexists|].
  assert (reader_ok (set_head (_head r + 4) r)) as Hok1
    by (apply reader_ok_set_head; [done | unfold_wrap; lia]).
  rewrite read_uint32_unaligned by done. simpl _head. simpl _size.
  destruct (Z.ltb_spec (_size r) (_head r + 4 + 4)); [by eexists|].
  simpl _data. fold (child_size_at r).
  rewrite consume_advance
    by (try (apply reader_ok_set_head; [done | unfold_wrap; lia]); unfold_wrap; lia).
  unfold advance_to. simpl _head. simpl _size.
  destruct (Z.ltb_spec (_size r) (_head r + 4 + 4 + child_size_at r)); [|lia].
  by eexists.
Qed.

Lemma after_child_head (unaligned : bool) (r : Ucfb_reader) :
  child_end r <= _head (after_child unaligned r) < child_end r + 4.
Proof.
  unfold after_child. simpl. pose proof (ceil4_bounds (child_end r)).
  destruct unaligned; lia.
Qed.

Lemma set_head_after_child (unaligned : bool) (r : Ucfb_reader) :
  set_head (_head r) (after_child unaligned r) = r.
Proof. unfold after_child. rewrite set_head_set_head. apply set_head_same. Qed.

Lemma read_child_strict_found (type_mn : Magic_number) (unaligned : bool)
    (r : Ucfb_reader) :
  reader_ok r -> child_fits r -> child_magic_at r = type_mn ->
  read_child_strict type_mn unaligned r = (Ok (child_at r), after_child unaligned r).
Proof.
  intros Hok Hfit Hmn.
  unfold read_child_strict, bind, read_child_strict_mn.
  rewrite read_child_fits by done.
  unfold magic_number, child_at at 1. simpl _mn.
  rewrite Hmn, Z.eqb_refl. done.
Qed.

Lemma read_child_strict_mismatch (type_mn : Magic_number) (unaligned : bool)
    (r : Ucfb_reader) :
  reader_ok r -> child_fits r -> child_magic_at r <> type_mn ->
  read_child_strict type_mn unaligned r = (Throw UnexpectedMagic, r).
Proof.
  intros Hok Hfit Hmn.
  unfold read_child_strict, bind, read_child_strict_mn.
  rewrite read_child_fits by done.
  unfold magic_number, child_at at 1. simpl _mn.
  destruct (Z.eqb_spec (child_magic_at r) type_mn); [done|]. simpl.
  by rewrite set_head_after_child.
Qed.

Lemma read_child_strict_overflows (type_mn : Magic_number) (unaligned : bool)
    (r : Ucfb_reader) :
  reader_ok r -> ~ child_fits r ->
  read_child_strict type_mn unaligned r = (Throw BoundsViolation, r).
Proof.
  intros Hok Hfit.
  unfold read_child_strict, bind, read_child_strict_mn.
  destruct (read_child_overflows unaligned r Hok Hfit) as [h ->].
  by rewrite set_head_set_head, set_head_same.
Qed.

(** C6: a strict child read of tag [type_mn] is atomic in the head.  Either
    the chunk at the head lies inside the parent and has magic [type_mn]:
    then the read returns the strict reader of that child (magic [type_mn],
    the declared size, head 0) and the parent head is past the child's
    payload, on the next multiple of four for an aligned read.  Or the read
    throws and the parent is exactly as before: "unexpected magic" when the
    chunk is inside the parent with another magic, a bounds error when it is
    not inside the parent. *)
Theorem read_child_strict_atomic (type_mn : Magic_number) (unaligned : bool)
    (r : Ucfb_reader) :
  reader_ok r ->
  (child_fits r /\ child_magic_at r = type_mn
   /\ exists (child : Ucfb_reader_strict type_mn) (r' : Ucfb_reader),
        read_child_strict type_mn unaligned r = (Ok child, r')
        /\ magic_number child = type_mn
        /\ size child = child_size_at r
        /\ _head child = 0
        /\ _data child = drop (Z.to_nat (_head r + 8)) (_data r)
        /\ r' = set_head (if unaligned then child_end r else ceil4 (child_end r)) r
        /\ _head r + 8 + size child <= _head r' < _head r + 8 + size child + 4)
  \/ (exists e : Error,
        read_child_strict type_mn unaligned r = (Throw e, r)
        /\ ((e = UnexpectedMagic /\ child_fits r /\ child_magic_at r <> type_mn)
            \/ (e = BoundsViolation /\ ~ child_fits r))).
Proof.
  intros Hok.
  destruct (Z.le_gt_cases (child_end r) (_size r)) as [Hfit|Hfit].
  - destruct (Z.eq_dec (child_magic_at r) type_mn) as [Hmn|Hmn].
    + left. split; [done|]. split; [done|].
      exists (child_at r), (after_child unaligned r).
      split; [by apply read_child_strict_found|].
      pose proof (after_child_head unaligned r) as Hhead.
      unfold size, magic_number, child_at, after_child, child_end in *.
      simpl in *. repeat split; try done; lia.
    + right. exists UnexpectedMagic.
      split; [by apply read_child_strict_mismatch|]. by left.
  - right. exists BoundsViolation.
    assert (~ child_fits r) by (unfold child_fits; lia).
    split; [by apply read_child_strict_overflows|]. by right.
Qed.

Lemma read_child_strict_atomic_witness :
  reader_ok (reader_over "segm" (chunk "INFO" (bytes_of [3; 0; 0; 0; 5])))
  /\ exists child r',
       read_child_strict (mn "INFO") false
         (reader_over "segm" (chunk "INFO" (bytes_of [3; 0; 0; 0; 5])))
       = (Ok child, r')
       /\ magic_number child = mn "INFO" /\ size child = 5 /\ _head r' = 16.
Proof.
  assert (reader_ok (reader_over "segm" (chunk "INFO" (bytes_of [3; 0; 0; 0; 5]))))
    as Hok by (unfold reader_ok; simpl; lia).
  split; [exact Hok|].
  destruct (read_child_strict_atomic (mn "INFO") false _ Hok)
    as [(_ & _ & child & r' & Hread & Hmn & Hsize & _ & _ & Hr' & _)
       |(e & Hread & _)].
  - exists child, r'. split; [exact Hread|]. split; [exact Hmn|].
    split; [exact Hsize|]. rewrite Hr'. reflexivity.
  - exfalso. vm_compute in Hread. discriminate Hread.
Defined.

(** ** read_model_info *)

(** An aligned read that ends on a multiple of four inside the chunk. *)
Lemma read_trivial_aligned_ok {T : Type} (ty : Trivial T) (r : Ucfb_reader) :
  reader_ok r -> 0 <= sizeof ty < 2 ^ 32 ->
  (_head r + sizeof ty) mod 4 = 0 -> _head r + sizeof ty <= _size r ->
  read_trivial ty false r
  = (Ok (view_type_as ty (bytes_at (_data r) (_head r) (sizeof ty))),
     set_head (_head r + sizeof ty) r).
Proof.
  intros Hok Hty Hal Hin. rewrite read_trivial_advance by done.
  unfold advance_to. destruct (Z.ltb_spec (_size r) (_head r + sizeof ty)); [lia|].
  by rewrite ceil4_aligned.
Qed.

Lemma read_trivial_overflows {T : Type} (ty : Trivial T) (unaligned : bool)
    (r : Ucfb_reader) :
  reader_ok r -> 0 <= sizeof ty < 2 ^ 32 -> _size r < _head r + sizeof ty ->
  read_trivial ty unaligned r
  = (Throw BoundsViolation, set_head (_head r + sizeof ty) r).
Proof.
  intros Hok Hty Hout. rewrite read_trivial_advance by done.
  unfold advance_to. by destruct (Z.ltb_spec (_size r) (_head r + sizeof ty)); [|lia].
Qed.

Ltac read_aligned :=
  rewrite read_trivial_aligned_ok;
  [ simpl _head; simpl _size; simpl _data; simpl sizeof;
    rewrite ?set_head_set_head
  | apply reader_ok_set_head || idtac; (done || (unfold_wrap; simpl; lia))
  | simpl; unfold_wrap; lia
  | simpl; try done; lia
  | simpl; lia ].


Section ModelInfo.
Context {FM : FloatModel}.

Lemma read_model_info_sized (info : Ucfb_reader) (skipped : Z) (n : nat) :
  reader_ok info -> _head info = 0 ->
  skipped = sizeof (array_t int32_t n) -> _size info = skipped + 56 ->
  (n = 3 \/ n = 4)%nat ->
  (let* _ := read_trivial (array_t int32_t n) false in
   let* vertex_box := read_trivial Vec3_box_t false in
   let* vis_box := read_trivial Vec3_box_t false in
   let* _ := read_trivial int32_t false in
   let* face_count := read_trivial uint32_t false in
   ret (mkModel_info (fst vertex_box, snd vertex_box)
          (fst vis_box, snd vis_box) face_count)) info
  = (Ok (Model_info_at (_data info) skipped), set_head (_size info) info).
Proof.
  intros Hok Hh Hsk Hsz Hn. unfold bind.
  assert (0 <= skipped <= 16 /\ skipped mod 4 = 0) as [Hr Hm]
    by (destruct Hn; subst n; simpl in Hsk; subst skipped; done).
  assert (forall h, 0 <= h <= 100 -> reader_ok (set_head h info)) as Hoks
    by (intros; apply reader_ok_set_head; [done|unfold_wrap; lia]).
  assert (forall k, k mod 4 = 0 -> (skipped + k) mod 4 = 0) as Hal.
  { intros k Hk. rewrite Z.add_mod, Hm, Hk by lia. done. }
  rewrite read_trivial_aligned_ok; rewrite <- ?Hsk, ?Hh; simpl Z.add;
    [|done|unfold_wrap; lia|done|lia].
  rewrite read_trivial_aligned_ok; simpl _head; simpl _size; simpl sizeof;
    [|apply Hoks; lia|lia|by apply Hal|lia].
  rewrite set_head_set_head.
  rewrite read_trivial_aligned_ok; simpl _head; simpl _size; simpl sizeof;
    [|apply Hoks; lia|lia|rewrite <- Z.add_assoc; by apply Hal|lia].
  rewrite set_head_set_head.
  rewrite read_trivial_aligned_ok; simpl _head; simpl _size; simpl sizeof;
    [|apply Hoks; lia|lia|rewrite <- !Z.add_assoc; by apply Hal|lia].
  rewrite set_head_set_head.
  rewrite read_trivial_aligned_ok; simpl _head; simpl _size; simpl sizeof;
    [|apply Hoks; lia|lia|rewrite <- !Z.add_assoc; by apply Hal|lia].
  rewrite set_head_set_head. unfold ret, Model_info_at. simpl _data.
  rewrite <- !surjective_pairing.
  rewrite Hsz, !Z.add_0_l.
  replace (skipped + 24 + 24 + 4 + 4) with (skipped + 56) by lia.
  replace (skipped + 24 + 24 + 4) with (skipped + 52) by lia.
  done.
Qed.

(** C7: reading a model [INFO] chunk succeeds exactly when its size is 68
    or 72.  Size 72 skips four [i32] (16 bytes) and size 68 skips three
    (12 bytes); then come the vertex box and the visibility box (two
    [Vec3] each), one skipped [i32] and the face count, which ends the
    chunk.  Any other size throws the unknown model info error with the
    reader untouched: no field has been read. *)
Theorem read_model_info_sizes (info : Ucfb_reader_strict (mn "INFO")) :
  reader_ok info -> _head info = 0 ->
  (size info = 72 ->
     read_model_info info
     = (Ok (Model_info_at (_data info) 16), set_head 72 info))
  /\ (size info = 68 ->
     read_model_info info
     = (Ok (Model_info_at (_data info) 12), set_head 68 info))
  /\ (size info <> 68 -> size info <> 72 ->
     read_model_info info = (Throw UnknownModelInfo, info))
  /\ ((exists mi r', read_model_info info = (Ok mi, r'))
      <-> size info = 68 \/ size info = 72).
Proof.
  intros Hok Hh. unfold size.
  assert (_size info = 72 ->
          read_model_info info
          = (Ok (Model_info_at (_data info) 16), set_head 72 info)) as H72.
  { intros Hs. unfold read_model_info. unfold bind at 1. unfold get, size.
    rewrite Hs. simpl.
    rewrite (read_model_info_sized info 16 4); rewrite ?Hs; auto. }
  assert (_size info = 68 ->
          read_model_info info
          = (Ok (Model_info_at (_data info) 12), set_head 68 info)) as H68.
  { intros Hs. unfold read_model_info. unfold bind at 1. unfold get, size.
    rewrite Hs. simpl.
    rewrite (read_model_info_sized info 12 3); rewrite ?Hs; auto. }
  assert (_size info <> 68 -> _size info <> 72 ->
          read_model_info info = (Throw UnknownModelInfo, info)) as Hbad.
  { intros H1 H2. unfold read_model_info. unfold bind at 1. unfold get, size.
    destruct (Z.eqb_spec (_size info) 72); [done|].
    destruct (Z.eqb_spec (_size info) 68); [done|]. done. }
  repeat split; try done.
  - intros (mi & r' & Hread).
    destruct (Z.eq_dec (_size info) 68); [by left|].
    destruct (Z.eq_dec (_size info) 72); [by right|].
    by rewrite Hbad in Hread.
  - intros [Hs|Hs]; eauto.
Qed.
End ModelInfo.

Lemma read_model_info_sizes_witness :
  let info := reader_over "INFO" (replicate 72 Byte.x00) in
  reader_ok info /\ _head info = 0 /\ size info = 72
  /\ read_model_info (FM := SymbolicFloat.model) info
     = (Ok (Model_info_at (_data info) 16), set_head 72 info).
Proof.
  intros info.
  assert (reader_ok info) as Hok by (unfold reader_ok; simpl; lia).
  split; [exact Hok|]. split; [reflexivity|]. split; [reflexivity|].
  exact (proj1 (read_model_info_sizes info Hok eq_refl) eq_refl).
Defined.

(** ** PS2 vertex strips *)

Lemma land_marker (index : Z) :
  Z.land index 0x8000 = 0 \/ Z.land index 0x8000 = 0x8000.
Proof.
  destruct (Z.testbit index 15) eqn:E; [right|left];
    apply Z.bits_inj'; intros n Hn; rewrite Z.land_spec;
    change 0x8000 with (2 ^ 15); rewrite Z.pow2_bits_eqb by lia;
    destruct (Z.eqb_spec 15 n) as [<-|Hne];
    rewrite ?E, ?andb_false_r, ?Z.bits_0; try done.
Qed.

Lemma clear_marker (index : Z) :
  0 <= index < 65536 ->
  wrap_u16 (Z.land index (Z.lnot 0x8000)) = Z.land index 0x7FFF.
Proof.
  intros Hi.
  assert (index = Z.land index 65535) as Hlow.
  { change 65535 with (Z.ones 16). rewrite Z.land_ones by lia.
    rewrite Z.mod_small; [done|]. change (2 ^ 16) with 65536. lia. }
  rewrite Hlow at 1. rewrite <- Z.land_assoc.
  change (Z.land 65535 (Z.lnot 0x8000)) with 0x7FFF.
  unfold wrap_u16. apply Z.mod_small.
  change 0x7FFF with (Z.ones 15). rewrite Z.land_ones by lia.
  pose proof (Z.mod_pos_bound index (2 ^ 15) ltac:(lia)).
  change (2 ^ 15) with 32768 in *. change (2 ^ 16) with 65536. lia.
Qed.

Lemma span_at_lookup (indices : list Z) (pos : Z) :
  0 <= pos < Z.of_nat (length indices) ->
  exists index, indices !! Z.to_nat pos = Some index /\ span_at indices pos = Ok index.
Proof.
  intros Hp. unfold span_at.
  destruct (Z.leb_spec 0 pos); [|lia].
  destruct (Z.ltb_spec pos (Z.of_nat (length indices))); [|lia]. simpl.
  destruct (lookup_lt_is_Some_2 indices (Z.to_nat pos) ltac:(lia)) as [index Hi].
  exists index. by rewrite Hi.
Qed.

Lemma read_vertex_strip_ps2_loop_spec (fuel : nat) (indices strip : list Z) (pos : Z) :
  0 <= pos <= Z.of_nat (length indices) ->
  Z.of_nat (length indices) - pos < Z.of_nat fuel ->
  exists run,
    read_vertex_strip_ps2_loop fuel indices strip pos
    = (Ok (strip ++ run), pos + Z.of_nat (length run))
    /\ run = take (length run) (drop (Z.to_nat pos) indices)
    /\ Forall (fun index => Z.land index 0x8000 = 0) run
    /\ (pos + Z.of_nat (length run) = Z.of_nat (length indices)
        \/ exists next,
             indices !! Z.to_nat (pos + Z.of_nat (length run)) = Some next
             /\ Z.land next 0x8000 = 0x8000).
Proof.
  revert strip pos. induction fuel as [|fuel IH]; intros strip pos Hp Hf; [lia|].
  simpl. destruct (Z.ltb_spec pos (Z.of_nat (length indices))) as [Hlt|Hge].
  - destruct (span_at_lookup indices pos ltac:(lia)) as (index & Hi & ->).
    destruct (Z.eqb_spec (Z.land index 0x8000) 0x8000) as [Hm|Hm].
    + exists []. change (Z.of_nat (length (@nil Z))) with 0.
      rewrite app_nil_r. replace (pos + 0) with pos by lia. repeat split; try done.
      right. by exists index.
    + destruct (IH (strip ++ [index]) (pos + 1) ltac:(lia) ltac:(lia))
        as (run & Hrun & Htake & Hclear & Hend).
      exists (index :: run). rewrite Hrun, <- app_assoc. simpl length.
      replace (pos + 1 + Z.of_nat (length run))
        with (pos + Z.of_nat (S (length run))) in * by lia.
      repeat split; try done.
      * rewrite (drop_S _ _ _ Hi). simpl. f_equal.
        replace (S (Z.to_nat pos)) with (Z.to_nat (pos + 1)) by lia. done.
      * constructor; [|done]. destruct (land_marker index); [done|lia].
  - exists []. change (Z.of_nat (length (@nil Z))) with 0.
    rewrite app_nil_r. replace (pos + 0) with pos by lia.
    repeat split; try done. left. lia.
Qed.

(** C8: decoding one PS2 vertex strip at cursor [pos].  With fewer than two
    indices left it throws the invalid index buffer error and leaves the
    cursor alone.  Otherwise the strip is the two header indices with the
    [0x8000] bit cleared, followed by the longest run of indices after them
    whose [0x8000] bit is clear, verbatim; the cursor ends on the index after
    that run, which is the end of the buffer or an index with the [0x8000]
    bit set. *)
Theorem read_vertex_strip_ps2_spec (indices : list Z) (pos : Z) :
  Forall (fun index => 0 <= index < 65536) indices -> 0 <= pos ->
  (Z.of_nat (length indices) - pos < 2 ->
     read_vertex_strip_ps2 indices pos = (Throw InvalidIndexBuffer, pos))
  /\ (2 <= Z.of_nat (length indices) - pos ->
      exists first second run,
        indices !! Z.to_nat pos = Some first
        /\ indices !! Z.to_nat (pos + 1) = Some second
        /\ read_vertex_strip_ps2 indices pos
           = (Ok ([Z.land first 0x7FFF; Z.land second 0x7FFF] ++ run),
              pos + 2 + Z.of_nat (length run))
        /\ run = take (length run) (drop (Z.to_nat (pos + 2)) indices)
        /\ Forall (fun index => Z.land index 0x8000 = 0) run
        /\ (pos + 2 + Z.of_nat (length run) = Z.of_nat (length indices)
            \/ exists next,
                 indices !! Z.to_nat (pos + 2 + Z.of_nat (length run)) = Some next
                 /\ Z.land next 0x8000 = 0x8000)).
Proof.
  intros Hu16 Hpos. split.
  - intros Hshort. unfold read_vertex_strip_ps2, bind, get.
    by destruct (Z.leb_spec (Z.of_nat (length indices)) (pos + 1)); [|lia].
  - intros Hlong. unfold read_vertex_strip_ps2, bind, get.
    destruct (Z.leb_spec (Z.of_nat (length indices)) (pos + 1)); [lia|].
    destruct (span_at_lookup indices pos ltac:(lia)) as (first & H1 & E1).
    destruct (span_at_lookup indices (pos + 1) ltac:(lia)) as (second & H2 & E2).
    unfold lift_outcome. rewrite E1, E2. unfold put.
    destruct (read_vertex_strip_ps2_loop_spec (S (length indices)) indices
                (([] ++ [wrap_u16 (Z.land first (Z.lnot 0x8000))])
                    ++ [wrap_u16 (Z.land second (Z.lnot 0x8000))])
                (pos + 2) ltac:(lia) ltac:(lia))
      as (run & Hrun & Htake & Hclear & Hend).
    exists first, second, run.
    rewrite Hrun. simpl app.
    rewrite !clear_marker.
    + repeat split; done.
    + eapply Forall_lookup_1 in Hu16; [|exact H2]. done.
    + eapply Forall_lookup_1 in Hu16; [|exact H1]. done.
Qed.

Lemma read_vertex_strip_ps2_spec_witness :
  let indices := [0x8000; 0x8001; 2; 3; 4; 0x8005; 0x8006; 7] in
  Forall (fun index => 0 <= index < 65536) indices /\ 0 <= 0
  /\ 2 <= Z.of_nat (length indices) - 0
  /\ exists first second run,
       indices !! Z.to_nat 0 = Some first
       /\ indices !! Z.to_nat (0 + 1) = Some second
       /\ read_vertex_strip_ps2 indices 0
          = (Ok ([Z.land first 0x7FFF; Z.land second 0x7FFF] ++ run),
             0 + 2 + Z.of_nat (length run))
       /\ run = take (length run) (drop (Z.to_nat (0 + 2)) indices)
       /\ Forall (fun index => Z.land index 0x8000 = 0) run
       /\ (0 + 2 + Z.of_nat (length run) = Z.of_nat (length indices)
           \/ exists next,
                indices !! Z.to_nat (0 + 2 + Z.of_nat (length run)) = Some next
                /\ Z.land next 0x8000 = 0x8000).
Proof.
  intros indices.
  assert (Forall (fun index => 0 <= index < 65536) indices) as Hu16
    by (repeat constructor; lia).
  assert (2 <= Z.of_nat (length indices) - 0) as Hlong by (simpl; lia).
  split; [exact Hu16|]. split; [lia|]. split; [exact Hlong|].
  exact (proj2 (read_vertex_strip_ps2_spec indices 0 Hu16 ltac:(lia)) Hlong).
Defined.

(** ** Texture names *)

(** A string that ends inside the chunk is read, and the head passes its
    NUL. *)
Lemma read_string_found (unaligned : bool) (r : Ucfb_reader) (len : Z) :
  reader_ok r -> _head r <= _size r ->
  cstring_length (drop (Z.to_nat (_head r)) (_data r)) (_size r - _head r) = Some len ->
  read_string unaligned r
  = (Ok (take (Z.to_nat len) (drop (Z.to_nat (_head r)) (_data r))),
     set_head (if unaligned then _head r + len + 1 else ceil4 (_head r + len + 1)) r).
Proof.
  intros Hok Hin Hlen. pose proof Hok as (Hh & Hs & Hd).
  rewrite read_string_advance by done.
  assert (wrap_size_t (_size r - _head r) = _size r - _head r) as ->
    by (unfold_wrap; rewrite Z.mod_small; lia).
  rewrite Hlen. apply cstring_length_Some in Hlen as (Hr & _).
  unfold advance_to.
  by destruct (Z.ltb_spec (_size r) (_head r + len + 1)); [lia|].
Qed.

Section TextureName.
Context {FM : FloatModel}.

Lemma set_textures_same (material : msh.Material.t) :
  msh.Material.set_textures (msh.Material.textures material) material = material.
Proof. by destruct material. Qed.

(** C9: a [TNAM] child whose payload is a [u32] slot followed by a
    NUL-terminated name.  With [slot < 4] the name is written to
    [textures[slot]] and no other slot changes; with [slot >= 4] the call
    succeeds and the textures array is unchanged.  Seen from the material
    that holds the array, only [textures] can change, and with
    [slot >= 4] the material is unchanged. *)
Theorem read_texture_name_slot (texture_name : Ucfb_reader_strict (mn "TNAM"))
    (out : list (list Byte.byte)) (material : msh.Material.t) (len : Z) :
  reader_ok texture_name -> _head texture_name = 0 ->
  4 <= size texture_name ->
  cstring_length (drop 4 (_data texture_name)) (size texture_name - 4) = Some len ->
  length out = 4%nat -> length (msh.Material.textures material) = 4%nat ->
  let slot := view_type_as uint32_t (bytes_at (_data texture_name) 0 4) in
  let name := take (Z.to_nat len) (drop 4 (_data texture_name)) in
  (slot < 4 ->
     read_texture_name texture_name out = (Ok tt, <[Z.to_nat slot := name]> out)
     /\ <[Z.to_nat slot := name]> out !! Z.to_nat slot = Some name
     /\ (forall other : nat, other <> Z.to_nat slot ->
           <[Z.to_nat slot := name]> out !! other = out !! other)
     /\ on_textures (read_texture_name texture_name) material
        = (Ok tt, msh.Material.set_textures
                    (<[Z.to_nat slot := name]> (msh.Material.textures material))
                    material))
  /\ (4 <= slot ->
     read_texture_name texture_name out = (Ok tt, out)
     /\ on_textures (read_texture_name texture_name) material = (Ok tt, material)).
Proof.
  intros Hok Hh Hsz Hlen Hout Hmat slot name. unfold size in *.
  assert (forall textures : list (list Byte.byte),
            read_texture_name texture_name textures
            = (Ok tt, if slot <? Z.of_nat (length textures)
                      then <[Z.to_nat slot := name]> textures else textures))
    as Hread.
  { intros textures. unfold read_texture_name, noexcept, local, bind, rd, upd.
    simpl fst. simpl snd.
    pose proof (read_trivial_aligned_ok uint32_t texture_name Hok
                  ltac:(simpl; lia) ltac:(by rewrite Hh)
                  ltac:(rewrite Hh; simpl; lia)) as Hslot.
    rewrite Hh in Hslot. rewrite Hslot. change (0 + sizeof uint32_t) with 4.
    change (sizeof uint32_t) with 4.
    cbv beta iota zeta. cbn [fst snd].
    assert (reader_ok (set_head 4 texture_name)) as Hok4
      by (apply reader_ok_set_head; [done|unfold_wrap; lia]).
    rewrite (read_string_found false _ len Hok4 ltac:(simpl; lia) Hlen).
    cbv beta iota zeta. cbn [fst snd]. done. }
  split.
  - intros Hslot. rewrite Hread.
    destruct (Z.ltb_spec slot (Z.of_nat (length out))); [|lia].
    pose proof (uint32_range (_data texture_name) 0) as Hr. fold slot in Hr.
    split; [done|]. split; [apply list_lookup_insert_eq; lia|].
    split; [intros other Hne; by apply list_lookup_insert_ne|].
    unfold on_textures. rewrite Hread.
    by destruct (Z.ltb_spec slot (Z.of_nat (length (msh.Material.textures material))));
      [|lia].
  - intros Hslot. rewrite Hread.
    destruct (Z.ltb_spec slot (Z.of_nat (length out))); [lia|].
    split; [done|]. unfold on_textures. rewrite Hread.
    destruct (Z.ltb_spec slot (Z.of_nat (length (msh.Material.textures material))));
      [lia|]. by rewrite set_textures_same.
Qed.
End TextureName.

Lemma read_texture_name_slot_witness :
  let texture_name :=
    reader_over "TNAM" (le_bytes 4 7 ++ sv "tex" ++ [Byte.x00]) in
  let out := replicate 4 (sv "old") in
  reader_ok texture_name /\ _head texture_name = 0 /\ 4 <= size texture_name
  /\ cstring_length (drop 4 (_data texture_name)) (size texture_name - 4) = Some 3
  /\ 4 <= view_type_as uint32_t (bytes_at (_data texture_name) 0 4)
  /\ read_texture_name texture_name out = (Ok tt, out)
  /\ on_textures (read_texture_name texture_name)
       (msh.Material.default (FM := SymbolicFloat.model))
     = (Ok tt, msh.Material.default).
Proof.
  intros texture_name out.
  assert (reader_ok texture_name) as Hok by (unfold reader_ok; simpl; lia).
  assert (4 <= size texture_name) as Hsz by (vm_compute; congruence).
  assert (cstring_length (drop 4 (_data texture_name)) (size texture_name - 4)
          = Some 3) as Hlen by reflexivity.
  assert (4 <= view_type_as uint32_t (bytes_at (_data texture_name) 0 4)) as Hslot
    by (vm_compute; congruence).
  split; [exact Hok|]. split; [reflexivity|]. split; [exact Hsz|].
  split; [exact Hlen|]. split; [exact Hslot|].
  exact (proj2 (read_texture_name_slot texture_name out msh.Material.default 3
                  Hok eq_refl Hsz Hlen eq_refl eq_refl) Hslot).
Defined.

(** ** Materials *)

Lemma bind_rd {R O A B : Type} (m : M R A) (k : A -> M (R * O) B)
    (s : R * O) (a : A) (r' : R) :
  m (fst s) = (Ok a, r') ->
  (let* x := rd m in k x) s = k a (r', snd s).
Proof. intros H. unfold bind, rd. by rewrite H. Qed.

Lemma bind_rd_throw {R O A B : Type} (m : M R A) (k : A -> M (R * O) B)
    (s : R * O) (e : Error) (r' : R) :
  m (fst s) = (Throw e, r') ->
  (let* x := rd m in k x) s = (Throw e, (r', snd s)).
Proof. intros H. unfold bind, rd. by rewrite H. Qed.

Lemma bind_upd {R O B : Type} (f : O -> O) (k : M (R * O) B) (s : R * O) :
  (upd f ;;; k) s = k (fst s, f (snd s)).
Proof. done. Qed.

Lemma bind_when_upd {R O B : Type} (b : bool) (f : O -> O) (k : M (R * O) B)
    (s : R * O) :
  (when b (upd f) ;;; k) s = k (fst s, assign_if b f (snd s)).
Proof. destruct b; [done|]. by destruct s. Qed.

Lemma when_upd {R O : Type} (b : bool) (f : O -> O) (s : R * O) :
  when b (upd f) s = (Ok tt, (fst s, assign_if b f (snd s))).
Proof. destruct b; [done|]. by destruct s. Qed.

(** A conditional assignment leaves alone what the assignment leaves
    alone. *)
Lemma proj_cond {A B : Type} (proj : A -> B) (b : bool) (f : A -> A) (o : A) :
  (forall o', proj (f o') = proj o') ->
  proj (assign_if b f o) = proj o.
Proof. intros H. by destruct b. Qed.

Section Materials.
Context {FM : FloatModel}.

Lemma read_material_dialect2 (material : Ucfb_reader_strict (mn "MTRL"))
    (out : msh.Material.t) (len : Z) :
  reader_ok material -> _head material = 0 -> 24 <= size material ->
  cstring_length (drop 24 (_data material)) (size material - 24) = Some len ->
  read_material material out
  = (Ok tt, decoded_material (info_at material)
              (take (Z.to_nat len) (drop 24 (_data material))) out).
Proof.
  intros Hok Hh Hsz Hlen. unfold size in *.
  unfold read_material. unfold size. change (sizeof Material_info_t) with 24.
  destruct (Z.ltb_spec (_size material) 24); [lia|].
  unfold local.
  pose proof (read_trivial_aligned_ok Material_info_t material Hok
                ltac:(simpl; lia) ltac:(by rewrite Hh)
                ltac:(rewrite Hh; simpl; lia)) as Hinfo.
  rewrite Hh in Hinfo. change (0 + sizeof Material_info_t) with 24 in Hinfo.
  change (sizeof Material_info_t) with 24 in Hinfo.
  fold (info_at material) in Hinfo.
  unfold decoded_material.
  generalize dependent (info_at material). intros info Hinfo.
  erewrite bind_rd; [|exact Hinfo].
  do 5 rewrite bind_upd. cbn [fst snd].
  assert (reader_ok (set_head 24 material)) as Hok24
    by (apply reader_ok_set_head; [done|unfold_wrap; lia]).
  erewrite bind_rd;
    [|exact (read_string_found true _ len Hok24 ltac:(simpl; lia) Hlen)].
  rewrite bind_upd. do 12 rewrite bind_when_upd. rewrite when_upd.
  cbn [fst snd]. done.
Qed.

Lemma read_material_swbf1_short (material : Ucfb_reader_strict (mn "MTRL"))
    (out : msh.Material.t) :
  reader_ok material -> _head material = 0 -> size material < 4 ->
  read_material_swbf1 material out = (Throw BoundsViolation, out).
Proof.
  intros Hok Hh Hsz. unfold size in *. unfold read_material_swbf1, local.
  erewrite bind_rd_throw; [done|]. cbn [fst].
  apply read_trivial_overflows; [done|simpl; lia|rewrite Hh; simpl; lia].
Qed.
End Materials.

Lemma cstring_length_nul (rest : list Byte.byte) (max_length : Z) :
  0 < max_length -> cstring_length (Byte.x00 :: rest) max_length = Some 0.
Proof. intros H. simpl. by destruct (Z.leb_spec max_length 0); [lia|]. Qed.

Section MaterialFlags.
Context {FM : FloatModel}.

Lemma flags_assign_if_set_render_flag (b : bool) (flag : msh.Render_flags.t)
    (out : msh.Material.t) :
  msh.Material.flags (assign_if b (set_render_flag flag) out)
  = if b then msh.set_flags (msh.Material.flags out) flag
    else msh.Material.flags out.
Proof. by destruct b. Qed.

Lemma read_material_unterminated (material : Ucfb_reader_strict (mn "MTRL"))
    (out : msh.Material.t) :
  reader_ok material -> _head material = 0 -> 24 <= size material ->
  cstring_length (drop 24 (_data material)) (size material - 24) = None ->
  fst (read_material material out) = Throw UnterminatedString.
Proof.
  intros Hok Hh Hsz Hlen. unfold size in *.
  unfold read_material. unfold size. change (sizeof Material_info_t) with 24.
  destruct (Z.ltb_spec (_size material) 24); [lia|].
  unfold local.
  pose proof (read_trivial_aligned_ok Material_info_t material Hok
                ltac:(simpl; lia) ltac:(by rewrite Hh)
                ltac:(rewrite Hh; simpl; lia)) as Hinfo.
  rewrite Hh in Hinfo. change (0 + sizeof Material_info_t) with 24 in Hinfo.
  change (sizeof Material_info_t) with 24 in Hinfo.
  erewrite bind_rd; [|exact Hinfo].
  do 5 rewrite bind_upd. cbn [fst snd].
  assert (reader_ok (set_head 24 material)) as Hok24
    by (apply reader_ok_set_head; [done|unfold_wrap; lia]).
  erewrite bind_rd_throw; [done|]. cbn [fst].
  unfold read_string_unaligned. rewrite read_string_advance by done.
  simpl _head. simpl _size. simpl _data.
  assert (wrap_size_t (_size material - 24) = _size material - 24) as ->
    by (destruct Hok as (? & ? & ?); unfold_wrap; rewrite Z.mod_small; lia).
  change (Z.to_nat 24) with 24%nat. by rewrite Hlen.
Qed.

(** The same failure with the material it leaves: the fields of the record
    are assigned before the string is read. *)
Lemma read_material_unterminated_record (material : Ucfb_reader_strict (mn "MTRL"))
    (out : msh.Material.t) :
  reader_ok material -> _head material = 0 -> 24 <= size material ->
  cstring_length (drop 24 (_data material)) (size material - 24) = None ->
  read_material material out
  = (Throw UnterminatedString, decoded_material_record (info_at material) out).
Proof.
  intros Hok Hh Hsz Hlen. unfold size in *.
  unfold read_material. unfold size. change (sizeof Material_info_t) with 24.
  destruct (Z.ltb_spec (_size material) 24); [lia|].
  unfold local.
  pose proof (read_trivial_aligned_ok Material_info_t material Hok
                ltac:(simpl; lia) ltac:(by rewrite Hh)
                ltac:(rewrite Hh; simpl; lia)) as Hinfo.
  rewrite Hh in Hinfo. change (0 + sizeof Material_info_t) with 24 in Hinfo.
  change (sizeof Material_info_t) with 24 in Hinfo.
  fold (info_at material) in Hinfo.
  unfold decoded_material_record.
  generalize dependent (info_at material). intros info Hinfo.
  erewrite bind_rd; [|exact Hinfo].
  do 5 rewrite bind_upd. cbn [fst snd].
  assert (reader_ok (set_head 24 material)) as Hok24
    by (apply reader_ok_set_head; [done|unfold_wrap; lia]).
  erewrite bind_rd_throw; [done|]. cbn [fst].
  unfold read_string_unaligned. rewrite read_string_advance by done.
  simpl _head. simpl _size. simpl _data.
  assert (wrap_size_t (_size material - 24) = _size material - 24) as ->
    by (destruct Hok as (? & ? & ?); unfold_wrap; rewrite Z.mod_small; lia).
  change (Z.to_nat 24) with 24%nat. by rewrite Hlen.
Qed.

(** A scan over no bytes finds no terminator. *)
Lemma cstring_length_no_room (str : list Byte.byte) :
  cstring_length str 0 = None.
Proof. by destruct str. Qed.

Lemma read_material_dialect2_inv (material : Ucfb_reader_strict (mn "MTRL"))
    (out out' : msh.Material.t) :
  reader_ok material -> _head material = 0 -> 24 <= size material ->
  read_material material out = (Ok tt, out') ->
  exists len,
    cstring_length (drop 24 (_data material)) (size material - 24) = Some len
    /\ out' = decoded_material (info_at material)
                (take (Z.to_nat len) (drop 24 (_data material))) out.
Proof.
  intros Hok Hh Hsz Hread.
  destruct (cstring_length (drop 24 (_data material)) (size material - 24))
    as [len|] eqn:Hlen.
  - exists len. split; [done|].
    rewrite (read_material_dialect2 material out len) in Hread by done.
    by injection Hread as <-.
  - pose proof (read_material_unterminated material out Hok Hh Hsz Hlen) as Hf.
    by rewrite Hread in Hf.
Qed.

Lemma decoded_material_flags (info : Material_info)
    (attached_light : list Byte.byte) (out : msh.Material.t) :
  let flag f := are_flags_set (mi_flags info) f in
  msh.Material.flags (decoded_material info attached_light out)
  = assign_if (flag Material_flags.doublesided)
      (fun fl => msh.set_flags fl msh.Render_flags.doublesided)
    (assign_if (flag Material_flags.specular)
      (fun fl => msh.set_flags fl msh.Render_flags.specular)
    (assign_if (flag Material_flags.additive)
      (fun fl => msh.set_flags fl msh.Render_flags.additive)
    (assign_if (flag Material_flags.glow)
      (fun fl => msh.set_flags fl msh.Render_flags.glow)
    (assign_if (flag Material_flags.transparent
                && negb (flag Material_flags.doublesided))
      (fun fl => msh.set_flags fl msh.Render_flags.transparent)
    (assign_if (flag Material_flags.hardedged)
      (fun fl => msh.set_flags fl msh.Render_flags.hardedged)
      (msh.Material.flags out)))))).
Proof.
  intros flag. unfold decoded_material. fold flag.
  repeat first
    [ rewrite (proj_cond msh.Material.flags) by reflexivity
    | rewrite flags_assign_if_set_render_flag ].
  unfold assign_if. done.
Qed.

(** C4: dialect-2 decoding of a flag word with the transparent bit (4)
    set.  The decoder turns the transparent render flag on exactly when the
    doublesided bit (65536) is clear: the material carries it afterwards
    iff it carried it before or the doublesided bit is clear, so a material
    that did not carry it carries it afterwards iff the doublesided bit is
    clear.  The doublesided render flag is on afterwards whenever the
    doublesided bit is set.  [flags] is the first [u32] of the payload. *)
Theorem read_material_transparent_doublesided
    (material : Ucfb_reader_strict (mn "MTRL")) (out out' : msh.Material.t) :
  reader_ok material -> _head material = 0 -> 24 <= size material ->
  read_material material out = (Ok tt, out') ->
  let flags := mi_flags (info_at material) in
  are_flags_set flags Material_flags.transparent = true ->
  msh.Render_flags.has_transparent (msh.Material.flags out')
  = msh.Render_flags.has_transparent (msh.Material.flags out)
    || negb (are_flags_set flags Material_flags.doublesided)
  /\ msh.Render_flags.has_doublesided (msh.Material.flags out')
     = msh.Render_flags.has_doublesided (msh.Material.flags out)
       || are_flags_set flags Material_flags.doublesided
  /\ (msh.Render_flags.has_transparent (msh.Material.flags out) = false ->
      (msh.Render_flags.has_transparent (msh.Material.flags out') = true
       <-> are_flags_set flags Material_flags.doublesided = false))
  /\ (are_flags_set flags Material_flags.doublesided = true ->
      msh.Render_flags.has_doublesided (msh.Material.flags out') = true).
Proof.
  intros Hok Hh Hsz Hread flags Htr.
  destruct (read_material_dialect2_inv material out out' Hok Hh Hsz Hread)
    as (len & _ & ->).
  rewrite decoded_material_flags. fold flags. rewrite Htr.
  destruct (msh.Material.flags out) as [h t g a s d].
  unfold assign_if.
  destruct (are_flags_set flags Material_flags.doublesided),
    (are_flags_set flags Material_flags.specular),
    (are_flags_set flags Material_flags.additive),
    (are_flags_set flags Material_flags.glow),
    (are_flags_set flags Material_flags.hardedged); simpl;
    rewrite ?orb_true_r, ?orb_false_r; repeat split; try done;
    try (by intros ->); try (intros ->; by intros []).
Qed.

Lemma size_25_terminated (material : Ucfb_reader) :
  size material = 25 -> _data material !! 24%nat = Some Byte.x00 ->
  cstring_length (drop 24 (_data material)) (size material - 24) = Some 0
  /\ take (Z.to_nat 0) (drop 24 (_data material)) = [].
Proof.
  intros Hs Hnul. rewrite (drop_S _ _ _ Hnul), Hs. split; [|done].
  by apply cstring_length_nul.
Qed.

(** C3, amended: [read_material] dispatches on the payload size.  Below
    24 bytes it is the dialect-1 decoder [read_material_swbf1]; that
    decoder starts by reading the [u32] flag word, so a payload of fewer
    than 4 bytes, size 0 included, throws a bounds error and leaves the
    material unchanged.  From 24 bytes on it is the dialect-2 decoder,
    whatever the payload holds: the 24-byte record is read and its colours,
    specular value and parameters are assigned, then the NUL-terminated
    string is read.  When the string is there the assignments of
    [decoded_material] follow; dialect-2 sets the colours, the specular
    value and [vertex_lighting] from the record and never touches
    [type_swbf1].  When there is no NUL after the record the call throws
    the unterminated string error with the record's fields assigned; a
    payload of exactly 24 bytes has no room for the NUL, so it always ends
    this way.  With exactly 24 bytes and a NUL, [attached_light] becomes
    the empty string when the attached-light bit is set and is left as it
    was otherwise, so it stays empty on a fresh material. *)
Theorem read_material_dispatch (material : Ucfb_reader_strict (mn "MTRL"))
    (out : msh.Material.t) :
  reader_ok material -> _head material = 0 ->
  (size material < 24 ->
     read_material material out = read_material_swbf1 material out)
  /\ (size material < 4 ->
     read_material material out = (Throw BoundsViolation, out))
  /\ (24 <= size material ->
     forall len : Z,
       cstring_length (drop 24 (_data material)) (size material - 24) = Some len ->
       let info := info_at material in
       let light := take (Z.to_nat len) (drop 24 (_data material)) in
       exists out',
         read_material material out = (Ok tt, out')
         /\ out' = decoded_material info light out
         /\ msh.Material.diffuse_colour out'
            = unpackUnorm4x8 (mi_diffuse_colour info)
         /\ msh.Material.specular_colour out'
            = unpackUnorm4x8 (mi_specular_colour info)
         /\ msh.Material.specular_value out'
            = float_of_int (mi_specular_intensity info)
         /\ msh.Material.vertex_lighting out'
            = are_flags_set (mi_flags info) Material_flags.vertex_lighting
         /\ msh.Material.type_swbf1 out' = msh.Material.type_swbf1 out
         /\ msh.Material.attached_light out'
            = if are_flags_set (mi_flags info) Material_flags.attached_light
              then light else msh.Material.attached_light out)
  /\ (size material = 25 -> _data material !! 24%nat = Some Byte.x00 ->
     exists out',
       read_material material out = (Ok tt, out')
       /\ msh.Material.attached_light out'
          = (if are_flags_set (mi_flags (info_at material))
                  Material_flags.attached_light
             then [] else msh.Material.attached_light out)
       /\ (msh.Material.attached_light out = [] ->
           msh.Material.attached_light out' = []))
  /\ (24 <= size material ->
     cstring_length (drop 24 (_data material)) (size material - 24) = None ->
     read_material material out
     = (Throw UnterminatedString,
        decoded_material_record (info_at material) out))
  /\ (size material = 24 ->
     read_material material out
     = (Throw UnterminatedString,
        decoded_material_record (info_at material) out)).
Proof.
  intros Hok Hh.
  assert (forall info light,
            msh.Material.attached_light (decoded_material info light out)
            = if are_flags_set (mi_flags info) Material_flags.attached_light
              then light else msh.Material.attached_light out) as Hlight.
  { intros info light. unfold decoded_material.
    unfold assign_if at 1.
    destruct (are_flags_set (mi_flags info) Material_flags.attached_light);
      [done|].
    by rewrite !(proj_cond msh.Material.attached_light) by reflexivity. }
  split; [|split; [|split; [|split; [|split]]]].
  - intros Hs. unfold read_material. change (sizeof Material_info_t) with 24.
    by destruct (Z.ltb_spec (size material) 24); [|lia].
  - intros Hs. unfold read_material. change (sizeof Material_info_t) with 24.
    destruct (Z.ltb_spec (size material) 24); [|lia].
    by apply read_material_swbf1_short.
  - intros Hs len Hlen info light. eexists. split.
    { by apply read_material_dialect2. }
    fold info. fold light. split; [done|].
    split; [|split; [|split; [|split; [|split]]]];
      try (unfold decoded_material;
           by repeat first
             [ rewrite (proj_cond msh.Material.diffuse_colour) by reflexivity
             | rewrite (proj_cond msh.Material.specular_colour) by reflexivity
             | rewrite (proj_cond msh.Material.specular_value) by reflexivity
             | rewrite (proj_cond msh.Material.vertex_lighting) by reflexivity
             | rewrite (proj_cond msh.Material.type_swbf1) by reflexivity ]).
    apply Hlight.
  - intros Hs Hnul.
    destruct (size_25_terminated material Hs Hnul) as [Hlen Hempty].
    eexists. split.
    { apply (read_material_dialect2 material out 0); (done || lia). }
    rewrite Hempty, Hlight. split; [done|].
    intros ->. by destruct (are_flags_set _ _).
  - intros Hs Hlen. by apply read_material_unterminated_record.
  - intros Hs. apply read_material_unterminated_record; [done|done|lia|].
    rewrite Hs. apply cstring_length_no_room.
Qed.
End MaterialFlags.

(** C3, as the claim is written, fails: a [MTRL] of size 0 is not decoded as
    an empty dialect-1 material, the decoder throws. *)
Lemma read_material_size_0_throws :
  size (reader_over "MTRL" []) = 0
  /\ read_material (FM := SymbolicFloat.model) (reader_over "MTRL" [])
       msh.Material.default
     = (Throw BoundsViolation, msh.Material.default)
  /\ fst (read_material (FM := SymbolicFloat.model) (reader_over "MTRL" [])
            msh.Material.default) <> Ok tt.
Proof. split; [reflexivity|]. split; [reflexivity|]. discriminate. Qed.

Lemma read_material_dispatch_witness :
  let material := reader_over "MTRL" (replicate 24 Byte.x00 ++ [Byte.x00]) in
  reader_ok material /\ _head material = 0 /\ size material = 25
  /\ _data material !! 24%nat = Some Byte.x00
  /\ exists out',
       read_material (FM := SymbolicFloat.model) material msh.Material.default
       = (Ok tt, out')
       /\ msh.Material.attached_light out'
          = (if are_flags_set (mi_flags (info_at material))
                  Material_flags.attached_light
             then [] else msh.Material.attached_light msh.Material.default)
       /\ (msh.Material.attached_light
             (msh.Material.default (FM := SymbolicFloat.model)) = [] ->
           msh.Material.attached_light out' = []).
Proof.
  intros material.
  assert (reader_ok material) as Hok by (unfold reader_ok; simpl; lia).
  split; [exact Hok|]. split; [reflexivity|]. split; [reflexivity|].
  split; [reflexivity|].
  exact (proj1 (proj2 (proj2 (proj2
           (read_material_dispatch material msh.Material.default Hok eq_refl))))
           eq_refl eq_refl).
Defined.

Lemma read_material_transparent_doublesided_witness :
  let material :=
    reader_over "MTRL" (le_bytes 4 65540 ++ replicate 20 Byte.x00 ++ [Byte.x00]) in
  let out := msh.Material.default (FM := SymbolicFloat.model) in
  exists out',
    reader_ok material /\ _head material = 0 /\ 24 <= size material
    /\ read_material material out = (Ok tt, out')
    /\ mi_flags (info_at material) = 65540
    /\ are_flags_set (mi_flags (info_at material)) Material_flags.transparent = true
    /\ msh.Render_flags.has_transparent (msh.Material.flags out') = false
    /\ msh.Render_flags.has_doublesided (msh.Material.flags out') = true.
Proof.
  intros material out.
  assert (reader_ok material) as Hok by (unfold reader_ok; simpl; lia).
  assert (24 <= size material) as Hsz by (vm_compute; congruence).
  destruct (read_material material out) as [res out'] eqn:Hread.
  assert (res = Ok tt) as -> by (vm_compute in Hread; congruence).
  exists out'.
  destruct (read_material_transparent_doublesided material out out'
              Hok eq_refl Hsz Hread eq_refl) as (Htr & Hds & _ & _).
  split; [exact Hok|]. split; [reflexivity|]. split; [exact Hsz|].
  split; [reflexivity|]. split; [reflexivity|]. split; [reflexivity|].
  split; [rewrite Htr; reflexivity | rewrite Hds; reflexivity].
Defined.

(** ** Model names *)

(** The name read from a [NAME] chunk, by its length: from four characters
    on, [read_model_name] follows the suffix rule; below four characters
    [length() - 4] wraps around in [std::size_t], the first [substr] is asked
    for a position past the end of the view and throws. *)
Lemma read_model_name_by_length (name_chunk : Ucfb_reader_strict (mn "NAME"))
    (len : Z) :
  reader_ok name_chunk -> _head name_chunk = 0 ->
  cstring_length (_data name_chunk) (size name_chunk) = Some len ->
  let name := take (Z.to_nat len) (_data name_chunk) in
  (4 <= len -> fst (read_model_name name_chunk) = Ok (lod_of_name name))
  /\ (len < 4 -> fst (read_model_name name_chunk) = Throw SubstrOutOfRange).
Proof.
  intros Hok Hh Hlen name. unfold size in *.
  pose proof Hok as (_ & Hs & Hd).
  pose proof (cstring_length_Some _ _ _ Hlen) as (Hr & Hl & _).
  assert (Z.of_nat (length name) = len) as Hname
    by (unfold name; rewrite length_take; lia).
  assert (read_string false name_chunk
          = (Ok name, set_head (ceil4 (len + 1)) name_chunk)) as Hread.
  { rewrite (read_string_found false name_chunk len); rewrite ?Hh; try done.
    - lia.
    - by rewrite Z.sub_0_r. }
  split; intros Hcase; unfold read_model_name; unfold bind at 1;
    rewrite Hread; unfold bind, lift_outcome, substr; cbv zeta;
    rewrite !Hname.
  - rename Hcase into Hlong.
    assert (forall z, 0 <= z < 2 ^ 63 -> wrap_size_t z = z) as Hsmall
      by (intros z Hz; unfold_wrap; rewrite Z.mod_small; lia).
    rewrite !Hsmall by (unfold_wrap; lia).
    destruct (Z.ltb_spec len (len - 4)); [lia|].
    destruct (Z.ltb_spec len 0); [lia|].
    replace (Z.to_nat (Z.min 4 (len - (len - 4)))) with 4%nat by lia.
    replace (Z.to_nat (Z.min (len - 4) (len - 0))) with (length name - 4)%nat by lia.
    replace (Z.to_nat (len - 4)) with (length name - 4)%nat by lia.
    change (Z.to_nat 0) with 0%nat. rewrite drop_0.
    rewrite (take_ge (drop _ _)) by (rewrite length_drop; lia).
    unfold lod_of_name.
    by repeat destruct (bool_decide _).
  - rename Hcase into Hshort.
    assert (len < wrap_size_t (len - 4)) as Hwrap.
    { unfold wrap_size_t, size_t_modulus.
      rewrite <- (Z.mod_unique (len - 4) (2 ^ 64) (-1) (2 ^ 64 + len - 4));
        unfold_wrap; lia. }
    destruct (Z.ltb_spec len (wrap_size_t (len - 4))); [reflexivity|lia].
Qed.

(** C5 fails on the code for names shorter than four characters: for the
    name [abc] the claim gives [(abc, zero)], the code throws
    [std::out_of_range] from [substr]. *)
Lemma read_model_name_short_name_throws :
  fst (read_model_name (reader_over "NAME" (sv "abc" ++ [Byte.x00])))
  = Throw SubstrOutOfRange.
Proof. reflexivity. Qed.

Example read_model_name_LOD1 :
  fst (read_model_name (reader_over "NAME" (sv "CrateLOD1" ++ [Byte.x00])))
  = Ok (sv "Crate", msh.Lod.one).
Proof. reflexivity. Qed.

Example read_model_name_other_suffix :
  fst (read_model_name (reader_over "NAME" (sv "CrateLOD3" ++ [Byte.x00])))
  = Ok (sv "CrateLOD3", msh.Lod.zero).
Proof. reflexivity. Qed.

(** ** The object descriptor emitter *)

Lemma read_child_strict_Ok_inv (type_mn : Magic_number) (unaligned : bool)
    (r r' : Ucfb_reader) (child : Ucfb_reader) :
  reader_ok r ->
  read_child_strict type_mn unaligned r = (Ok child, r') ->
  child_fits r /\ child_magic_at r = type_mn
  /\ child = child_at r /\ r' = after_child unaligned r.
Proof.
  intros Hok Hread.
  destruct (Z.le_gt_cases (child_end r) (_size r)) as [Hfit|Hfit].
  - destruct (Z.eq_dec (child_magic_at r) type_mn) as [Hmn|Hmn].
    + rewrite read_child_strict_found in Hread by done.
      by injection Hread as <- <-.
    + by rewrite read_child_strict_mismatch in Hread.
  - rewrite read_child_strict_overflows in Hread; [done..|].
    unfold child_fits. lia.
Qed.

Lemma reader_ok_after_child (unaligned : bool) (r : Ucfb_reader) :
  reader_ok r -> child_fits r -> reader_ok (after_child unaligned r).
Proof.
  intros Hok Hfit. pose proof Hok as (Hh & Hs & Hd).
  pose proof (after_child_head unaligned r) as Hhead.
  pose proof (uint32_range (_data r) (_head r + 4)) as Hsz.
  unfold child_fits, child_end in *. fold (child_size_at r) in Hsz.
  unfold after_child in *. apply reader_ok_set_head; [done|].
  simpl in Hhead. unfold_wrap. lia.
Qed.

Lemma bind_by_value {R S A B : Type} (r : R) (callee : M R A) (k : A -> M S B)
    (s : S) :
  (let* x := by_value r callee in k x) s
  = match fst (callee r) with
    | Ok a => k a s
    | Throw e => (Throw e, s)
    end.
Proof. unfold bind, by_value. by destruct (fst (callee r)). Qed.

Lemma bind_by_value_Ok {R S A B : Type} (r : R) (callee : M R A)
    (k : A -> M S B) (s : S) (a : A) :
  fst (callee r) = Ok a ->
  (let* x := by_value r callee in k x) s = k a s.
Proof. intros H. unfold bind, by_value. by rewrite H. Qed.

Lemma bind_by_value_Throw {R S A B : Type} (r : R) (callee : M R A)
    (k : A -> M S B) (s : S) (e : Error) :
  fst (callee r) = Throw e ->
  (let* x := by_value r callee in k x) s = (Throw e, s).
Proof. intros H. unfold bind, by_value. by rewrite H. Qed.

Lemma bind_out_ref {R O A B : Type} (m : M O A) (k : A -> M (R * O) B)
    (s : R * O) (a : A) (o' : O) :
  m (snd s) = (Ok a, o') ->
  (let* x := out_ref m in k x) s = k a (fst s, o').
Proof. intros H. unfold bind, out_ref. by rewrite H. Qed.

Lemma bind_get {S B : Type} (k : S -> M S B) (s : S) :
  (let* x := get in k x) s = k s s.
Proof. done. Qed.

Lemma get_properties_child_prop (r : Ucfb_reader) (acc : list (Z * list Byte.byte))
    (read : Z * list Byte.byte) :
  reader_ok r -> child_fits r -> child_magic_at r = mn "PROP" ->
  property_of (child_at r) = Ok read ->
  get_properties_child (r, acc) = (Ok tt, (after_child false r, acc ++ [read])).
Proof.
  intros Hok Hfit Hmn Hread. unfold get_properties_child.
  erewrite bind_rd; [|by apply read_child_strict_found].
  cbv beta. rewrite bind_by_value. cbn [fst snd].
  match goal with
  | |- match ?o with _ => _ end = _ => change o with (property_of (child_at r))
  end.
  by rewrite Hread.
Qed.

Lemma get_properties_child_foreign (r : Ucfb_reader)
    (acc : list (Z * list Byte.byte)) :
  reader_ok r -> child_fits r -> child_magic_at r <> mn "PROP" ->
  get_properties_child (r, acc) = (Throw UnexpectedMagic, (r, acc)).
Proof.
  intros Hok Hfit Hmn. unfold get_properties_child.
  erewrite bind_rd_throw; [done|]. by apply read_child_strict_mismatch.
Qed.

Lemma get_properties_loop_foreign (fuel : nat) (r r_foreign : Ucfb_reader)
    (acc : list (Z * list Byte.byte)) :
  reader_ok r -> props_then_foreign r r_foreign ->
  _size r - _head r < Z.of_nat fuel ->
  exists acc',
    while_reader fuel get_properties_child (r, acc)
    = (Throw UnexpectedMagic, (r_foreign, acc')).
Proof.
  intros Hok Hprops. revert fuel acc.
  induction Hprops
    as [r Htruthy Hfit Hmn|r r_foreign read Htruthy Hfit Hmn Hread Hrest IH];
    intros fuel acc Hfuel.
  - destruct fuel as [|fuel].
    { unfold operator_bool in Htruthy. apply Z.ltb_lt in Htruthy. lia. }
    simpl. rewrite Htruthy. unfold bind.
    rewrite get_properties_child_foreign by done. by eexists.
  - destruct fuel as [|fuel].
    { unfold operator_bool in Htruthy. apply Z.ltb_lt in Htruthy. lia. }
    simpl. rewrite Htruthy. unfold bind.
    rewrite (get_properties_child_prop r acc read) by done.
    apply IH.
    + by apply reader_ok_after_child.
    + pose proof (after_child_head false r) as Hhead.
      pose proof (uint32_range (_data r) (_head r + 4)) as Hsz.
      unfold child_end in Hhead. fold (child_size_at r) in Hsz.
      unfold after_child at 1. simpl _size. lia.
Qed.

Lemma get_properties_foreign (object r_foreign : Ucfb_reader) :
  reader_ok object -> props_then_foreign object r_foreign ->
  get_properties object = (Throw UnexpectedMagic, r_foreign).
Proof.
  intros Hok Hprops. unfold get_properties, while_.
  destruct (get_properties_loop_foreign (loop_fuel object) object
              r_foreign [] Hok Hprops) as [acc' Hloop].
  { unfold loop_fuel. destruct Hok as (? & ? & ?). lia. }
  cbn [fst]. by rewrite Hloop.
Qed.

Section ForeignChildren.
Context {FM : FloatModel}.
Variable lookup_fnv_hash : Z -> list Byte.byte.

(** In segment processing a child with an unrecognised magic is read past
    and otherwise ignored. *)
Lemma process_segment_ps2_child_unknown (vertex_count index_count : Z)
    (model_info : Model_info) (segment : Ucfb_reader) (model : msh.Model.t) :
  reader_ok segment -> child_fits segment ->
  child_magic_at segment ∉ ps2_segment_magics ->
  process_segment_ps2_child vertex_count index_count model_info (segment, model)
  = (Ok tt, (after_child false segment, model)).
Proof.
  intros Hok Hfit Hmn. unfold process_segment_ps2_child.
  erewrite bind_rd; [|by apply read_child_fits].
  cbv beta. cbn [fst snd]. unfold magic_number.
  change (_mn (child_at segment)) with (child_magic_at segment).
  unfold ps2_segment_magics in Hmn.
  repeat match goal with
  | |- context [child_magic_at segment =? ?m] =>
      destruct (Z.eqb_spec (child_magic_at segment) m) as [Heq|_];
      [exfalso; apply Hmn; rewrite Heq; apply list_elem_of_In;
       repeat (first [by left | right])|]
  end.
  done.
Qed.

(** C10: in the object descriptor emitter every child after [BASE] and
    [TYPE] must be a [PROP].  When the children after [TYPE] are
    well-formed [PROP] chunks followed by a child of another magic,
    [get_properties] throws the unexpected magic error with its head still
    on that child, and [handle_object] fails with the same error and saves
    no file.  A PS2 segment that meets the same child, when its magic is
    none of those the segment processor recognises, reads past it and
    leaves the model as it was. *)
Theorem handle_object_foreign_child (object : Ucfb_reader)
    (type : list Byte.byte) (file_saver : File_saver)
    (base : Ucfb_reader_strict (mn "BASE")) (after_base : Ucfb_reader)
    (class_name : list Byte.byte)
    (type_chunk : Ucfb_reader_strict (mn "TYPE")) (after_type : Ucfb_reader)
    (odf_name : list Byte.byte) (at_foreign : Ucfb_reader) :
  reader_ok object ->
  read_child_strict (mn "BASE") false object = (Ok base, after_base) ->
  fst (read_string false base) = Ok class_name ->
  read_child_strict (mn "TYPE") false after_base = (Ok type_chunk, after_type) ->
  fst (read_string false type_chunk) = Ok odf_name ->
  props_then_foreign after_type at_foreign ->
  get_properties after_type = (Throw UnexpectedMagic, at_foreign)
  /\ child_fits at_foreign /\ child_magic_at at_foreign <> mn "PROP"
  /\ handle_object lookup_fnv_hash object type file_saver
     = (Throw UnexpectedMagic, file_saver)
  /\ (forall (vertex_count index_count : Z) (model_info : Model_info)
             (model : msh.Model.t),
        child_magic_at at_foreign ∉ ps2_segment_magics ->
        process_segment_ps2_child vertex_count index_count model_info
          (at_foreign, model)
        = (Ok tt, (after_child false at_foreign, model))).
Proof.
  intros Hok Hbase Hclass Htype Hodf Hprops.
  destruct (read_child_strict_Ok_inv _ _ _ _ _ Hok Hbase)
    as (Hfit1 & _ & _ & ->).
  pose proof (reader_ok_after_child false object Hok Hfit1) as Hok1.
  destruct (read_child_strict_Ok_inv _ _ _ _ _ Hok1 Htype)
    as (Hfit2 & _ & _ & Hafter).
  assert (reader_ok after_type) as Hok2
    by (rewrite Hafter; by apply reader_ok_after_child).
  assert (reader_ok at_foreign /\ child_fits at_foreign
          /\ child_magic_at at_foreign <> mn "PROP") as (Hok3 & Hfit3 & Hmn3).
  { clear - Hok2 Hprops. induction Hprops; [done|].
    apply IHHprops. by apply reader_ok_after_child. }
  pose proof (get_properties_foreign after_type at_foreign Hok2 Hprops) as Hget.
  split; [done|]. split; [done|]. split; [done|]. split.
  - unfold handle_object. erewrite bind_by_value_Throw; [done|].
    erewrite bind_out_ref; [|reflexivity]. cbv beta. cbn [fst snd].
    erewrite bind_rd; [|exact Hbase]. cbv beta. cbn [fst snd].
    erewrite bind_by_value_Ok; [|exact Hclass].
    erewrite bind_out_ref; [|reflexivity]. cbv beta. cbn [fst snd].
    erewrite bind_rd; [|exact Htype]. cbv beta. cbn [fst snd].
    erewrite bind_by_value_Ok; [|exact Hodf].
    rewrite bind_get. cbn [fst snd].
    erewrite bind_by_value_Throw; [done|]. by rewrite Hget.
  - intros. by apply process_segment_ps2_child_unknown.
Qed.
End ForeignChildren.

Lemma handle_object_foreign_child_witness :
  reader_ok object_with_foreign_child
  /\ (exists at_foreign,
        get_properties
          (after_child false (after_child false object_with_foreign_child))
        = (Throw UnexpectedMagic, at_foreign)
        /\ _head at_foreign = 48 /\ child_magic_at at_foreign = mn "XXXX")
  /\ handle_object (fun _ => sv "Name") object_with_foreign_child
       (sv "GameObjectClass") []
     = (Throw UnexpectedMagic, []).
Proof.
  assert (reader_ok object_with_foreign_child) as Hok
    by (unfold reader_ok; simpl; lia).
  set (after_type := after_child false (after_child false object_with_foreign_child)).
  assert (props_then_foreign after_type (after_child false after_type)) as Hprops.
  { eapply prop_first;
      [reflexivity | vm_compute; congruence | reflexivity | reflexivity |].
    apply foreign_here;
      [reflexivity | vm_compute; congruence | vm_compute; congruence]. }
  destruct (handle_object_foreign_child (FM := SymbolicFloat.model)
              (fun _ => sv "Name") object_with_foreign_child
              (sv "GameObjectClass") []
              (child_at object_with_foreign_child)
              (after_child false object_with_foreign_child) (sv "door")
              (child_at (after_child false object_with_foreign_child))
              after_type (sv "my_door") (after_child false after_type)
              Hok eq_refl eq_refl eq_refl eq_refl Hprops)
    as (Hget & _ & _ & Hobject & _).
  split; [exact Hok|]. split; [|exact Hobject].
  exists (after_child false after_type).
  split; [exact Hget|]. split; reflexivity.
Defined.

(** ** PS2 segments *)

(** C2 fails on the code: for the segment of the scenario the segment
    processor adds one model whose only strip is the strip buffer as stored,
    [0x8000, 0x8001, 2, 3, 4], marker bits included, not [0, 1, 2, 3, 4].
    [read_vertex_strip_ps2], which clears the marker bit of the two header
    indices and stops at the next marker, gives [0, 1, 2, 3, 4] on that
    buffer, but [process_segment_ps2] stores what [read_strip_buffer]
    returns and never calls it. *)
Lemma process_segment_ps2_keeps_strip_markers :
  exists model,
    process_segment_ps2 ps2_scenario_segment msh.Lod.zero ps2_scenario_info []
    = (Ok tt, [model])
    /\ msh.Model.strips model = [[0x8000; 0x8001; 2; 3; 4]]
    /\ msh.Model.strips model <> [[0; 1; 2; 3; 4]]
    /\ length (msh.Model.positions model) = 3%nat
    /\ read_vertex_strip_ps2 [0x8000; 0x8001; 2; 3; 4] 0 = (Ok [0; 1; 2; 3; 4], 5).
Proof.
  eexists. split; [vm_compute; reflexivity|].
  split; [reflexivity|]. split; [discriminate|]. split; reflexivity.
Qed.

(** ** The loops end within their fuel *)

Section FuelFree.
Context {S : Type}.

Lemma fuel_free_ret {A : Type} (a : A) : fuel_free (S := S) (ret a).
Proof. by intros s. Qed.

Lemma fuel_free_get : fuel_free (S := S) get.
Proof. by intros s. Qed.

Lemma fuel_free_modify (f : S -> S) : fuel_free (modify f).
Proof. by intros s. Qed.

Lemma fuel_free_lift_outcome {A : Type} (o : outcome A) :
  o <> Throw LoopFuelExhausted -> fuel_free (S := S) (lift_outcome o).
Proof. by intros H s. Qed.

Lemma fuel_free_bind {A B : Type} (m : M S A) (k : A -> M S B) :
  fuel_free m -> (forall a, fuel_free (k a)) -> fuel_free (let* x := m in k x).
Proof.
  intros Hm Hk s. unfold bind. specialize (Hm s).
  destruct (m s) as [[a|e] s']; [apply Hk|].
  simpl in *. intros [= ->]. by apply Hm.
Qed.

Lemma fuel_free_when (b : bool) (m : M S unit) :
  fuel_free m -> fuel_free (when b m).
Proof. intros Hm. destruct b; [done|]. apply fuel_free_ret. Qed.

Lemma fuel_free_by_value {R A : Type} (r : R) (callee : M R A) :
  fuel_free callee -> fuel_free (S := S) (by_value r callee).
Proof. intros Hm s. apply Hm. Qed.

Lemma fuel_free_noexcept {A : Type} (m : M S A) : fuel_free (noexcept m).
Proof. intros s. unfold noexcept. by destruct (m s) as [[a|e] s']. Qed.
End FuelFree.

Lemma fuel_free_rd {R O A : Type} (m : M R A) :
  fuel_free m -> fuel_free (rd (O := O) m).
Proof.
  intros Hm s. unfold rd. specialize (Hm (fst s)). by destruct (m (fst s)).
Qed.

Lemma fuel_free_upd {R O : Type} (f : O -> O) : fuel_free (upd (R := R) f).
Proof. by intros s. Qed.

Lemma fuel_free_out_ref {R O A : Type} (m : M O A) :
  fuel_free m -> fuel_free (out_ref (R := R) m).
Proof.
  intros Hm s. unfold out_ref. specialize (Hm (snd s)). by destruct (m (snd s)).
Qed.

Lemma fuel_free_local {R O A : Type} (r : R) (body : M (R * O) A) :
  fuel_free body -> fuel_free (local r body).
Proof.
  intros Hm s. unfold local. specialize (Hm (r, s)). by destruct (body (r, s)).
Qed.

Lemma fuel_free_check_head : fuel_free check_head.
Proof. intros r. unfold check_head. by destruct (_ <? _). Qed.

Lemma fuel_free_align_head : fuel_free align_head.
Proof. intros r. unfold align_head. by destruct (negb _). Qed.

Create HintDb fuel_free.
#[local] Hint Resolve fuel_free_ret fuel_free_get fuel_free_modify
  fuel_free_when fuel_free_by_value fuel_free_noexcept fuel_free_rd
  fuel_free_upd fuel_free_out_ref fuel_free_local fuel_free_check_head
  fuel_free_align_head : fuel_free.

(** Goes through a body built from binds, conditionals and the combinators
    above. *)
Ltac solve_fuel_free :=
  repeat first
    [ progress eauto with fuel_free
    | apply fuel_free_bind; [|intros ?]
    | apply fuel_free_when
    | apply fuel_free_rd
    | apply fuel_free_out_ref
    | apply fuel_free_by_value
    | apply fuel_free_local
    | match goal with
      | |- fuel_free (if ?b then _ else _) => destruct b
      | |- fuel_free (match ?o with _ => _ end) => destruct o
      end ].

Lemma fuel_free_read_trivial {T : Type} (ty : Trivial T) (unaligned : bool) :
  fuel_free (read_trivial ty unaligned).
Proof.
  intros r. unfold read_trivial.
  match goal with
  | |- fst (?m r) <> _ => assert (fuel_free m) as H by solve_fuel_free
  end.
  apply H.
Qed.

Lemma fuel_free_read_array {T : Type} (ty : Trivial T) (count : Z)
    (unaligned : bool) :
  fuel_free (read_array ty count unaligned).
Proof.
  intros r. unfold read_array.
  match goal with
  | |- fst (?m r) <> _ => assert (fuel_free m) as H by solve_fuel_free
  end.
  apply H.
Qed.

Lemma fuel_free_read_string (unaligned : bool) : fuel_free (read_string unaligned).
Proof.
  intros r. unfold read_string. destruct (cstring_length _ _); [|done].
  match goal with
  | |- fst (?m r) <> _ => assert (fuel_free m) as H by solve_fuel_free
  end.
  apply H.
Qed.

Lemma fuel_free_consume (amount : Z) (unaligned : bool) :
  fuel_free (consume amount unaligned).
Proof.
  intros r. unfold consume.
  match goal with
  | |- fst (?m r) <> _ => assert (fuel_free m) as H by solve_fuel_free
  end.
  apply H.
Qed.

#[local] Hint Resolve fuel_free_read_trivial fuel_free_read_array
  fuel_free_read_string fuel_free_consume : fuel_free.

Lemma fuel_free_read_child (unaligned : bool) : fuel_free (read_child unaligned).
Proof. unfold read_child, read_trivial_unaligned. solve_fuel_free. Qed.

Lemma fuel_free_read_child_strict (type_mn : Magic_number) (unaligned : bool) :
  fuel_free (read_child_strict type_mn unaligned).
Proof.
  unfold read_child_strict. apply fuel_free_bind; [|solve_fuel_free].
  intros r. unfold read_child_strict_mn.
  pose proof (fuel_free_read_child unaligned r) as H.
  destruct (read_child unaligned r) as [[child|e] r']; [|done].
  by destruct (negb _).
Qed.

#[local] Hint Resolve fuel_free_read_child fuel_free_read_child_strict
  : fuel_free.

Lemma fuel_free_get_properties_child : fuel_free get_properties_child.
Proof. unfold get_properties_child. solve_fuel_free. Qed.

Lemma read_child_Ok_inv (unaligned : bool) (r r' child : Ucfb_reader) :
  reader_ok r -> read_child unaligned r = (Ok child, r') ->
  child_fits r /\ child = child_at r /\ r' = after_child unaligned r.
Proof.
  intros Hok Hread.
  destruct (Z.le_gt_cases (child_end r) (_size r)) as [Hfit|Hfit].
  - rewrite read_child_fits in Hread by done. by injection Hread as <- <-.
  - destruct (read_child_overflows unaligned r Hok) as [h Hh].
    { unfold child_fits. lia. }
    by rewrite Hh in Hread.
Qed.

Section KeepsReader.
Context {R O : Type}.

Lemma keeps_reader_ret {A : Type} (a : A) : keeps_reader (R := R) (O := O) (ret a).
Proof. by intros s s' res [= _ <-]. Qed.

Lemma keeps_reader_upd (f : O -> O) : keeps_reader (R := R) (upd f).
Proof. by intros s s' res [= _ <-]. Qed.

Lemma keeps_reader_out_ref {A : Type} (m : M O A) :
  keeps_reader (R := R) (out_ref m).
Proof.
  intros s s' res. unfold out_ref. destruct (m (snd s)). by intros [= _ <-].
Qed.

Lemma keeps_reader_by_value {R' A : Type} (r : R') (callee : M R' A) :
  keeps_reader (R := R) (O := O) (by_value r callee).
Proof. by intros s s' res [= _ <-]. Qed.

Lemma keeps_reader_lift_outcome {A : Type} (o : outcome A) :
  keeps_reader (R := R) (O := O) (lift_outcome o).
Proof. by intros s s' res [= _ <-]. Qed.

Lemma keeps_reader_bind {A B : Type} (m : M (R * O) A) (k : A -> M (R * O) B) :
  keeps_reader m -> (forall a, keeps_reader (k a)) ->
  keeps_reader (let* x := m in k x).
Proof.
  intros Hm Hk s s' res. unfold bind.
  destruct (m s) as [[a|e] s1] eqn:Hms.
  - intros Hks. rewrite (Hk a _ _ _ Hks). by eapply Hm.
  - intros [= _ <-]. by eapply Hm.
Qed.
End KeepsReader.

Ltac solve_keeps_reader :=
  repeat first
    [ apply keeps_reader_ret | apply keeps_reader_upd | apply keeps_reader_out_ref
    | apply keeps_reader_by_value | apply keeps_reader_lift_outcome
    | apply keeps_reader_bind; [|intros ?]
    | match goal with
      | |- keeps_reader (if ?b then _ else _) => destruct b
      end ].

(** A loop whose passes each read one child past the head ends before its
    fuel does. *)
Lemma while_reader_fuel_free {O : Type} (body : M (Ucfb_reader * O) unit) :
  fuel_free body ->
  (forall s s', reader_ok (fst s) -> body s = (Ok tt, s') ->
     child_fits (fst s) /\ fst s' = after_child false (fst s)) ->
  forall (fuel : nat) (s : Ucfb_reader * O),
    reader_ok (fst s) -> (0 < fuel)%nat ->
    _size (fst s) - _head (fst s) < Z.of_nat fuel ->
    fst (while_reader fuel body s) <> Throw LoopFuelExhausted.
Proof.
  intros Hfree Hstep fuel. induction fuel as [|fuel IH]; intros s Hok Hpos Hfuel;
    [lia|].
  simpl. destruct (operator_bool (fst s)) eqn:Htruthy; [|done].
  unfold operator_bool in Htruthy. apply Z.ltb_lt in Htruthy.
  unfold bind. pose proof (Hfree s) as Hbody.
  destruct (body s) as [[[]|e] s'] eqn:Hs.
  - destruct (Hstep s s' Hok Hs) as [Hfit Hs'].
    pose proof (after_child_head false (fst s)) as Hhead.
    pose proof (uint32_range (_data (fst s)) (_head (fst s) + 4)) as Hsz.
    unfold child_end in Hhead. fold (child_size_at (fst s)) in Hsz.
    rewrite <- Hs' in Hhead.
    assert (_size (fst s') = _size (fst s)) as Hsize by (by rewrite Hs').
    apply IH.
    + rewrite Hs'. by apply reader_ok_after_child.
    + lia.
    + lia.
  - simpl in *. intros [= ->]. by apply Hbody.
Qed.

Lemma get_properties_child_step (s s' : Ucfb_reader * list (Z * list Byte.byte)) :
  reader_ok (fst s) -> get_properties_child s = (Ok tt, s') ->
  child_fits (fst s) /\ fst s' = after_child false (fst s).
Proof.
  intros Hok. unfold get_properties_child. unfold bind at 1. unfold rd.
  destruct (read_child_strict (mn "PROP") false (fst s)) as [[child|e] r'] eqn:Hread;
    [|done].
  destruct (read_child_strict_Ok_inv _ _ _ _ _ Hok Hread) as (Hfit & _ & _ & ->).
  intros Hrest. split; [done|].
  assert (keeps_reader (R := Ucfb_reader) (O := list (Z * list Byte.byte))
            (let* read := by_value child
                            (let* hash := read_trivial uint32_t false in
                             let* value := read_string false in
                             ret (hash, value)) in
             upd (fun properties => properties ++ [read]))) as Hkeep
    by solve_keeps_reader.
  by rewrite (Hkeep _ _ _ Hrest).
Qed.

(** [get_properties] returns or throws an exception of the program for every
    object: the bound on the passes of its loop is never met. *)
Lemma get_properties_total (object : Ucfb_reader) :
  reader_ok object -> fst (get_properties object) <> Throw LoopFuelExhausted.
Proof.
  intros Hok. unfold get_properties, while_.
  pose proof (while_reader_fuel_free get_properties_child
                fuel_free_get_properties_child get_properties_child_step
                (loop_fuel object) (object, []) Hok) as Hloop.
  cbn [fst] in *.
  destruct (while_reader (loop_fuel object) get_properties_child (object, []))
    as [[[]|e] s']; [done|].
  simpl in *. intros [= ->]. apply Hloop; [| |done].
  - unfold loop_fuel. lia.
  - unfold loop_fuel. destruct Hok as (? & ? & ?). lia.
Qed.

Section SegmentTotal.
Context {FM : FloatModel}.

Lemma fuel_free_with_strict {S A : Type} (type_mn : Magic_number)
    (child : Ucfb_reader) (callee : Ucfb_reader_strict type_mn -> M S A) :
  (forall c, fuel_free (callee c)) -> fuel_free (with_strict type_mn child callee).
Proof.
  intros Hc. unfold with_strict. apply fuel_free_bind; [|done].
  apply fuel_free_lift_outcome. unfold Ucfb_reader_strict_of.
  by destruct (_ =? _).
Qed.

Lemma fuel_free_on_material {A : Type} (m : M msh.Material.t A) :
  fuel_free m -> fuel_free (on_material m).
Proof.
  intros Hm model. unfold on_material. specialize (Hm (msh.Model.material model)).
  by destruct (m _).
Qed.

Lemma fuel_free_on_textures {A : Type} (m : M (list (list Byte.byte)) A) :
  fuel_free m -> fuel_free (on_textures m).
Proof.
  intros Hm material. unfold on_textures.
  specialize (Hm (msh.Material.textures material)). by destruct (m _).
Qed.

Lemma fuel_free_read_material_swbf1 (material : Ucfb_reader_strict (mn "MTRL")) :
  fuel_free (read_material_swbf1 material).
Proof. unfold read_material_swbf1, read_swbf1_params. solve_fuel_free. Qed.

Lemma fuel_free_read_material (material : Ucfb_reader_strict (mn "MTRL")) :
  fuel_free (read_material material).
Proof.
  unfold read_material. destruct (_ <? _);
    [apply fuel_free_read_material_swbf1|].
  unfold read_string_unaligned. solve_fuel_free.
Qed.

Lemma fuel_free_process_segment_ps2_child (vertex_count index_count : Z)
    (model_info : Model_info) :
  fuel_free (process_segment_ps2_child vertex_count index_count model_info).
Proof.
  unfold process_segment_ps2_child.
  apply fuel_free_bind; [solve_fuel_free|]. intros child.
  repeat match goal with
  | |- fuel_free (if ?b then _ else _) => destruct b
  end;
  try (apply fuel_free_with_strict; intros c).
  - apply fuel_free_out_ref, fuel_free_on_material, fuel_free_read_material.
  - solve_fuel_free.
  - unfold read_material_name. solve_fuel_free.
  - apply fuel_free_out_ref, fuel_free_on_material, fuel_free_on_textures.
    unfold read_texture_name. apply fuel_free_noexcept.
  - unfold read_strip_buffer. solve_fuel_free.
  - unfold read_positions_buffer. solve_fuel_free.
  - unfold read_normals_buffer. solve_fuel_free.
  - unfold read_uv_buffer. solve_fuel_free.
  - unfold read_colour_buffer. solve_fuel_free.
  - unfold read_bone_map. solve_fuel_free.
  - unfold read_skin_buffer. solve_fuel_free.
  - solve_fuel_free.
  - solve_fuel_free.
Qed.

Lemma keeps_reader_with_strict {O A : Type} (type_mn : Magic_number)
    (child : Ucfb_reader)
    (callee : Ucfb_reader_strict type_mn -> M (Ucfb_reader * O) A) :
  (forall c, keeps_reader (callee c)) ->
  keeps_reader (with_strict type_mn child callee).
Proof.
  intros Hc. unfold with_strict. apply keeps_reader_bind; [|done].
  apply keeps_reader_lift_outcome.
Qed.

Lemma process_segment_ps2_child_step (vertex_count index_count : Z)
    (model_info : Model_info) (s s' : Ucfb_reader * msh.Model.t) :
  reader_ok (fst s) ->
  process_segment_ps2_child vertex_count index_count model_info s = (Ok tt, s') ->
  child_fits (fst s) /\ fst s' = after_child false (fst s).
Proof.
  intros Hok. unfold process_segment_ps2_child. unfold bind at 1. unfold rd.
  destruct (read_child false (fst s)) as [[child|e] r'] eqn:Hread; [|done].
  destruct (read_child_Ok_inv _ _ _ _ Hok Hread) as (Hfit & _ & ->).
  intros Hrest. split; [done|].
  match type of Hrest with
  | ?k _ = _ => assert (keeps_reader k) as Hkeep
  end.
  { repeat match goal with
    | |- keeps_reader (if ?b then _ else _) => destruct b
    end;
    try (apply keeps_reader_with_strict; intros c); solve_keeps_reader. }
  by rewrite (Hkeep _ _ _ Hrest).
Qed.

(** [process_segment_ps2] returns or throws an exception of the program
    for every segment: the bound on the passes of its loop is never
    met. *)
Lemma process_segment_ps2_total (segment : Ucfb_reader_strict (mn "segm"))
    (lod : msh.Lod.t) (model_info : Model_info) (builder : msh.Builder.t) :
  reader_ok segment ->
  fst (process_segment_ps2 segment lod model_info builder)
  <> Throw LoopFuelExhausted.
Proof.
  intros Hok. unfold process_segment_ps2.
  apply fuel_free_bind;
    [|intros model; unfold msh.Builder.add_model; solve_fuel_free].
  intros b.
  match goal with
  | |- fst (let '(res, s) := ?body ?init in _) <> _ =>
      assert (fst (body init) <> Throw LoopFuelExhausted) as Hbody;
      [|destruct (body init) as [[[]|e] s']; simpl in *; [done|];
        intros [= ->]; by apply Hbody]
  end.
  unfold bind at 1. unfold rd. cbn [fst snd].
  pose proof (fuel_free_read_child_strict (mn "INFO") false segment) as Hinfo.
  destruct (read_child_strict (mn "INFO") false segment)
    as [[info|e] r1] eqn:Hread; [|simpl in *; intros [= ->]; by apply Hinfo].
  destruct (read_child_strict_Ok_inv _ _ _ _ _ Hok Hread) as (Hfit & _ & _ & ->).
  pose proof (reader_ok_after_child false segment Hok Hfit) as Hok1.
  rewrite bind_by_value.
  match goal with
  | |- fst (match ?o with _ => _ end) <> _ =>
      assert (o <> Throw LoopFuelExhausted) as Hreads;
      [ lazymatch o with
        | fst (?reads ?i) =>
            let H := fresh in
            assert (fuel_free reads) as H by solve_fuel_free; exact (H i)
        end
      | destruct o as [counts|e] ]
  end; [|simpl in *; intros [= ->]; by apply Hreads].
  unfold while_. cbn [fst].
  apply while_reader_fuel_free; cbn [fst].
  - apply fuel_free_process_segment_ps2_child.
  - intros s s'. apply process_segment_ps2_child_step.
  - done.
  - unfold loop_fuel. lia.
  - unfold loop_fuel. simpl _size. destruct Hok1 as (? & ? & ?). simpl in *. lia.
Qed.
End SegmentTotal.

(** * Further properties *)

(** ** Reads that fail *)

(** [read_trivial] throws exactly when the value does not fit between the
    head and the size, and the head stays where the attempt moved it, past
    the size.  From a reader whose head is past the size, which is also what
    an aligned read at the end of a chunk of odd size leaves, every
    [read_trivial] and [read_array] throws. *)
Theorem read_trivial_failure {T : Type} (ty : Trivial T) (unaligned : bool)
    (r : Ucfb_reader) :
  reader_ok r -> 0 <= sizeof ty < 2 ^ 32 ->
  (_size r < _head r + sizeof ty ->
     read_trivial ty unaligned r
     = (Throw BoundsViolation, set_head (_head r + sizeof ty) r))
  /\ (_head r + sizeof ty <= _size r ->
      exists value r', read_trivial ty unaligned r = (Ok value, r'))
  /\ (_size r < _head r ->
      forall (T' : Type) (ty' : Trivial T') (unaligned' : bool) (count : Z),
        0 <= sizeof ty' < 2 ^ 32 -> 0 <= count < 2 ^ 30 ->
        fst (read_trivial ty' unaligned' r) = Throw BoundsViolation
        /\ fst (read_array ty' count unaligned' r) = Throw BoundsViolation).
Proof.
  intros Hok Hty. split; [|split].
  - intros Hout. by apply read_trivial_overflows.
  - intros Hin. rewrite read_trivial_advance by done. unfold advance_to.
    destruct (Z.ltb_spec (_size r) (_head r + sizeof ty)); [lia|]. by eexists _, _.
  - intros Hpast T' ty' unaligned' count Hty' Hcount. split.
    + rewrite read_trivial_overflows; [done..|lia].
    + rewrite read_array_advance; [|done|unfold_wrap; nia].
      unfold advance_to.
      by destruct (Z.ltb_spec (_size r) (_head r + sizeof ty' * count)); [|nia].
Qed.

Lemma read_trivial_failure_witness :
  let r := reader_over "NAME" (sv "abc") in
  reader_ok r /\ _size r < _head r + sizeof uint32_t
  /\ read_trivial uint32_t false r = (Throw BoundsViolation, set_head 4 r)
  /\ fst (read_trivial uint8_t true (set_head 4 r)) = Throw BoundsViolation.
Proof.
  intros r.
  assert (reader_ok r) as Hok by (unfold reader_ok; simpl; lia).
  assert (_size r < _head r + sizeof uint32_t) as Hout by (simpl; lia).
  split; [exact Hok|]. split; [exact Hout|]. split.
  - exact (proj1 (read_trivial_failure uint32_t false r Hok ltac:(simpl; lia)) Hout).
  - assert (reader_ok (set_head 4 r)) as Hok4 by (unfold reader_ok; simpl; lia).
    exact (proj1 (proj2 (proj2 (read_trivial_failure uint8_t true (set_head 4 r)
                   Hok4 ltac:(simpl; lia))) ltac:(simpl; lia)
                   Z uint8_t true 0 ltac:(simpl; lia) ltac:(lia))).
Defined.

(** ** Arrays *)

Lemma view_elements_length {T : Type} (ty : Trivial T) (n : nat)
    (data : list Byte.byte) :
  length (view_elements ty n data) = n.
Proof. revert data. induction n as [|n IH]; intros data; simpl; [done|]. by rewrite IH. Qed.

Lemma view_elements_lookup {T : Type} (ty : Trivial T) (n i : nat)
    (data : list Byte.byte) :
  (i < n)%nat -> 0 <= sizeof ty ->
  view_elements ty n data !! i
  = Some (view_type_as ty (bytes_at data (Z.of_nat i * sizeof ty) (sizeof ty))).
Proof.
  intros Hi Hsz. revert i data Hi.
  induction n as [|n IH]; intros i data Hi; [lia|].
  destruct i as [|i]; simpl.
  - unfold bytes_at. by rewrite drop_0.
  - rewrite IH by lia. unfold bytes_at. rewrite drop_drop. do 4 f_equal. lia.
Qed.

(** An unaligned [read_array] of [count] elements, from a head inside the
    chunk, is [count] unaligned [read_trivial]s: the same outcome, and on
    success the same values, [count] of them, and the same head. *)
Theorem read_array_as_reads {T : Type} (ty : Trivial T) (count : Z)
    (r : Ucfb_reader) :
  reader_ok r -> _head r <= _size r ->
  0 <= sizeof ty < 2 ^ 32 -> 0 <= count < 2 ^ 30 ->
  fst (read_array_unaligned ty count r) = fst (read_each ty (Z.to_nat count) r)
  /\ (forall values r',
        read_array_unaligned ty count r = (Ok values, r') ->
        read_each ty (Z.to_nat count) r = (Ok values, r')
        /\ length values = Z.to_nat count
        /\ _head r' = _head r + sizeof ty * count).
Proof.
  intros Hok Hin Hty Hcount.
  assert (forall (n : nat) (r : Ucfb_reader),
            reader_ok r -> _head r <= _size r -> Z.of_nat n < 2 ^ 30 ->
            (_size r < _head r + sizeof ty * Z.of_nat n ->
               fst (read_each ty n r) = Throw BoundsViolation)
            /\ (_head r + sizeof ty * Z.of_nat n <= _size r ->
                read_each ty n r
                = (Ok (view_elements ty n (drop (Z.to_nat (_head r)) (_data r))),
                   set_head (_head r + sizeof ty * Z.of_nat n) r))) as Heach.
  { clear r Hok Hin count Hcount. intros n.
    induction n as [|n IH]; intros r Hok Hle Hn.
    - cbn [read_each view_elements]. change (Z.of_nat 0) with 0.
      rewrite Z.mul_0_r, Z.add_0_r. split; [lia|]. intros _.
      unfold ret. by rewrite set_head_same.
    - pose proof Hok as (Hh & Hs & Hd).
      cbn [read_each]. unfold bind at 1. unfold bind at 2.
      unfold read_trivial_unaligned.
      rewrite read_trivial_advance by done. unfold advance_to.
      destruct (Z.ltb_spec (_size r) (_head r + sizeof ty)) as [Hout|Hfit].
      + split; [done|nia].
      + assert (reader_ok (set_head (_head r + sizeof ty) r)) as Hok1
          by (apply reader_ok_set_head; [done|unfold_wrap; lia]).
        destruct (IH _ Hok1 ltac:(simpl; lia) ltac:(lia)) as [IHout IHin].
        simpl _head in *. simpl _size in *. simpl _data in *.
        replace (_head r + sizeof ty + sizeof ty * Z.of_nat n)
          with (_head r + sizeof ty * Z.of_nat (S n)) in * by lia.
        split.
        * intros Hout. specialize (IHout Hout). unfold bind.
          destruct (read_each ty n _) as [[values|e] r1]; simpl in *; congruence.
        * intros Hall. unfold bind. rewrite (IHin Hall).
          unfold ret. rewrite set_head_set_head. f_equal. f_equal.
          cbn [view_elements]. unfold bytes_at. f_equal.
          rewrite drop_drop. f_equal. f_equal. lia. }
  unfold read_array_unaligned.
  rewrite read_array_advance by (done || (unfold_wrap; nia)).
  destruct (Heach (Z.to_nat count) r Hok Hin ltac:(lia)) as [Hout Hall].
  rewrite Z2Nat.id in * by lia.
  unfold advance_to.
  destruct (Z.ltb_spec (_size r) (_head r + sizeof ty * count)) as [Hlt|Hge].
  - split; [by rewrite Hout|done].
  - rewrite (Hall Hge). split; [done|]. intros values r' [= <- <-].
    split; [done|]. split; [apply view_elements_length|done].
Qed.

Lemma read_array_as_reads_witness :
  let r := reader_over "IBUF" (bytes_of [1; 0; 2; 0; 3; 0]) in
  reader_ok r /\ _head r <= _size r
  /\ read_each uint16_t 3 r = (Ok [1; 2; 3], set_head 6 r).
Proof.
  intros r.
  assert (reader_ok r) as Hok by (unfold reader_ok; simpl; lia).
  split; [exact Hok|]. split; [simpl; lia|].
  exact (proj1 (proj2 (read_array_as_reads uint16_t 3 r Hok ltac:(simpl; lia)
                         ltac:(simpl; lia) ltac:(lia)) [1; 2; 3] (set_head 6 r) eq_refl)).
Defined.

(** ** Buffers of the model decoder *)

Lemma bytes_at_drop (data : list Byte.byte) (n : nat) (pos count : Z) :
  0 <= pos -> bytes_at (drop n data) pos count = bytes_at data (Z.of_nat n + pos) count.
Proof.
  intros Hpos. unfold bytes_at. rewrite drop_drop. do 2 f_equal. lia.
Qed.

Lemma read_array_Ok_length {T : Type} (ty : Trivial T) (count : Z) (unaligned : bool)
    (r r' : Ucfb_reader) (values : list T) :
  read_array ty count unaligned r = (Ok values, r') -> length values = Z.to_nat count.
Proof.
  unfold read_array, bind, modify, check_head, when, ret. simpl.
  destruct (_ <? _); [done|].
  destruct (negb unaligned); simpl.
  - unfold align_head. destruct (negb _); intros [= <- _]; apply view_elements_length.
  - intros [= <- _]. apply view_elements_length.
Qed.

(** An aligned array read from the start of a chunk. *)
Lemma read_array_from (h : Z) {T : Type} (ty : Trivial T) (count : Z) (r : Ucfb_reader) :
  reader_ok r -> _head r = h -> 0 <= sizeof ty < 2 ^ 30 -> 0 <= count < 2 ^ 32 ->
  (h + sizeof ty * count <= _size r ->
     read_array ty count false r
     = (Ok (view_elements ty (Z.to_nat count) (drop (Z.to_nat h) (_data r))),
        set_head (ceil4 (h + sizeof ty * count)) r))
  /\ (_size r < h + sizeof ty * count ->
      read_array ty count false r
      = (Throw BoundsViolation, set_head (h + sizeof ty * count) r)).
Proof.
  intros Hok <- Hty Hcount.
  rewrite read_array_advance; [|done|unfold_wrap; nia].
  unfold advance_to.
  destruct (Z.ltb_spec (_size r) (_head r + sizeof ty * count)); split; (done || lia).
Qed.

(** A [u32] count followed by that many elements, both read aligned. *)
Lemma counted_array {T : Type} (ty : Trivial T) (r : Ucfb_reader) :
  reader_ok r -> _head r = 0 -> 0 < sizeof ty < 2 ^ 30 ->
  let count := view_type_as uint32_t (bytes_at (_data r) 0 4) in
  let read := (let* count := read_trivial uint32_t false in
               let* values := read_array ty count false in
               ret values) in
  (4 + sizeof ty * count <= _size r ->
     exists values r',
       read r = (Ok values, r')
       /\ length values = Z.to_nat count
       /\ forall i : nat, (i < Z.to_nat count)%nat ->
            values !! i
            = Some (view_type_as ty
                      (bytes_at (_data r) (4 + Z.of_nat i * sizeof ty) (sizeof ty))))
  /\ (_size r < 4 + sizeof ty * count -> fst (read r) = Throw BoundsViolation).
Proof.
  intros Hok Hh Hty count read.
  assert (0 <= count < 2 ^ 32) as Hcount by apply uint32_range.
  assert (reader_ok (set_head 4 r)) as Hok4
    by (apply reader_ok_set_head; [done|unfold_wrap; lia]).
  destruct (read_array_from 4 ty count (set_head 4 r) Hok4 eq_refl
              ltac:(lia) Hcount) as [Hfit Hover].
  subst read. unfold bind. split.
  - intros Hin.
    assert (read_trivial uint32_t false r = (Ok count, set_head 4 r)) as ->.
    { rewrite read_trivial_aligned_ok; rewrite ?Hh; simpl sizeof; (done || nia). }
    rewrite Hfit by (simpl; lia). unfold ret. eexists _, _.
    split; [done|]. split; [apply view_elements_length|].
    intros i Hi. rewrite view_elements_lookup by (done || lia).
    simpl _data. rewrite bytes_at_drop by nia. done.
  - intros Hout.
    destruct (Z.ltb_spec (_size r) 4) as [Hshort|Hlong].
    + rewrite read_trivial_overflows; rewrite ?Hh; simpl; (done || lia).
    + assert (read_trivial uint32_t false r = (Ok count, set_head 4 r)) as ->.
      { rewrite read_trivial_aligned_ok; rewrite ?Hh; simpl sizeof; (done || nia). }
      by rewrite Hover by (simpl; lia).
Qed.

(** [read_index_buffer] and [read_bone_map] read a [u32] count and then that
    many elements ([u16] indices, [u8] bones).  On a fresh chunk they succeed
    exactly when the count and the elements fit in the chunk, and then return
    [count] elements, element [i] being the little-endian value stored at
    byte [4 + 2 i] (indices) or the byte at [4 + i] (bones); otherwise they
    throw the bounds error. *)
Theorem counted_buffers (buffer : Ucfb_reader) :
  reader_ok buffer -> _head buffer = 0 ->
  let count := view_type_as uint32_t (bytes_at (_data buffer) 0 4) in
  ((4 + 2 * count <= size buffer ->
      exists indices r',
        read_index_buffer buffer = (Ok indices, r')
        /\ length indices = Z.to_nat count
        /\ forall i : nat, (i < Z.to_nat count)%nat ->
             indices !! i
             = Some (le_value (bytes_at (_data buffer) (4 + 2 * Z.of_nat i) 2)))
   /\ (size buffer < 4 + 2 * count ->
       fst (read_index_buffer buffer) = Throw BoundsViolation))
  /\ ((4 + count <= size buffer ->
         exists bones r',
           read_bone_map buffer = (Ok bones, r')
           /\ length bones = Z.to_nat count
           /\ forall i : nat, (i < Z.to_nat count)%nat ->
                bones !! i
                = Some (le_value (bytes_at (_data buffer) (4 + Z.of_nat i) 1)))
      /\ (size buffer < 4 + count ->
          fst (read_bone_map buffer) = Throw BoundsViolation)).
Proof.
  intros Hok Hh count. split.
  - destruct (counted_array uint16_t buffer Hok Hh ltac:(simpl; lia)) as [Hfit Hover].
    change (sizeof uint16_t) with 2 in *. split.
    + intros Hin. destruct (Hfit Hin) as (indices & r' & Hread & Hlen & Hat).
      exists indices, r'. split; [exact Hread|]. split; [exact Hlen|].
      intros i Hi. rewrite (Hat i Hi). do 3 f_equal. lia.
    + exact Hover.
  - destruct (counted_array uint8_t buffer Hok Hh ltac:(simpl; lia)) as [Hfit Hover].
    change (sizeof uint8_t) with 1 in *. split.
    + intros Hin. destruct (Hfit ltac:(fold count; unfold size in Hin; lia))
        as (bones & r' & Hread & Hlen & Hat).
      exists bones, r'. split; [exact Hread|]. split; [exact Hlen|].
      intros i Hi. rewrite (Hat i Hi). do 3 f_equal. lia.
    + intros Hout. apply Hover. fold count. unfold size in Hout. lia.
Qed.

Lemma counted_buffers_witness :
  let buffer := reader_over "IBUF" (bytes_of [2; 0; 0; 0; 1; 0; 2; 1]) in
  reader_ok buffer /\ _head buffer = 0
  /\ 4 + 2 * view_type_as uint32_t (bytes_at (_data buffer) 0 4) <= size buffer
  /\ exists indices r',
       read_index_buffer buffer = (Ok indices, r')
       /\ length indices = Z.to_nat (view_type_as uint32_t (bytes_at (_data buffer) 0 4))
       /\ forall i : nat,
            (i < Z.to_nat (view_type_as uint32_t (bytes_at (_data buffer) 0 4)))%nat ->
            indices !! i
            = Some (le_value (bytes_at (_data buffer) (4 + 2 * Z.of_nat i) 2)).
Proof.
  intros buffer.
  assert (reader_ok buffer) as Hok by (unfold reader_ok; simpl; lia).
  assert (4 + 2 * view_type_as uint32_t (bytes_at (_data buffer) 0 4) <= size buffer)
    as Hin by (vm_compute; discriminate).
  split; [exact Hok|]. split; [reflexivity|]. split; [exact Hin|].
  exact (proj1 (proj1 (counted_buffers buffer Hok eq_refl))
           Hin).
Defined.

Lemma map_lookup_Some {A B : Type} (f : A -> B) (l : list A) (i : nat) (x : A) :
  l !! i = Some x -> map f l !! i = Some (f x).
Proof.
  revert i. induction l as [|y l IH]; intros [|i]; simpl; try done.
  - by intros [= ->].
  - apply IH.
Qed.

Lemma bytes_at_bytes_at (data : list Byte.byte) (p n q m : Z) :
  0 <= p -> 0 <= q -> 0 <= m -> q + m <= n ->
  bytes_at (bytes_at data p n) q m = bytes_at data (p + q) m.
Proof.
  intros Hp Hq Hm Hn. unfold bytes_at.
  rewrite skipn_firstn_comm, take_take, drop_drop.
  f_equal; [lia|]. f_equal. lia.
Qed.

(** An aligned array read from the start of a chunk, each element then
    converted by [f]: the shape of the PS2 attribute decoders. *)
Lemma mapped_array {T U : Type} (ty : Trivial T) (f : T -> U) (count : Z)
    (r : Ucfb_reader) :
  reader_ok r -> _head r = 0 -> 0 <= sizeof ty < 2 ^ 30 -> 0 <= count < 2 ^ 32 ->
  let read := (let* elements := read_array ty count false in
               ret (map f elements)) in
  (sizeof ty * count <= _size r ->
     exists values r',
       read r = (Ok values, r')
       /\ length values = Z.to_nat count
       /\ forall i : nat, (i < Z.to_nat count)%nat ->
            values !! i
            = Some (f (view_type_as ty
                         (bytes_at (_data r) (Z.of_nat i * sizeof ty) (sizeof ty)))))
  /\ (_size r < sizeof ty * count -> fst (read r) = Throw BoundsViolation).
Proof.
  intros Hok Hh Hty Hcount read.
  destruct (read_array_from 0 ty count r Hok Hh Hty Hcount) as [Hfit Hover].
  subst read. unfold bind. split.
  - intros Hin. rewrite Hfit by lia. unfold ret. eexists _, _.
    split; [done|]. split; [by rewrite length_map, view_elements_length|].
    intros i Hi. apply map_lookup_Some.
    rewrite view_elements_lookup by (done || lia). done.
  - intros Hout. by rewrite Hover by lia.
Qed.

Lemma component_array (ty : Trivial Z) (n j : nat) (bs : list Byte.byte) :
  (j < n)%nat -> 0 <= sizeof ty ->
  component (view_type_as (array_t ty n) bs) j
  = view_type_as ty (bytes_at bs (Z.of_nat j * sizeof ty) (sizeof ty)).
Proof.
  intros Hj Hty. unfold component, array_t. cbn [view_type_as].
  by rewrite view_elements_lookup.
Qed.

Section VertexBuffers.
Context {FM : FloatModel}.

(** The four PS2 vertex attribute decoders read [vertex_count] packed
  elements of 6 (positions), 3 (normals), 4 (texture coordinates) and 4
  (colours) bytes.  On a fresh chunk each succeeds exactly when that many
  bytes fit in the chunk, and then returns [vertex_count] values;
  otherwise it throws the bounds error. *)
Theorem ps2_vertex_buffers_fit (vertex_count : Z)
  (vertex_box : vec3 float * vec3 float) (buffer : Ucfb_reader) :
reader_ok buffer -> _head buffer = 0 -> 0 <= vertex_count < 2 ^ 32 ->
((6 * vertex_count <= size buffer ->
    exists positions r',
      read_positions_buffer vertex_count vertex_box buffer = (Ok positions, r')
      /\ length positions = Z.to_nat vertex_count)
 /\ (size buffer < 6 * vertex_count ->
     fst (read_positions_buffer vertex_count vertex_box buffer)
     = Throw BoundsViolation))
/\ ((3 * vertex_count <= size buffer ->
       exists normals r',
         read_normals_buffer vertex_count buffer = (Ok normals, r')
         /\ length normals = Z.to_nat vertex_count)
    /\ (size buffer < 3 * vertex_count ->
        fst (read_normals_buffer vertex_count buffer) = Throw BoundsViolation))
/\ ((4 * vertex_count <= size buffer ->
       exists uv_coords r',
         read_uv_buffer vertex_count buffer = (Ok uv_coords, r')
         /\ length uv_coords = Z.to_nat vertex_count)
    /\ (size buffer < 4 * vertex_count ->
        fst (read_uv_buffer vertex_count buffer) = Throw BoundsViolation))
/\ ((4 * vertex_count <= size buffer ->
       exists colours r',
         read_colour_buffer vertex_count buffer = (Ok colours, r')
         /\ length colours = Z.to_nat vertex_count)
    /\ (size buffer < 4 * vertex_count ->
        fst (read_colour_buffer vertex_count buffer) = Throw BoundsViolation)).
Proof.
intros Hok Hh Hcount.
assert (forall (T U : Type) (ty : Trivial T) (f : T -> U) (k : Z),
          sizeof ty = k -> 0 <= k < 2 ^ 30 ->
          (k * vertex_count <= size buffer ->
             exists values r',
               (let* elements := read_array ty vertex_count false in
                ret (map f elements)) buffer = (Ok values, r')
               /\ length values = Z.to_nat vertex_count)
          /\ (size buffer < k * vertex_count ->
              fst ((let* elements := read_array ty vertex_count false in
                    ret (map f elements)) buffer) = Throw BoundsViolation))
  as Hshape.
{ intros T U ty f k <- Hk.
  destruct (mapped_array ty f vertex_count buffer Hok Hh Hk Hcount) as [Hfit Hover].
  split; [|exact Hover].
  intros Hin. destruct (Hfit Hin) as (values & r' & Hread & Hlen & _).
  by exists values, r'. }
split; [|split; [|split]].
- by apply (Hshape _ _ (array_t uint16_t 3)).
- by apply (Hshape _ _ (array_t int8_t 3)).
- by apply (Hshape _ _ (array_t int16_t 2)).
- by apply (Hshape _ _ uint32_t).
Qed.

(** What the decoders make of vertex [i]: a position is three [u16]
  components at bytes [6 i], each range-converted from [0, 65535] to the
  extent of the vertex box on its axis; a normal is three signed bytes at
  [3 i], each divided by 127; a texture coordinate is two [i16] at [4 i]
  scaled by 1/2048, the second then replaced by one minus its fractional
  part. *)
Theorem ps2_vertex_layout (vertex_count : Z)
  (vertex_box : vec3 float * vec3 float) (buffer r' : Ucfb_reader) (i : nat) :
reader_ok buffer -> _head buffer = 0 -> 0 <= vertex_count < 2 ^ 32 ->
(i < Z.to_nat vertex_count)%nat ->
let u16 pos := le_value (bytes_at (_data buffer) pos 2) in
let i8 pos := to_signed 8 (le_value (bytes_at (_data buffer) pos 1)) in
let i16 pos := to_signed 16 (le_value (bytes_at (_data buffer) pos 2)) in
let old_range := (float_of_int 0, float_of_int 65535) in
let factor := fdiv (float_of_int 1) (float_of_int 2048) in
(forall positions,
   read_positions_buffer vertex_count vertex_box buffer = (Ok positions, r') ->
   positions !! i
   = Some (mkVec3
             (range_convert (float_of_int (u16 (6 * Z.of_nat i))) old_range
                (x3 (fst vertex_box), x3 (snd vertex_box)))
             (range_convert (float_of_int (u16 (6 * Z.of_nat i + 2))) old_range
                (y3 (fst vertex_box), y3 (snd vertex_box)))
             (range_convert (float_of_int (u16 (6 * Z.of_nat i + 4))) old_range
                (z3 (fst vertex_box), z3 (snd vertex_box)))))
/\ (forall normals,
      read_normals_buffer vertex_count buffer = (Ok normals, r') ->
      normals !! i
      = Some (mkVec3
                (fdiv (float_of_int (i8 (3 * Z.of_nat i))) (float_of_int 127))
                (fdiv (float_of_int (i8 (3 * Z.of_nat i + 1))) (float_of_int 127))
                (fdiv (float_of_int (i8 (3 * Z.of_nat i + 2))) (float_of_int 127))))
/\ (forall uv_coords,
      read_uv_buffer vertex_count buffer = (Ok uv_coords, r') ->
      uv_coords !! i
      = Some (mkVec2
                (fmul (float_of_int (i16 (4 * Z.of_nat i))) factor)
                (fsub (float_of_int 1)
                   (fract (fmul (float_of_int (i16 (4 * Z.of_nat i + 2))) factor))))).
Proof.
intros Hok Hh Hcount Hi u16 i8 i16 old_range factor.
assert (forall (T U : Type) (ty : Trivial T) (f : T -> U) (values : list U),
          0 <= sizeof ty < 2 ^ 30 ->
          (let* elements := read_array ty vertex_count false in
           ret (map f elements)) buffer = (Ok values, r') ->
          values !! i
          = Some (f (view_type_as ty
                       (bytes_at (_data buffer) (Z.of_nat i * sizeof ty) (sizeof ty)))))
  as Hshape.
{ intros T U ty f values Hty Hread.
  destruct (mapped_array ty f vertex_count buffer Hok Hh Hty Hcount) as [Hfit Hover].
  destruct (Z.ltb_spec (_size buffer) (sizeof ty * vertex_count)) as [Hout|Hin].
  - specialize (Hover Hout). cbv zeta in Hover. by rewrite Hread in Hover.
  - destruct (Hfit Hin) as (values' & r'' & Hread' & _ & Hat).
    cbv zeta in Hread'. rewrite Hread in Hread'. injection Hread' as <- _.
    by apply Hat. }
split; [|split].
- intros positions Hread.
  rewrite (Hshape _ _ (array_t uint16_t 3) _ positions ltac:(simpl; lia) Hread).
  cbv beta zeta. cbn [fst snd]. rewrite !component_array by (simpl; lia).
  change (sizeof uint16_t) with 2. change (sizeof (array_t uint16_t 3)) with 6.
  rewrite !bytes_at_bytes_at by lia.
  subst u16. cbv beta. change (view_type_as uint16_t) with le_value.
  replace (Z.of_nat i * 6 + Z.of_nat 0 * 2) with (6 * Z.of_nat i) by lia.
  replace (Z.of_nat i * 6 + Z.of_nat 1 * 2) with (6 * Z.of_nat i + 2) by lia.
  replace (Z.of_nat i * 6 + Z.of_nat 2 * 2) with (6 * Z.of_nat i + 4) by lia.
  done.
- intros normals Hread.
  rewrite (Hshape _ _ (array_t int8_t 3) _ normals ltac:(simpl; lia) Hread).
  cbv beta zeta. rewrite !component_array by (simpl; lia).
  change (sizeof int8_t) with 1. change (sizeof (array_t int8_t 3)) with 3.
  rewrite !bytes_at_bytes_at by lia.
  subst i8. cbv beta.
  change (view_type_as int8_t) with (fun bs => to_signed 8 (le_value bs)). cbv beta.
  replace (Z.of_nat i * 3 + Z.of_nat 0 * 1) with (3 * Z.of_nat i) by lia.
  replace (Z.of_nat i * 3 + Z.of_nat 1 * 1) with (3 * Z.of_nat i + 1) by lia.
  replace (Z.of_nat i * 3 + Z.of_nat 2 * 1) with (3 * Z.of_nat i + 2) by lia.
  done.
- intros uv_coords Hread.
  rewrite (Hshape _ _ (array_t int16_t 2) _ uv_coords ltac:(simpl; lia) Hread).
  cbv beta zeta. cbn [x2 y2]. rewrite !component_array by (simpl; lia).
  change (sizeof int16_t) with 2. change (sizeof (array_t int16_t 2)) with 4.
  rewrite !bytes_at_bytes_at by lia.
  subst i16. cbv beta.
  change (view_type_as int16_t) with (fun bs => to_signed 16 (le_value bs)). cbv beta.
  replace (Z.of_nat i * 4 + Z.of_nat 0 * 2) with (4 * Z.of_nat i) by lia.
  replace (Z.of_nat i * 4 + Z.of_nat 1 * 2) with (4 * Z.of_nat i + 2) by lia.
  done.
Qed.

(** [read_skin_buffer] gives every vertex the one bone index stored for it,
  three times over, with the weights (1, 0, 0); [read_colour_buffer]
  unpacks the [u32] at [4 i] and swaps its first and third lanes;
  [read_strip_buffer] returns the [index_count] stored [u16] values as
  they are, and succeeds exactly when they fit in the chunk. *)
Theorem ps2_skin_colour_strip_layout (count : Z) (buffer : Ucfb_reader) :
reader_ok buffer -> _head buffer = 0 -> 0 <= count < 2 ^ 32 ->
(forall skin r' (i : nat),
   read_skin_buffer count buffer = (Ok skin, r') -> (i < Z.to_nat count)%nat ->
   let bone := le_value (bytes_at (_data buffer) (Z.of_nat i) 1) in
   skin !! i
   = Some (msh.Skin_entry.mk _ (bone, bone, bone)
             (mkVec3 (float_of_int 1) (float_of_int 0) (float_of_int 0))))
/\ (forall colours r' (i : nat),
      read_colour_buffer count buffer = (Ok colours, r') ->
      (i < Z.to_nat count)%nat ->
      let unpacked :=
        unpackSnorm4x8 (le_value (bytes_at (_data buffer) (4 * Z.of_nat i) 4)) in
      colours !! i
      = Some (mkVec4 (z4 unpacked) (y4 unpacked) (x4 unpacked) (w4 unpacked)))
/\ (2 * count <= size buffer ->
    exists strip r',
      read_strip_buffer count buffer = (Ok strip, r')
      /\ length strip = Z.to_nat count
      /\ forall i : nat, (i < Z.to_nat count)%nat ->
           strip !! i = Some (le_value (bytes_at (_data buffer) (2 * Z.of_nat i) 2)))
/\ (size buffer < 2 * count ->
    fst (read_strip_buffer count buffer) = Throw BoundsViolation).
Proof.
intros Hok Hh Hcount.
assert (forall (T U : Type) (ty : Trivial T) (f : T -> U) (values : list U)
               (r' : Ucfb_reader) (i : nat),
          0 <= sizeof ty < 2 ^ 30 ->
          (let* elements := read_array ty count false in
           ret (map f elements)) buffer = (Ok values, r') ->
          (i < Z.to_nat count)%nat ->
          values !! i
          = Some (f (view_type_as ty
                       (bytes_at (_data buffer) (Z.of_nat i * sizeof ty) (sizeof ty)))))
  as Hshape.
{ intros T U ty f values r' i Hty Hread Hi.
  destruct (mapped_array ty f count buffer Hok Hh Hty Hcount) as [Hfit Hover].
  destruct (Z.ltb_spec (_size buffer) (sizeof ty * count)) as [Hout|Hin].
  - specialize (Hover Hout). cbv zeta in Hover. by rewrite Hread in Hover.
  - destruct (Hfit Hin) as (values' & r'' & Hread' & _ & Hat).
    cbv zeta in Hread'. rewrite Hread in Hread'. injection Hread' as <- _.
    by apply Hat. }
split; [|split; [|split]].
- intros skin r' i Hread Hi bone.
  rewrite (Hshape _ _ uint8_t _ skin r' i ltac:(simpl; lia) Hread Hi).
  subst bone. change (sizeof uint8_t) with 1.
  by replace (Z.of_nat i * 1) with (Z.of_nat i) by lia.
- intros colours r' i Hread Hi unpacked.
  rewrite (Hshape _ _ uint32_t _ colours r' i ltac:(simpl; lia) Hread Hi).
  subst unpacked. change (sizeof uint32_t) with 4.
  by replace (Z.of_nat i * 4) with (4 * Z.of_nat i) by lia.
- intros Hin.
  destruct (read_array_from 0 uint16_t count buffer Hok Hh ltac:(simpl; lia) Hcount)
    as [Hfit _].
  unfold read_strip_buffer, bind. rewrite Hfit by (simpl; unfold size in Hin; lia).
  unfold ret. eexists _, _. split; [done|].
  split; [apply view_elements_length|].
  intros i Hi. rewrite view_elements_lookup by (done || simpl; lia).
  change (sizeof uint16_t) with 2. change (Z.to_nat 0) with 0%nat.
  rewrite drop_0. by replace (Z.of_nat i * 2) with (2 * Z.of_nat i) by lia.
- intros Hout.
  destruct (read_array_from 0 uint16_t count buffer Hok Hh ltac:(simpl; lia) Hcount)
    as [_ Hover].
  unfold read_strip_buffer, bind. by rewrite Hover by (simpl; unfold size in Hout; lia).
Qed.
End VertexBuffers.

Lemma ps2_vertex_buffers_fit_witness :
  let buffer := reader_over "POSI" (replicate 18 Byte.xff) in
  reader_ok buffer /\ _head buffer = 0 /\ 0 <= 3 < 2 ^ 32
  /\ 6 * 3 <= size buffer
  /\ exists positions r',
       read_positions_buffer (FM := SymbolicFloat.model) 3 unit_box buffer
       = (Ok positions, r')
       /\ length positions = Z.to_nat 3.
Proof.
  intros buffer.
  assert (reader_ok buffer) as Hok by (unfold reader_ok; simpl; lia).
  split; [exact Hok|]. split; [reflexivity|]. split; [lia|].
  split; [simpl; lia|].
  exact (proj1 (proj1 (ps2_vertex_buffers_fit (FM := SymbolicFloat.model) 3 unit_box
                         buffer Hok eq_refl ltac:(lia)))
           ltac:(simpl; lia)).
Defined.

Lemma ps2_vertex_layout_witness :
  let buffer := reader_over "NORM" (bytes_of [127; 0; 129; 1; 2; 255]) in
  reader_ok buffer /\ _head buffer = 0 /\ 0 <= 2 < 2 ^ 32 /\ (1 < Z.to_nat 2)%nat
  /\ forall normals r',
       read_normals_buffer (FM := SymbolicFloat.model) 2 buffer = (Ok normals, r') ->
       normals !! 1%nat
       = Some (mkVec3
                 (SymbolicFloat.Div (SymbolicFloat.OfInt 1) (SymbolicFloat.OfInt 127))
                 (SymbolicFloat.Div (SymbolicFloat.OfInt 2) (SymbolicFloat.OfInt 127))
                 (SymbolicFloat.Div (SymbolicFloat.OfInt (-1)) (SymbolicFloat.OfInt 127))).
Proof.
  intros buffer.
  assert (reader_ok buffer) as Hok by (unfold reader_ok; simpl; lia).
  split; [exact Hok|]. split; [reflexivity|]. split; [lia|]. split; [simpl; lia|].
  intros normals r'.
  exact (proj1 (proj2 (ps2_vertex_layout (FM := SymbolicFloat.model) 2 unit_box buffer
                         r' 1 Hok eq_refl ltac:(lia) ltac:(simpl; lia)))
           normals).
Defined.

Lemma ps2_skin_colour_strip_layout_witness :
  let buffer := reader_over "STRP" (bytes_of [0; 128; 1; 128; 2; 0]) in
  reader_ok buffer /\ _head buffer = 0 /\ 0 <= 3 < 2 ^ 32 /\ 2 * 3 <= size buffer
  /\ exists strip r',
       read_strip_buffer 3 buffer = (Ok strip, r')
       /\ length strip = Z.to_nat 3
       /\ forall i : nat, (i < Z.to_nat 3)%nat ->
            strip !! i = Some (le_value (bytes_at (_data buffer) (2 * Z.of_nat i) 2)).
Proof.
  intros buffer.
  assert (reader_ok buffer) as Hok by (unfold reader_ok; simpl; lia).
  split; [exact Hok|]. split; [reflexivity|]. split; [lia|]. split; [simpl; lia|].
  exact (proj1 (proj2 (proj2 (ps2_skin_colour_strip_layout (FM := SymbolicFloat.model)
                                3 buffer Hok eq_refl ltac:(lia))))
           ltac:(simpl; lia)).
Defined.

(** ** What the material decoders leave alone *)

Section Related.
Context {S : Type} (P : S -> S -> Prop).
Hypothesis P_refl : forall s, P s s.
Hypothesis P_trans : forall s1 s2 s3, P s1 s2 -> P s2 s3 -> P s1 s3.

Lemma related_ret {A : Type} (a : A) : related P (ret a).
Proof. intros s. apply P_refl. Qed.

Lemma related_lift_outcome {A : Type} (o : outcome A) : related P (lift_outcome o).
Proof. intros s. apply P_refl. Qed.

Lemma related_bind {A B : Type} (m : M S A) (k : A -> M S B) :
related P m -> (forall a, related P (k a)) -> related P (let* x := m in k x).
Proof.
intros Hm Hk s. unfold bind. specialize (Hm s).
destruct (m s) as [[a|e] s1]; simpl in *; [|done].
eapply P_trans; [exact Hm|apply Hk].
Qed.

Lemma related_when (b : bool) (m : M S unit) : related P m -> related P (when b m).
Proof. intros Hm s. unfold when. destruct b; [apply Hm|apply P_refl]. Qed.

Lemma related_by_value {R A : Type} (r : R) (callee : M R A) :
related P (by_value r callee).
Proof. intros s. apply P_refl. Qed.
End Related.

Section RelatedBody.
Context {R O : Type} (Q : O -> O -> Prop).
Hypothesis Q_refl : forall o, Q o o.

Lemma related_rd {A : Type} (m : M R A) : related (on_object Q) (rd m).
Proof.
intros s. unfold rd, on_object. destruct (m (fst s)). simpl. apply Q_refl.
Qed.

Lemma related_upd (f : O -> O) :
(forall o, Q o (f o)) -> related (on_object Q) (upd (R := R) f).
Proof. intros Hf s. apply Hf. Qed.

Lemma related_out_ref {A : Type} (m : M O A) :
related Q m -> related (on_object Q) (out_ref (R := R) m).
Proof.
intros Hm s. unfold out_ref, on_object. specialize (Hm (snd s)).
by destruct (m (snd s)).
Qed.

Lemma related_local {A : Type} (r : R) (body : M (R * O) A) :
related (on_object Q) body -> related Q (local r body).
Proof.
intros Hbody out. unfold local. specialize (Hbody (r, out)).
by destruct (body (r, out)).
Qed.
End RelatedBody.

Lemma render_flags_subset_refl (flags : msh.Render_flags.t) :
  render_flags_subset flags flags.
Proof. by repeat split. Qed.

Lemma render_flags_subset_trans (f1 f2 f3 : msh.Render_flags.t) :
  render_flags_subset f1 f2 -> render_flags_subset f2 f3 -> render_flags_subset f1 f3.
Proof. unfold render_flags_subset. intuition. Qed.

Lemma render_flags_subset_set_flags (flags to_set : msh.Render_flags.t) :
  render_flags_subset flags (msh.set_flags flags to_set).
Proof. unfold render_flags_subset. simpl. repeat split; by intros ->. Qed.

Section MaterialFrames.
Context {FM : FloatModel}.

Lemma material_frame_refl (out : msh.Material.t) : material_frame out out.
Proof. split; [done|]. split; [done|]. apply render_flags_subset_refl. Qed.

Lemma material_frame_trans (o1 o2 o3 : msh.Material.t) :
material_frame o1 o2 -> material_frame o2 o3 -> material_frame o1 o3.
Proof.
intros (Hn1 & Ht1 & Hf1) (Hn2 & Ht2 & Hf2).
split; [congruence|]. split; [congruence|].
by eapply render_flags_subset_trans.
Qed.

Lemma swbf1_frame_refl (out : msh.Material.t) : swbf1_frame out out.
Proof. split; [apply material_frame_refl|done]. Qed.

Lemma swbf1_frame_trans (o1 o2 o3 : msh.Material.t) :
swbf1_frame o1 o2 -> swbf1_frame o2 o3 -> swbf1_frame o1 o3.
Proof.
intros (Hm1 & Hd1 & Ht1 & Hv1 & Ha1) (Hm2 & Hd2 & Ht2 & Hv2 & Ha2).
split; [by eapply material_frame_trans|]. repeat split; congruence.
Qed.

Lemma dialect2_frame_refl (out : msh.Material.t) : dialect2_frame out out.
Proof. split; [apply material_frame_refl|done]. Qed.

Lemma dialect2_frame_trans (o1 o2 o3 : msh.Material.t) :
dialect2_frame o1 o2 -> dialect2_frame o2 o3 -> dialect2_frame o1 o3.
Proof.
intros (Hm1 & Ht1) (Hm2 & Ht2).
split; [by eapply material_frame_trans|congruence].
Qed.

(** An assignment to one member: every other member is as before, and
  [set_flags] only adds flags. *)
Ltac frame_assignment :=
intros ?; repeat split; try done; simpl; by intros ->.

Ltac solve_frame refl trans :=
repeat first
  [ apply related_ret; apply refl
  | apply (related_rd _ refl)
  | apply related_upd; frame_assignment
  | apply related_when; [intros ?; unfold on_object; apply refl|]
  | apply related_bind;
      [ intros ? ? ?; unfold on_object; apply trans | | intros ? ] ].

Lemma read_material_swbf1_frame (material : Ucfb_reader_strict (mn "MTRL")) :
related swbf1_frame (read_material_swbf1 material).
Proof.
unfold read_material_swbf1, read_swbf1_params. apply related_local.
solve_frame swbf1_frame_refl swbf1_frame_trans.
Qed.

Lemma read_material_dialect2_frame (material : Ucfb_reader_strict (mn "MTRL")) :
24 <= size material -> related dialect2_frame (read_material material).
Proof.
intros Hsize. unfold read_material. change (sizeof Material_info_t) with 24.
destruct (Z.ltb_spec (size material) 24); [lia|].
apply related_local. solve_frame dialect2_frame_refl dialect2_frame_trans.
Qed.

Lemma read_material_common_frame (material : Ucfb_reader_strict (mn "MTRL")) :
related material_frame (read_material material).
Proof.
intros out. destruct (Z.ltb_spec (size material) 24) as [Hsmall|Hlarge].
- unfold read_material. change (sizeof Material_info_t) with 24.
  destruct (Z.ltb_spec (size material) 24); [|lia].
  apply read_material_swbf1_frame.
- by apply read_material_dialect2_frame.
Qed.

(** Whatever a [MTRL] chunk holds and whether decoding it returns or throws,
  [read_material] leaves the material's name and textures as they were and
  never clears a render flag that was set.  The dialect-1 decoder moreover
  leaves the diffuse colour, the dialect-2 render type, the vertex
  lighting switch and the attached light alone, and a chunk of 24 bytes
  or more leaves the dialect-1 render type alone. *)
Theorem read_material_frame (material : Ucfb_reader_strict (mn "MTRL"))
  (out : msh.Material.t) :
material_frame out (snd (read_material material out))
/\ swbf1_frame out (snd (read_material_swbf1 material out))
/\ (24 <= size material -> dialect2_frame out (snd (read_material material out))).
Proof.
split; [apply read_material_common_frame|].
split; [apply read_material_swbf1_frame|].
intros Hsize. by apply read_material_dialect2_frame.
Qed.
End MaterialFrames.

(** ** The model a PS2 segment is decoded into *)

Lemma related_bind_by_value {R S A B : Type} (P : S -> S -> Prop) (r : R)
    (callee : M R A) (k : A -> M S B) :
  (forall s, P s s) ->
  (forall a, fst (callee r) = Ok a -> related P (k a)) ->
  related P (let* x := by_value r callee in k x).
Proof.
  intros Hrefl Hk s. rewrite bind_by_value.
  destruct (fst (callee r)) as [a|e] eqn:Hres; [by apply Hk|apply Hrefl].
Qed.

Lemma related_with_strict {S A : Type} (P : S -> S -> Prop) (type_mn : Magic_number)
    (child : Ucfb_reader) (callee : Ucfb_reader_strict type_mn -> M S A) :
  (forall s, P s s) ->
  (forall c, related P (callee c)) -> related P (with_strict type_mn child callee).
Proof.
  intros Hrefl Hcallee s. unfold with_strict, bind, lift_outcome.
  destruct (Ucfb_reader_strict_of type_mn child); [apply Hcallee|apply Hrefl].
Qed.

Lemma related_while_reader {O : Type} (P : Ucfb_reader * O -> Ucfb_reader * O -> Prop)
    (body : M (Ucfb_reader * O) unit) (fuel : nat) :
  (forall s, P s s) -> (forall s1 s2 s3, P s1 s2 -> P s2 s3 -> P s1 s3) ->
  related P body -> related P (while_reader fuel body).
Proof.
  intros Hrefl Htrans Hbody. induction fuel as [|fuel IH]; intros s; simpl.
  - apply Hrefl.
  - destruct (operator_bool (fst s)); [|apply Hrefl].
    by apply related_bind.
Qed.

Lemma mapped_array_Ok_length {T U : Type} (ty : Trivial T) (f : T -> U) (count : Z)
    (r : Ucfb_reader) (values : list U) :
  fst ((let* elements := read_array ty count false in ret (map f elements)) r)
  = Ok values ->
  length values = Z.to_nat count.
Proof.
  unfold bind. destruct (read_array ty count false r) as [[elements|e] r'] eqn:Hread;
    simpl; [|done].
  intros [= <-]. rewrite length_map. by eapply read_array_Ok_length.
Qed.

Lemma plain_array_Ok_length {T : Type} (ty : Trivial T) (count : Z)
    (r : Ucfb_reader) (values : list T) :
  fst ((let* elements := read_array ty count false in ret elements) r) = Ok values ->
  length values = Z.to_nat count.
Proof.
  unfold bind. destruct (read_array ty count false r) as [[elements|e] r'] eqn:Hread;
    simpl; [|done].
  intros [= <-]. by eapply read_array_Ok_length.
Qed.

Lemma reader_ok_child_at (r : Ucfb_reader) : reader_ok r -> reader_ok (child_at r).
Proof.
  intros (Hh & Hs & Hd). unfold reader_ok, child_at. simpl.
  split; [unfold_wrap; lia|]. split; [apply uint32_range|].
  rewrite length_drop. lia.
Qed.

(** The two counts at the start of the [INFO] child of a PS2 segment. *)
Lemma read_two_counts (info : Ucfb_reader) (counts : Z * Z) :
  reader_ok info -> _head info = 0 ->
  fst ((let* vertex_count := read_trivial uint32_t false in
        let* index_count := read_trivial uint32_t false in
        ret (vertex_count, index_count)) info) = Ok counts ->
  counts = (view_type_as uint32_t (bytes_at (_data info) 0 4),
            view_type_as uint32_t (bytes_at (_data info) 4 4))
  /\ 8 <= _size info.
Proof.
  intros Hok Hh. unfold bind.
  destruct (Z.ltb_spec (_size info) 4) as [Hshort|Hlong].
  { rewrite read_trivial_overflows; rewrite ?Hh; simpl; (done || lia). }
  rewrite read_trivial_aligned_ok; rewrite ?Hh; simpl sizeof; [|done..].
  assert (reader_ok (set_head (0 + 4) info)) as Hok4
    by (apply reader_ok_set_head; [done|unfold_wrap; lia]).
  destruct (Z.ltb_spec (_size info) 8) as [Hshort8|Hlong8].
  { rewrite read_trivial_overflows; simpl; (done || lia). }
  rewrite read_trivial_aligned_ok; simpl; [|done..].
  by intros [= <-].
Qed.

Section SegmentModel.
Context {FM : FloatModel}.

Lemma read_texture_name_length (texture_name : Ucfb_reader_strict (mn "TNAM"))
  (out : list (list Byte.byte)) :
length (snd (read_texture_name texture_name out)) = length out.
Proof.
unfold read_texture_name, noexcept, local, bind, rd, upd. cbn [fst snd].
destruct (read_trivial uint32_t false texture_name) as [[index|e] r1]; simpl; [|done].
destruct (read_string false r1) as [[name|e] r2]; simpl; [|done].
destruct (index <? _); [|done]. by rewrite length_insert.
Qed.

Section Shape.
Variables (lod : msh.Lod.t) (vertex_count index_count : Z).

Lemma shape_kept_refl (model : msh.Model.t) : (shape_kept lod vertex_count index_count) model model.
Proof. by intros H. Qed.

Lemma shape_kept_trans (m1 m2 m3 : msh.Model.t) :
(shape_kept lod vertex_count index_count) m1 m2 -> (shape_kept lod vertex_count index_count) m2 m3 -> (shape_kept lod vertex_count index_count) m1 m3.
Proof. unfold shape_kept. auto. Qed.

Lemma shape_kept_material (m : M msh.Material.t unit) :
(forall out, msh.Material.name (snd (m out)) = msh.Material.name out
             /\ length (msh.Material.textures (snd (m out)))
                = length (msh.Material.textures out)) ->
related (shape_kept lod vertex_count index_count) (on_material m).
Proof.
intros Hm model (Hlod & Hname & Htex & Hrest). unfold on_material.
destruct (Hm (msh.Model.material model)) as [Hn Ht].
destruct (m (msh.Model.material model)) as [res material'].
unfold ps2_model_shape. simpl in *.
split; [done|]. split; [congruence|]. split; [congruence|]. done.
Qed.

Ltac shape_assignment :=
intros ? (Hlod & Hname & Htex & Hstrips & Hpos & Hnorm & Huv & Hcol & Hskin);
repeat split; simpl; try done.

Lemma process_segment_ps2_child_shape (model_info : Model_info) :
related (on_object (shape_kept lod vertex_count index_count))
  (process_segment_ps2_child vertex_count index_count model_info).
Proof.
assert (forall s : Ucfb_reader * msh.Model.t, on_object (shape_kept lod vertex_count index_count) s s) as Hrefl
  by (intros s; apply shape_kept_refl).
assert (forall s1 s2 s3 : Ucfb_reader * msh.Model.t,
          on_object (shape_kept lod vertex_count index_count) s1 s2 -> on_object (shape_kept lod vertex_count index_count) s2 s3 ->
          on_object (shape_kept lod vertex_count index_count) s1 s3) as Htrans
  by (intros s1 s2 s3; apply shape_kept_trans).
unfold process_segment_ps2_child.
apply related_bind; [exact Htrans|apply related_rd, shape_kept_refl|].
intros child.
repeat match goal with
       | |- related _ (if ?b then _ else _) => destruct b
       end;
  try (apply related_ret; exact Hrefl);
  apply related_with_strict; try exact Hrefl; intros c.
- (* MTRL *)
  apply related_out_ref, shape_kept_material. intros out.
  destruct (read_material_common_frame c out) as (Hn & Ht & _).
  by rewrite Hn, Ht.
- (* RTYP *)
  apply related_bind_by_value; [exact Hrefl|]. intros value _.
  apply related_upd. shape_assignment.
- (* MNAM *)
  apply related_out_ref. intros model Hshape.
  unfold read_material_name, local, bind, rd, upd. cbn [fst snd].
  destruct (read_string false c) as [[name|e] r]; simpl; [|exact Hshape].
  revert model Hshape. shape_assignment.
- (* TNAM *)
  apply related_out_ref, shape_kept_material. intros out. unfold on_textures.
  pose proof (read_texture_name_length c (msh.Material.textures out)) as Hlen.
  by destruct (read_texture_name c (msh.Material.textures out)).
- (* STRP *)
  apply related_bind_by_value; [exact Hrefl|]. intros strip Hread.
  apply related_upd. shape_assignment.
  apply Forall_app. split; [done|]. constructor; [|done].
  by eapply plain_array_Ok_length.
- (* POSI *)
  apply related_bind_by_value; [exact Hrefl|]. intros positions Hread.
  apply related_upd. shape_assignment.
  right. unfold read_positions_buffer in Hread.
  by eapply mapped_array_Ok_length.
- (* NORM *)
  apply related_bind_by_value; [exact Hrefl|]. intros normals Hread.
  apply related_upd. shape_assignment.
  right. unfold read_normals_buffer in Hread.
  by eapply mapped_array_Ok_length.
- (* TEX0 *)
  apply related_bind_by_value; [exact Hrefl|]. intros texture_coords Hread.
  apply related_upd. shape_assignment.
  right. unfold read_uv_buffer in Hread.
  by eapply mapped_array_Ok_length.
- (* COL0 *)
  apply related_bind_by_value; [exact Hrefl|]. intros colours Hread.
  apply related_upd. shape_assignment.
  right. unfold read_colour_buffer in Hread.
  by eapply mapped_array_Ok_length.
- (* BMAP *)
  apply related_bind_by_value; [exact Hrefl|]. intros bone_map _.
  apply related_bind; [exact Htrans| |intros _]; apply related_upd; shape_assignment.
- (* BONE *)
  apply related_bind_by_value; [exact Hrefl|]. intros skin Hread.
  apply related_upd. shape_assignment.
  right. unfold read_skin_buffer in Hread.
  by eapply mapped_array_Ok_length.
- (* BNAM *)
  apply related_bind_by_value; [exact Hrefl|]. intros parent _.
  apply related_upd. shape_assignment.
Qed.
End Shape.

(** The part of [process_segment_ps2] that works on the model. *)
Lemma process_segment_ps2_body_shape (segment : Ucfb_reader) (lod : msh.Lod.t)
    (model_info : Model_info) (s' : Ucfb_reader * msh.Model.t) :
  reader_ok segment ->
  (let* info := rd (read_child_strict (mn "INFO") false) in
   let* counts :=
     by_value info
       (let* vertex_count := read_trivial uint32_t false in
        let* index_count := read_trivial uint32_t false in
        ret (vertex_count, index_count)) in
   while_ (process_segment_ps2_child (fst counts) (snd counts) model_info))
    (segment, msh.Model.set_lod lod msh.Model.default) = (Ok tt, s') ->
  child_fits segment /\ child_magic_at segment = mn "INFO"
  /\ 8 <= size (child_at segment)
  /\ ps2_model_shape lod
       (view_type_as uint32_t (bytes_at (_data (child_at segment)) 0 4))
       (view_type_as uint32_t (bytes_at (_data (child_at segment)) 4 4))
       (snd s').
Proof.
  intros Hok.
  destruct (read_child_strict (mn "INFO") false segment) as [[info|e] r1] eqn:Hchild.
  2:{ erewrite bind_rd_throw; [|exact Hchild]. done. }
  erewrite bind_rd; [|exact Hchild]. cbv beta. cbn [fst snd].
  destruct (read_child_strict_Ok_inv _ _ _ _ _ Hok Hchild)
    as (Hfits & Hmagic & -> & ->).
  rewrite bind_by_value.
  match goal with
  | |- context [match ?o with Ok _ => _ | Throw _ => _ end] =>
      destruct o as [counts|e] eqn:Hcounts; [|done]
  end.
  destruct (read_two_counts (child_at segment) counts
              (reader_ok_child_at segment Hok) eq_refl Hcounts) as [-> Hsize].
  cbn [fst snd]. intros Hloop.
  split; [done|]. split; [done|]. split; [done|].
  unfold while_ in Hloop.
  match type of Hloop with
  | while_reader ?fuel ?body ?s = _ =>
      pose proof (related_while_reader
                    (on_object (shape_kept lod _ _)) body fuel
                    ltac:(intros ?; apply shape_kept_refl)
                    ltac:(intros ? ? ?; apply shape_kept_trans)
                    (process_segment_ps2_child_shape lod _ _ model_info) s) as Hkept
  end.
  rewrite Hloop in Hkept. apply Hkept.
  unfold ps2_model_shape, absent_or_sized. simpl.
  repeat split; (done || by left).
Qed.

(** [process_segment_ps2] adds a model to the builder only as its last step:
    when it throws the builder is as it was, and a segment whose first child
    is not [INFO] is refused.  When it returns, exactly one model was
    appended; it has the level of detail passed in, its name is its
    material's name, it has four texture slots, every strip has
    [index_count] indices and every vertex attribute is absent or has
    [vertex_count] entries, the two counts being the first two [u32] of the
    [INFO] child. *)
Theorem process_segment_ps2_model (segment : Ucfb_reader_strict (mn "segm"))
    (lod : msh.Lod.t) (model_info : Model_info) (builder : msh.Builder.t) :
  reader_ok segment ->
  let result := process_segment_ps2 segment lod model_info builder in
  let info := child_at segment in
  let vertex_count := view_type_as uint32_t (bytes_at (_data info) 0 4) in
  let index_count := view_type_as uint32_t (bytes_at (_data info) 4 4) in
  (forall e, fst result = Throw e -> snd result = builder)
  /\ (child_fits segment -> child_magic_at segment <> mn "INFO" ->
      result = (Throw UnexpectedMagic, builder))
  /\ (fst result = Ok tt ->
      child_fits segment /\ child_magic_at segment = mn "INFO" /\ 8 <= size info
      /\ exists model,
           snd result = builder ++ [model]
           /\ ps2_model_shape lod vertex_count index_count model).
Proof.
  intros Hok result info vertex_count index_count.
  subst result. unfold process_segment_ps2.
  pose proof (process_segment_ps2_body_shape segment lod model_info) as Hbody.
  unfold bind at 1.
  match goal with
  | |- context [let '(res, s) := ?body (segment, ?model) in _] =>
      destruct (body (segment, model)) as [[[]|e'] s] eqn:Hrun
  end; cbn [fst snd].
  - split; [done|]. split.
    + intros Hfits Hmagic.
      destruct (Hbody s Hok Hrun) as (_ & Hmagic' & _). done.
    + intros _. destruct (Hbody s Hok Hrun) as (Hfits & Hmagic & Hsize & Hshape).
      split; [done|]. split; [done|]. split; [done|].
      by exists (snd s).
  - split; [done|]. split; [|done].
    intros Hfits Hmagic. revert Hrun.
    erewrite bind_rd_throw;
      [|exact (read_child_strict_mismatch (mn "INFO") false segment Hok Hfits Hmagic)].
    by intros [= <- _].
Qed.
End SegmentModel.

Lemma process_segment_ps2_model_witness :
  let result :=
    process_segment_ps2 ps2_scenario_segment msh.Lod.two ps2_scenario_info [] in
  reader_ok ps2_scenario_segment /\ fst result = Ok tt
  /\ exists model,
       snd result = [] ++ [model]
       /\ ps2_model_shape msh.Lod.two
            (view_type_as uint32_t (bytes_at (_data (child_at ps2_scenario_segment)) 0 4))
            (view_type_as uint32_t (bytes_at (_data (child_at ps2_scenario_segment)) 4 4))
            model.
Proof.
  intros result.
  assert (reader_ok ps2_scenario_segment) as Hok by (unfold reader_ok; simpl; lia).
  assert (fst result = Ok tt) as Hrun by (vm_compute; reflexivity).
  split; [exact Hok|]. split; [exact Hrun|].
  exact (proj2 (proj2 (proj2
           (proj2 (proj2 (process_segment_ps2_model (FM := SymbolicFloat.model)
                            ps2_scenario_segment msh.Lod.two ps2_scenario_info []
                            Hok))
              Hrun)))).
Defined.

(** ** The dialect-1 material decoder *)

Lemma bind_assoc {S A B C : Type} (m : M S A) (k1 : A -> M S B) (k2 : B -> M S C)
    (s : S) :
  (let* y := (let* x := m in k1 x) in k2 y) s
  = (let* x := m in let* y := k1 x in k2 y) s.
Proof. unfold bind. by destruct (m s) as [[a|e] s1]. Qed.

Lemma bind_when_true {S B : Type} (m : M S unit) (k : M S B) (s : S) :
  (when true m ;;; k) s = (m ;;; k) s.
Proof. done. Qed.

Lemma bind_when_false {S B : Type} (m : M S unit) (k : M S B) (s : S) :
  (when false m ;;; k) s = k s.
Proof. done. Qed.

(** An aligned read of a four byte value at a head that is a multiple of
    four, inside a body. *)
Lemma bind_rd_read4 {T O B : Type} (ty : Trivial T) (h : Z) (r : Ucfb_reader) (o : O)
    (k : T -> M (Ucfb_reader * O) B) :
  reader_ok r -> sizeof ty = 4 -> 0 <= h < 2 ^ 32 -> h mod 4 = 0 ->
  (let* x := rd (read_trivial ty false) in k x) (set_head h r, o)
  = if _size r <? h + 4
    then (Throw BoundsViolation, (set_head (h + 4) r, o))
    else k (view_type_as ty (bytes_at (_data r) h 4)) (set_head (h + 4) r, o).
Proof.
  intros Hok Hty Hh Hmod.
  assert (reader_ok (set_head h r)) as Hokh
    by (apply reader_ok_set_head; [done|unfold_wrap; lia]).
  destruct (Z.ltb_spec (_size r) (h + 4)) as [Hout|Hin].
  - erewrite bind_rd_throw;
      [|apply read_trivial_overflows; rewrite ?Hty; simpl; (done || lia)].
    cbn [fst snd]. by rewrite Hty, set_head_set_head.
  - erewrite bind_rd;
      [|apply read_trivial_aligned_ok; rewrite ?Hty; simpl; try done; try lia].
    + cbn [fst snd]. by rewrite Hty, set_head_set_head.
    + rewrite <- Z.add_mod_idemp_l, Hmod by lia. done.
Qed.

Section Swbf1.
Context {FM : FloatModel}.

Ltac swbf1_step :=
rewrite ?bind_assoc;
first
  [ rewrite bind_when_upd; cbn [fst snd]
  | rewrite bind_upd; cbn [fst snd]
  | rewrite when_upd; cbn [fst snd]
  | rewrite bind_when_true
  | rewrite bind_when_false
  | match goal with
    | |- context [bind (rd (read_trivial ?ty false)) _ (set_head ?h ?m, ?o)] =>
        rewrite (bind_rd_read4 ty h m o) by (done || lia);
        let h' := eval compute in (h + 4) in
        change (h + 4) with h';
        destruct (Z.ltb_spec (_size m) h')
    end ].

Lemma read_material_swbf1_run (material : Ucfb_reader_strict (mn "MTRL"))
  (out : msh.Material.t) :
reader_ok material -> _head material = 0 ->
(swbf1_needed (swbf1_flags_at material) <= size material
 /\ read_material_swbf1 material out
    = (Ok tt, decoded_material_swbf1 material out))
\/ (size material < swbf1_needed (swbf1_flags_at material)
    /\ fst (read_material_swbf1 material out) = Throw BoundsViolation).
Proof.
intros Hok Hh. unfold read_material_swbf1, read_swbf1_params, local, size.
assert (material = set_head 0 material) as Hstart
  by (by rewrite <- Hh, set_head_same).
unfold swbf1_needed, decoded_material_swbf1, swbf1_params_block, swbf1_param_at.
set (flags := swbf1_flags_at material).
match goal with
| |- context [?body (material, out)] =>
    replace (body (material, out)) with (body (set_head 0 material, out))
      by (by rewrite <- Hstart)
end.
swbf1_step.
{ right. split; [|reflexivity].
  destruct (are_flags_set _ _), (are_flags_set _ _), (are_flags_set _ _); lia. }
fold (swbf1_flags_at material). fold flags.
destruct (are_flags_set flags Material_flags_swbf1.specular);
  destruct (are_flags_set flags Material_flags_swbf1.detail);
  destruct (are_flags_set flags Material_flags_swbf1.scroll);
  repeat swbf1_step;
  first [ left; split; [lia|reflexivity] | right; split; [lia|reflexivity] ].
Qed.

(** The dialect-1 decoder reads the flag word and eight more bytes for each
  of the [specular], [detail] and [scroll] flags the word carries, in that
  order.  On a fresh chunk it succeeds exactly when that many bytes fit,
  and the material is then [decoded_material_swbf1]; otherwise it throws
  the bounds error.  As [read_material] passes it chunks of less than 24
  bytes only, a flag word with all three of these flags always throws
  there: it needs 28 bytes. *)
Theorem read_material_swbf1_size (material : Ucfb_reader_strict (mn "MTRL"))
  (out : msh.Material.t) :
reader_ok material -> _head material = 0 ->
let flags := swbf1_flags_at material in
(swbf1_needed flags <= size material ->
   read_material_swbf1 material out = (Ok tt, decoded_material_swbf1 material out))
/\ (size material < swbf1_needed flags ->
    fst (read_material_swbf1 material out) = Throw BoundsViolation)
/\ (size material < 24 ->
    are_flags_set flags Material_flags_swbf1.specular = true ->
    are_flags_set flags Material_flags_swbf1.detail = true ->
    are_flags_set flags Material_flags_swbf1.scroll = true ->
    fst (read_material material out) = Throw BoundsViolation).
Proof.
intros Hok Hh flags.
destruct (read_material_swbf1_run material out Hok Hh) as [[Hfit Hrun]|[Hover Hrun]].
- split; [done|]. split; [intros Hless; fold flags in Hfit; lia|].
  intros Hsmall Hspecular Hdetail Hscroll. exfalso. revert Hfit.
  unfold swbf1_needed. fold flags. rewrite Hspecular, Hdetail, Hscroll. lia.
- split; [intros Hfit; fold flags in Hover; lia|]. split; [done|].
  intros Hsmall _ _ _. unfold read_material. change (sizeof Material_info_t) with 24.
  by destruct (Z.ltb_spec (size material) 24); [|lia].
Qed.

Lemma proj_assign_const {A B : Type} (proj : A -> B) (b : bool) (f : A -> A) (v : B)
  (o : A) :
(forall o', proj (f o') = v) ->
proj (assign_if b f o) = if b then v else proj o.
Proof. intros Hf. unfold assign_if. by destruct b. Qed.

Lemma decoded_material_swbf1_type (material : Ucfb_reader) (out : msh.Material.t) :
let flag f := are_flags_set (swbf1_flags_at material) f in
msh.Material.type_swbf1 (decoded_material_swbf1 material out)
= if flag Material_flags_swbf1.refraction then msh.Render_type_swbf1.refraction
  else if flag Material_flags_swbf1.camouflage then msh.Render_type_swbf1.camouflage
  else if flag Material_flags_swbf1.reflection then msh.Render_type_swbf1.reflection
  else if flag Material_flags_swbf1.scroll then msh.Render_type_swbf1.scroll
  else if flag Material_flags_swbf1.detail then msh.Render_type_swbf1.detail
  else if flag Material_flags_swbf1.glow then msh.Render_type_swbf1.glow
  else if flag Material_flags_swbf1.specular then msh.Render_type_swbf1.specular
  else msh.Material.type_swbf1 out.
Proof.
intros flag. unfold decoded_material_swbf1. fold flag.
rewrite (proj_assign_const _ _ _ msh.Render_type_swbf1.refraction) by done.
rewrite (proj_assign_const _ _ _ msh.Render_type_swbf1.camouflage) by done.
rewrite (proj_assign_const _ _ _ msh.Render_type_swbf1.reflection) by done.
rewrite (proj_assign_const _ _ _ msh.Render_type_swbf1.scroll) by done.
rewrite (proj_assign_const _ _ _ msh.Render_type_swbf1.detail) by done.
rewrite (proj_assign_const _ _ _ msh.Render_type_swbf1.glow) by done.
rewrite (proj_cond msh.Material.type_swbf1) by done.
rewrite (proj_assign_const _ _ _ msh.Render_type_swbf1.specular) by done.
rewrite !(proj_cond msh.Material.type_swbf1) by done.
done.
Qed.

Lemma decoded_material_type (info : Material_info) (attached_light : list Byte.byte)
  (out : msh.Material.t) :
let flag f := are_flags_set (mi_flags info) f in
msh.Material.type (decoded_material info attached_light out)
= if flag Material_flags.animated then msh.Render_type.animated
  else if flag Material_flags.energy then msh.Render_type.energy
  else if flag Material_flags.scrolling then msh.Render_type.scrolling
  else if flag Material_flags.wireframe then msh.Render_type.wireframe
  else if flag Material_flags.env_map then msh.Render_type.env_map
  else if flag Material_flags.bumpmap then msh.Render_type.bumpmap
  else msh.Material.type out.
Proof.
intros flag. unfold decoded_material. fold flag.
rewrite (proj_cond msh.Material.type) by done.
rewrite (proj_assign_const _ _ _ msh.Render_type.animated) by done.
rewrite (proj_assign_const _ _ _ msh.Render_type.energy) by done.
rewrite (proj_assign_const _ _ _ msh.Render_type.scrolling) by done.
rewrite (proj_cond msh.Material.type) by done.
rewrite (proj_assign_const _ _ _ msh.Render_type.wireframe) by done.
rewrite (proj_assign_const _ _ _ msh.Render_type.env_map) by done.
rewrite !(proj_cond msh.Material.type) by done.
rewrite (proj_assign_const _ _ _ msh.Render_type.bumpmap) by done.
rewrite !(proj_cond msh.Material.type) by done.
done.
Qed.

(** The render type a decoded [MTRL] leaves is decided by the last of the
  conditional assignments whose flag is set.  In a dialect-1 chunk
  refraction wins over camouflage, reflection, scroll, detail, glow and
  specular, in that order; in a dialect-2 chunk animated wins over energy,
  scrolling, wireframe, env_map and bumpmap.  With none of these flags the
  render type stays what it was, and each dialect leaves the other
  dialect's render type alone. *)
Theorem material_type_precedence (material : Ucfb_reader_strict (mn "MTRL"))
  (out out' : msh.Material.t) :
reader_ok material -> _head material = 0 ->
read_material material out = (Ok tt, out') ->
(size material < 24 ->
   let flag f := are_flags_set (swbf1_flags_at material) f in
   msh.Material.type out' = msh.Material.type out
   /\ msh.Material.type_swbf1 out'
      = if flag Material_flags_swbf1.refraction
        then msh.Render_type_swbf1.refraction
        else if flag Material_flags_swbf1.camouflage
        then msh.Render_type_swbf1.camouflage
        else if flag Material_flags_swbf1.reflection
        then msh.Render_type_swbf1.reflection
        else if flag Material_flags_swbf1.scroll
        then msh.Render_type_swbf1.scroll
        else if flag Material_flags_swbf1.detail
        then msh.Render_type_swbf1.detail
        else if flag Material_flags_swbf1.glow
        then msh.Render_type_swbf1.glow
        else if flag Material_flags_swbf1.specular
        then msh.Render_type_swbf1.specular
        else msh.Material.type_swbf1 out)
/\ (24 <= size material ->
    let flag f := are_flags_set (mi_flags (info_at material)) f in
    msh.Material.type_swbf1 out' = msh.Material.type_swbf1 out
    /\ msh.Material.type out'
       = if flag Material_flags.animated then msh.Render_type.animated
         else if flag Material_flags.energy then msh.Render_type.energy
         else if flag Material_flags.scrolling then msh.Render_type.scrolling
         else if flag Material_flags.wireframe then msh.Render_type.wireframe
         else if flag Material_flags.env_map then msh.Render_type.env_map
         else if flag Material_flags.bumpmap then msh.Render_type.bumpmap
         else msh.Material.type out).
Proof.
intros Hok Hh Hread. split.
- intros Hsmall flag.
  assert (read_material_swbf1 material out = (Ok tt, out')) as Hswbf1.
  { revert Hread. unfold read_material. change (sizeof Material_info_t) with 24.
    by destruct (Z.ltb_spec (size material) 24); [|lia]. }
  pose proof (read_material_swbf1_frame material out) as Hframe.
  rewrite Hswbf1 in Hframe. destruct Hframe as (_ & _ & Htype & _).
  split; [exact Htype|].
  destruct (read_material_swbf1_run material out Hok Hh) as [[_ Hrun]|[_ Hrun]];
    rewrite Hswbf1 in Hrun; [|done].
  injection Hrun as ->. apply decoded_material_swbf1_type.
- intros Hlarge flag.
  destruct (read_material_dialect2_inv material out out' Hok Hh Hlarge Hread)
    as (len & _ & ->).
  split; [|apply decoded_material_type].
  unfold decoded_material. by rewrite !(proj_cond msh.Material.type_swbf1) by done.
Qed.
End Swbf1.

Lemma read_material_swbf1_size_witness :
  let material := reader_over "MTRL" (le_bytes 4 1584 ++ replicate 16 Byte.x00) in
  let out := msh.Material.default (FM := SymbolicFloat.model) in
  reader_ok material /\ _head material = 0
  /\ size material < swbf1_needed (swbf1_flags_at material)
  /\ fst (read_material_swbf1 material out) = Throw BoundsViolation.
Proof.
  intros material out.
  assert (reader_ok material) as Hok by (unfold reader_ok; simpl; lia).
  assert (size material < swbf1_needed (swbf1_flags_at material)) as Hover
    by (vm_compute; reflexivity).
  split; [exact Hok|]. split; [reflexivity|]. split; [exact Hover|].
  exact (proj1 (proj2 (read_material_swbf1_size (FM := SymbolicFloat.model)
                         material out Hok eq_refl)) Hover).
Defined.

Lemma material_type_precedence_witness :
  let material := reader_over "MTRL" (le_bytes 4 4352) in
  let out := msh.Material.default (FM := SymbolicFloat.model) in
  exists out',
    reader_ok material /\ _head material = 0
    /\ read_material material out = (Ok tt, out')
    /\ size material < 24
    /\ msh.Material.type_swbf1 out' = msh.Render_type_swbf1.reflection.
Proof.
  intros material out.
  assert (reader_ok material) as Hok by (unfold reader_ok; simpl; lia).
  assert (size material < 24) as Hsmall by (simpl; lia).
  eexists.
  split; [exact Hok|]. split; [reflexivity|].
  assert (read_material material out = (Ok tt, snd (read_material material out)))
    as Hread by (vm_compute; reflexivity).
  split; [exact Hread|]. split; [exact Hsmall|].
  exact (proj2 (proj1 (material_type_precedence (FM := SymbolicFloat.model)
                         material out _ Hok eq_refl Hread) Hsmall)).
Defined.

(** ** Strings in a chunk *)

Lemma byte_val_nul (c : Byte.byte) : byte_val c = 0 <-> c = Byte.x00.
Proof.
  split; [|by intros ->].
  unfold byte_val. intros Hval.
  assert (Byte.to_N c = Byte.to_N Byte.x00) as Hn by (simpl; lia).
  apply (f_equal Byte.of_N) in Hn. rewrite !Byte.of_to_N in Hn. by injection Hn.
Qed.

(** The scan for the terminator finds the first NUL. *)
Lemma cstring_length_app (str rest : list Byte.byte) (max_length : Z) :
  Forall (fun c => c <> Byte.x00) str -> Z.of_nat (length str) < max_length ->
  cstring_length (str ++ Byte.x00 :: rest) max_length = Some (Z.of_nat (length str)).
Proof.
  revert max_length. induction str as [|c str IH]; intros max_length Hstr Hmax.
  - simpl in *. destruct (Z.leb_spec max_length 0); [lia|done].
  - inversion Hstr as [|? ? Hc Hstr']; subst. simpl length in *.
    cbn [app cstring_length].
    destruct (Z.leb_spec max_length 0); [lia|].
    destruct (Z.eqb_spec (byte_val c) 0) as [Hnul|_];
      [by apply byte_val_nul in Hnul|].
    rewrite IH by (done || lia). simpl. f_equal. lia.
Qed.

(** A [NAME] chunk that stores, NUL-terminated, a name made of [base] and a
    suffix of four characters: [read_model_name] returns [base] with the
    level of detail [LOD1], [LOD2] or [LOWD] stands for, and the whole name
    at level zero for every other suffix. *)
Theorem read_model_name_suffix (name_chunk : Ucfb_reader_strict (mn "NAME"))
    (base suffix rest : list Byte.byte) :
  reader_ok name_chunk -> _head name_chunk = 0 ->
  _data name_chunk = base ++ suffix ++ Byte.x00 :: rest ->
  Forall (fun c => c <> Byte.x00) (base ++ suffix) -> length suffix = 4%nat ->
  Z.of_nat (length (base ++ suffix)) < size name_chunk ->
  fst (read_model_name name_chunk)
  = Ok (if bool_decide (suffix = sv "LOD1") then (base, msh.Lod.one)
        else if bool_decide (suffix = sv "LOD2") then (base, msh.Lod.two)
        else if bool_decide (suffix = sv "LOWD") then (base, msh.Lod.lowres)
        else (base ++ suffix, msh.Lod.zero)).
Proof.
  intros Hok Hh Hdata Hname Hsuffix Hsize.
  assert (cstring_length (_data name_chunk) (size name_chunk)
          = Some (Z.of_nat (length (base ++ suffix)))) as Hlen.
  { rewrite Hdata, app_assoc. by apply cstring_length_app. }
  destruct (read_model_name_by_length name_chunk _ Hok Hh Hlen) as [Hlong _].
  rewrite Hlong by (rewrite length_app; lia).
  rewrite Nat2Z.id, Hdata, app_assoc, take_app_length.
  unfold lod_of_name.
  replace (length (base ++ suffix) - 4)%nat with (length base)
    by (rewrite length_app; lia).
  by rewrite take_app_length, drop_app_length.
Qed.

Lemma read_model_name_suffix_witness :
  let name_chunk := reader_over "NAME" (sv "CrateLOWD" ++ [Byte.x00]) in
  reader_ok name_chunk /\ _head name_chunk = 0
  /\ _data name_chunk = sv "Crate" ++ sv "LOWD" ++ Byte.x00 :: []
  /\ Forall (fun c => c <> Byte.x00) (sv "Crate" ++ sv "LOWD")
  /\ length (sv "LOWD") = 4%nat
  /\ Z.of_nat (length (sv "Crate" ++ sv "LOWD")) < size name_chunk
  /\ fst (read_model_name name_chunk) = Ok (sv "Crate", msh.Lod.lowres).
Proof.
  intros name_chunk.
  assert (reader_ok name_chunk) as Hok by (unfold reader_ok; simpl; lia).
  assert (Forall (fun c => c <> Byte.x00) (sv "Crate" ++ sv "LOWD")) as Hname
    by (repeat constructor; discriminate).
  assert (Z.of_nat (length (sv "Crate" ++ sv "LOWD")) < size name_chunk) as Hsize
    by (simpl; lia).
  split; [exact Hok|]. split; [reflexivity|]. split; [reflexivity|].
  split; [exact Hname|]. split; [reflexivity|]. split; [exact Hsize|].
  exact (read_model_name_suffix name_chunk (sv "Crate") (sv "LOWD") []
           Hok eq_refl eq_refl Hname eq_refl Hsize).
Defined.

(** ** Object descriptors *)

Lemma get_properties_child_Ok_inv (s s' : Ucfb_reader * list (Z * list Byte.byte)) :
  reader_ok (fst s) -> get_properties_child s = (Ok tt, s') ->
  child_fits (fst s) /\ child_magic_at (fst s) = mn "PROP"
  /\ exists read,
       property_of (child_at (fst s)) = Ok read
       /\ s' = (after_child false (fst s), snd s ++ [read]).
Proof.
  intros Hok. unfold get_properties_child.
  destruct (read_child_strict (mn "PROP") false (fst s)) as [[child|e] r'] eqn:Hread.
  2:{ erewrite bind_rd_throw; [|exact Hread]. done. }
  erewrite bind_rd; [|exact Hread]. cbv beta.
  destruct (read_child_strict_Ok_inv _ _ _ _ _ Hok Hread) as (Hfit & Hmn & -> & ->).
  rewrite bind_by_value.
  match goal with
  | |- match ?o with _ => _ end = _ -> _ =>
      change o with (property_of (child_at (fst s)))
  end.
  destruct (property_of (child_at (fst s))) as [read|e]; [|done].
  unfold upd. cbn [fst snd]. intros [= <-].
  split; [done|]. split; [done|]. by exists read.
Qed.

Lemma get_properties_loop_all (fuel : nat) (r : Ucfb_reader)
    (properties acc : list (Z * list Byte.byte)) :
  reader_ok r -> props_to_end r properties ->
  _size r - _head r < Z.of_nat fuel -> (0 < fuel)%nat ->
  exists r_end,
    while_reader fuel get_properties_child (r, acc)
    = (Ok tt, (r_end, acc ++ properties)).
Proof.
  intros Hok Hprops. revert fuel acc.
  induction Hprops as [r Hfalsy|r read properties Htruthy Hfit Hmn Hread Hrest IH];
    intros fuel acc Hfuel Hpos.
  - destruct fuel as [|fuel]; [lia|]. simpl. rewrite Hfalsy, app_nil_r. by eexists.
  - destruct fuel as [|fuel]; [lia|].
    simpl. rewrite Htruthy. unfold bind.
    rewrite (get_properties_child_prop r acc read) by done.
    pose proof (after_child_head false r) as Hhead.
    pose proof (uint32_range (_data r) (_head r + 4)) as Hsz.
    unfold child_end in Hhead. fold (child_size_at r) in Hsz.
    destruct (IH (reader_ok_after_child false r Hok Hfit) fuel (acc ++ [read]))
      as [r_end Hloop].
    + unfold after_child at 1. simpl _size. lia.
    + unfold operator_bool in Htruthy. apply Z.ltb_lt in Htruthy. lia.
    + exists r_end. by rewrite Hloop, <- app_assoc.
Qed.

Lemma get_properties_loop_inv (fuel : nat) (s s' : Ucfb_reader * list (Z * list Byte.byte)) :
  reader_ok (fst s) ->
  while_reader fuel get_properties_child s = (Ok tt, s') ->
  exists properties,
    props_to_end (fst s) properties /\ snd s' = snd s ++ properties.
Proof.
  revert s. induction fuel as [|fuel IH]; intros s Hok; simpl; [done|].
  destruct (operator_bool (fst s)) eqn:Htruthy.
  - unfold bind.
    destruct (get_properties_child s) as [[[]|e] s1] eqn:Hchild; [|done].
    destruct (get_properties_child_Ok_inv s s1 Hok Hchild)
      as (Hfit & Hmn & read & Hread & ->).
    intros Hloop.
    destruct (IH (after_child false (fst s), snd s ++ [read])
                (reader_ok_after_child false (fst s) Hok Hfit) Hloop)
      as (properties & Hprops & Hacc).
    exists (read :: properties). split; [by eapply props_next|].
    cbn [fst snd] in Hacc. by rewrite Hacc, <- app_assoc.
  - intros [= <-]. exists []. split; [by apply props_end|by rewrite app_nil_r].
Qed.

(** [get_properties] returns exactly when the object, from its head on, is
    a run of well-formed [PROP] children that ends with the object, and it
    then returns the hash and the value of each, in the order of the
    chunks. *)
Theorem get_properties_props (object : Ucfb_reader)
    (properties : list (Z * list Byte.byte)) :
  reader_ok object ->
  fst (get_properties object) = Ok properties <-> props_to_end object properties.
Proof.
  intros Hok. unfold get_properties, while_. cbn [fst]. split.
  - destruct (while_reader (loop_fuel object) get_properties_child (object, []))
      as [[[]|e] s'] eqn:Hloop; [|done].
    cbn [fst]. intros [= <-].
    destruct (get_properties_loop_inv _ (object, []) _ Hok Hloop)
      as (found & Hprops & Hacc).
    by rewrite Hacc.
  - intros Hprops.
    destruct (get_properties_loop_all (loop_fuel object) object properties []
                Hok Hprops) as [r_end Hloop].
    + unfold loop_fuel. destruct Hok as (? & ? & ?). lia.
    + unfold loop_fuel. lia.
    + by rewrite Hloop.
Qed.

Section ObjectText.
Variable lookup_fnv_hash : Z -> list Byte.byte.

Lemma write_properties_text (properties : list (Z * list Byte.byte))
  (to : list Byte.byte) :
write_properties lookup_fnv_hash properties to
= (Ok tt,
   to ++ concat (map (fun prop => property_line (lookup_fnv_hash (fst prop))
                                    (snd prop)) properties)).
Proof.
revert to. induction properties as [|prop properties IH]; intros to; simpl.
- by rewrite app_nil_r.
- unfold bind at 1. unfold write_property, bind, modify. cbn [fst snd].
  rewrite IH. f_equal. unfold property_line. by rewrite <- !app_assoc.
Qed.

(** On an object made of a [BASE] child, a [TYPE] child and then
  well-formed [PROP] children up to its end, [handle_object] saves one
  file, in the directory [odf], named by the string of [TYPE], with the
  extension [.odf].  Its text is the bracketed type, the [ClassLabel]
  line with the string of [BASE], a [GeometryName] line made from the
  first property whose hash is 0x47c86b4a when there is one, an empty
  line, the [Properties] heading and one line for each property, in the
  order of the chunks. *)
Theorem handle_object_file (object : Ucfb_reader)
  (type : list Byte.byte) (file_saver : File_saver)
  (base : Ucfb_reader_strict (mn "BASE")) (after_base : Ucfb_reader)
  (class_name : list Byte.byte)
  (type_chunk : Ucfb_reader_strict (mn "TYPE")) (after_type : Ucfb_reader)
  (odf_name : list Byte.byte) (properties : list (Z * list Byte.byte)) :
reader_ok object ->
read_child_strict (mn "BASE") false object = (Ok base, after_base) ->
fst (read_string false base) = Ok class_name ->
read_child_strict (mn "TYPE") false after_base = (Ok type_chunk, after_type) ->
fst (read_string false type_chunk) = Ok odf_name ->
props_to_end after_type properties ->
handle_object lookup_fnv_hash object type file_saver
= (Ok tt,
   file_saver
   ++ [mkSaved_file (odf_text lookup_fnv_hash type class_name properties)
         (sv "odf") odf_name (sv ".odf")]).
Proof.
intros Hok Hbase Hclass Htype Hodf Hprops.
destruct (read_child_strict_Ok_inv _ _ _ _ _ Hok Hbase)
  as (Hfit1 & _ & _ & ->).
pose proof (reader_ok_after_child false object Hok Hfit1) as Hok1.
destruct (read_child_strict_Ok_inv _ _ _ _ _ Hok1 Htype)
  as (Hfit2 & _ & _ & Hafter).
assert (reader_ok after_type) as Hok2
  by (rewrite Hafter; by apply reader_ok_after_child).
assert (fst (get_properties after_type) = Ok properties) as Hget
  by (by apply get_properties_props).
unfold handle_object.
erewrite (bind_by_value_Ok _ _ _ _
            (odf_text lookup_fnv_hash type class_name properties, odf_name));
  [reflexivity|].
erewrite bind_out_ref; [|reflexivity]. cbv beta. cbn [fst snd].
erewrite bind_rd; [|exact Hbase]. cbv beta. cbn [fst snd].
erewrite bind_by_value_Ok; [|exact Hclass].
erewrite bind_out_ref; [|reflexivity]. cbv beta. cbn [fst snd].
erewrite bind_rd; [|exact Htype]. cbv beta. cbn [fst snd].
erewrite bind_by_value_Ok; [|exact Hodf].
rewrite bind_get. cbn [fst snd].
erewrite bind_by_value_Ok; [|exact Hget].
unfold odf_text, find_geometry_name.
destruct (List.find _ properties) as [geometry|].
- erewrite bind_out_ref; [|reflexivity]. cbv beta. cbn [fst snd].
  erewrite bind_out_ref; [|reflexivity]. cbv beta. cbn [fst snd].
  erewrite bind_out_ref; [|reflexivity]. cbv beta. cbn [fst snd].
  erewrite bind_out_ref; [|apply write_properties_text]. cbv beta. cbn [fst snd].
  rewrite bind_get. cbn [fst snd]. unfold ret. cbn [fst].
  do 2 f_equal. unfold bracketed, property_line. by rewrite <- !app_assoc.
- unfold bind at 1. unfold ret at 1.
  erewrite bind_out_ref; [|reflexivity]. cbv beta. cbn [fst snd].
  erewrite bind_out_ref; [|reflexivity]. cbv beta. cbn [fst snd].
  erewrite bind_out_ref; [|apply write_properties_text]. cbv beta. cbn [fst snd].
  rewrite bind_get. cbn [fst snd]. unfold ret. cbn [fst].
  do 2 f_equal. unfold bracketed, property_line. by rewrite <- !app_assoc.
Qed.
End ObjectText.

Lemma object_with_properties_props :
  props_to_end (after_child false (after_child false object_with_properties))
    [(7, sv "on"); (0x47c86b4a, sv "geo")].
Proof.
  eapply props_next;
    [reflexivity | vm_compute; congruence | reflexivity | reflexivity |].
  eapply props_next;
    [reflexivity | vm_compute; congruence | reflexivity | reflexivity |].
  apply props_end. reflexivity.
Qed.

Lemma get_properties_props_witness :
  let object := after_child false (after_child false object_with_properties) in
  reader_ok object
  /\ fst (get_properties object) = Ok [(7, sv "on"); (0x47c86b4a, sv "geo")].
Proof.
  intros object.
  assert (reader_ok object) as Hok
    by (vm_compute; repeat split; (reflexivity || discriminate)).
  split; [exact Hok|].
  exact (proj2 (get_properties_props object _ Hok) object_with_properties_props).
Defined.

Lemma handle_object_file_witness :
  reader_ok object_with_properties
  /\ handle_object (fun _ => sv "Name") object_with_properties
       (sv "GameObjectClass") []
     = (Ok tt,
        [] ++ [mkSaved_file
                 (odf_text (fun _ => sv "Name") (sv "GameObjectClass") (sv "door")
                    [(7, sv "on"); (0x47c86b4a, sv "geo")])
                 (sv "odf") (sv "my_door") (sv ".odf")]).
Proof.
  assert (reader_ok object_with_properties) as Hok
    by (unfold reader_ok; simpl; lia).
  split; [exact Hok|].
  exact (handle_object_file (fun _ => sv "Name") object_with_properties
           (sv "GameObjectClass") []
           (child_at object_with_properties)
           (after_child false object_with_properties) (sv "door")
           (child_at (after_child false object_with_properties))
           (after_child false (after_child false object_with_properties))
           (sv "my_door") [(7, sv "on"); (0x47c86b4a, sv "geo")]
           Hok eq_refl eq_refl eq_refl eq_refl object_with_properties_props).
Defined.

(** ** The exceptions the decoders raise *)

Section RaisesOnly.
Context {S : Type} (allowed : list Error).

Lemma raises_only_weaken {A : Type} (fewer : list Error) (m : M S A) :
raises_only fewer m -> incl fewer allowed -> raises_only allowed m.
Proof. intros Hm Hincl s e He. apply Hincl. by eapply Hm. Qed.

Lemma raises_only_ret {A : Type} (a : A) : raises_only (S := S) allowed (ret a).
Proof. by intros s e. Qed.

Lemma raises_only_get : raises_only (S := S) allowed get.
Proof. by intros s e. Qed.

Lemma raises_only_modify (f : S -> S) : raises_only allowed (modify f).
Proof. by intros s e. Qed.

Lemma raises_only_lift_outcome {A : Type} (o : outcome A) :
(forall e, o = Throw e -> In e allowed) ->
raises_only (S := S) allowed (lift_outcome o).
Proof. intros Ho s e. apply Ho. Qed.

Lemma raises_only_bind {A B : Type} (m : M S A) (k : A -> M S B) :
raises_only allowed m -> (forall a, raises_only allowed (k a)) ->
raises_only allowed (let* x := m in k x).
Proof.
intros Hm Hk s e. unfold bind. specialize (Hm s).
destruct (m s) as [[a|e'] s']; [apply Hk|].
simpl in *. intros [= ->]. by apply Hm.
Qed.

Lemma raises_only_when (b : bool) (m : M S unit) :
raises_only allowed m -> raises_only allowed (when b m).
Proof. intros Hm. destruct b; [done|]. apply raises_only_ret. Qed.

Lemma raises_only_by_value {R A : Type} (r : R) (callee : M R A) :
raises_only allowed callee -> raises_only (S := S) allowed (by_value r callee).
Proof. intros Hm s. apply Hm. Qed.

Lemma raises_only_noexcept {A : Type} (m : M S A) :
In Terminated allowed -> raises_only allowed (noexcept m).
Proof.
intros Hin s e. unfold noexcept. destruct (m s) as [[a|e'] s']; [done|].
by intros [= <-].
Qed.
End RaisesOnly.

Lemma raises_only_rd {R O A : Type} (allowed : list Error) (m : M R A) :
  raises_only allowed m -> raises_only allowed (rd (O := O) m).
Proof.
  intros Hm s e. unfold rd. specialize (Hm (fst s) e). by destruct (m (fst s)).
Qed.

Lemma raises_only_upd {R O : Type} (allowed : list Error) (f : O -> O) :
  raises_only allowed (upd (R := R) f).
Proof. by intros s e. Qed.

Lemma raises_only_out_ref {R O A : Type} (allowed : list Error) (m : M O A) :
  raises_only allowed m -> raises_only allowed (out_ref (R := R) m).
Proof.
  intros Hm s e. unfold out_ref. specialize (Hm (snd s) e). by destruct (m (snd s)).
Qed.

Lemma raises_only_local {R O A : Type} (allowed : list Error) (r : R)
    (body : M (R * O) A) :
  raises_only allowed body -> raises_only allowed (local r body).
Proof.
  intros Hm s e. unfold local. specialize (Hm (r, s) e). by destruct (body (r, s)).
Qed.

Lemma raises_only_check_head (allowed : list Error) :
  In BoundsViolation allowed -> raises_only allowed check_head.
Proof. intros Hin r e. unfold check_head. destruct (_ <? _); [|done]. by intros [= <-]. Qed.

Lemma raises_only_align_head (allowed : list Error) : raises_only allowed align_head.
Proof. intros r e. unfold align_head. by destruct (negb _). Qed.

(** Goes through a body built from binds, conditionals and the combinators
    above; membership in the list of allowed exceptions is decided by
    looking. *)
Ltac allowed_here := simpl; tauto.

Create HintDb raises_only.
#[local] Hint Extern 1 (In _ _) => allowed_here : raises_only.

Ltac solve_raises_only :=
  repeat first
    [ progress eauto with raises_only
    | apply raises_only_ret | apply raises_only_get | apply raises_only_modify
    | apply raises_only_upd | apply raises_only_align_head
    | apply raises_only_check_head; allowed_here
    | apply raises_only_noexcept; allowed_here
    | apply raises_only_bind; [|intros ?]
    | apply raises_only_when
    | apply raises_only_rd
    | apply raises_only_out_ref
    | apply raises_only_by_value
    | apply raises_only_local
    | assumption
    | match goal with
      | |- raises_only _ (if ?b then _ else _) => destruct b
      | |- raises_only _ (match ?o with _ => _ end) => destruct o
      end ].

Section Reads.
Variable allowed : list Error.
Hypothesis bounds_allowed : In BoundsViolation allowed.

Lemma raises_only_read_trivial {T : Type} (ty : Trivial T) (unaligned : bool) :
raises_only allowed (read_trivial ty unaligned).
Proof.
intros r. unfold read_trivial.
match goal with
| |- forall e, fst (?m r) = _ -> _ =>
    assert (raises_only allowed m) as H by solve_raises_only
end.
apply H.
Qed.

#[local] Hint Resolve raises_only_read_trivial : raises_only.

Lemma raises_only_read_array {T : Type} (ty : Trivial T) (count : Z)
  (unaligned : bool) :
raises_only allowed (read_array ty count unaligned).
Proof.
intros r. unfold read_array.
match goal with
| |- forall e, fst (?m r) = _ -> _ =>
    assert (raises_only allowed m) as H by solve_raises_only
end.
apply H.
Qed.

Lemma raises_only_consume (amount : Z) (unaligned : bool) :
raises_only allowed (consume amount unaligned).
Proof.
intros r. unfold consume.
match goal with
| |- forall e, fst (?m r) = _ -> _ =>
    assert (raises_only allowed m) as H by solve_raises_only
end.
apply H.
Qed.

#[local] Hint Resolve raises_only_consume : raises_only.

Lemma raises_only_read_child (unaligned : bool) :
raises_only allowed (read_child unaligned).
Proof. unfold read_child, read_trivial_unaligned. solve_raises_only. Qed.

Lemma raises_only_read_string (unaligned : bool) :
In UnterminatedString allowed -> raises_only allowed (read_string unaligned).
Proof.
intros Hin r. unfold read_string. destruct (cstring_length _ _).
- match goal with
  | |- forall e, fst (?m r) = _ -> _ =>
      assert (raises_only allowed m) as H by solve_raises_only
  end.
  apply H.
- by intros e [= <-].
Qed.

Lemma raises_only_read_child_strict (type_mn : Magic_number) (unaligned : bool) :
In UnexpectedMagic allowed -> raises_only allowed (read_child_strict type_mn unaligned).
Proof.
intros Hin. unfold read_child_strict. apply raises_only_bind; [|solve_raises_only].
intros r e. unfold read_child_strict_mn.
pose proof (raises_only_read_child unaligned r) as H.
destruct (read_child unaligned r) as [[child|e'] r']; [|by intros [= <-]; apply H].
destruct (negb _); [|done]. by intros [= <-].
Qed.
End Reads.

#[local] Hint Resolve raises_only_read_trivial raises_only_read_array
  raises_only_consume raises_only_read_child raises_only_read_string
  raises_only_read_child_strict : raises_only.

Lemma raises_only_while_reader {O : Type} (allowed : list Error)
    (body : M (Ucfb_reader * O) unit) (fuel : nat) :
  In LoopFuelExhausted allowed -> raises_only allowed body ->
  raises_only allowed (while_reader fuel body).
Proof.
  intros Hin Hbody. induction fuel as [|fuel IH]; intros s e; simpl.
  - by intros [= <-].
  - destruct (operator_bool (fst s)); [|done].
    by apply raises_only_bind.
Qed.

Lemma raises_only_while_ {O : Type} (allowed : list Error)
    (body : M (Ucfb_reader * O) unit) :
  In LoopFuelExhausted allowed -> raises_only allowed body ->
  raises_only allowed (while_ body).
Proof. intros Hin Hbody s. unfold while_. by apply raises_only_while_reader. Qed.

Lemma raises_only_with_strict {S A : Type} (allowed : list Error)
    (type_mn : Magic_number) (child : Ucfb_reader)
    (callee : Ucfb_reader_strict type_mn -> M S A) :
  In Terminated allowed -> (forall c, raises_only allowed (callee c)) ->
  raises_only allowed (with_strict type_mn child callee).
Proof.
  intros Hin Hcallee. unfold with_strict. apply raises_only_bind; [|done].
  apply raises_only_lift_outcome. unfold Ucfb_reader_strict_of.
  destruct (_ =? _); [done|]. by intros e [= <-].
Qed.

(** A strict reader made from a child whose magic number was just
    compared: the contract of the constructor holds. *)
Lemma with_strict_guarded {S A : Type} (type_mn : Magic_number) (child : Ucfb_reader)
    (callee : Ucfb_reader_strict type_mn -> M S A) (s : S) :
  magic_number child = type_mn -> with_strict type_mn child callee s = callee child s.
Proof.
  intros <-. unfold with_strict, bind, lift_outcome, Ucfb_reader_strict_of.
  by rewrite Z.eqb_refl.
Qed.

Section DecoderExceptions.
Context {FM : FloatModel}.

Lemma raises_only_on_material {A : Type} (allowed : list Error)
  (m : M msh.Material.t A) :
raises_only allowed m -> raises_only allowed (on_material m).
Proof.
intros Hm model e. unfold on_material. specialize (Hm (msh.Model.material model) e).
by destruct (m (msh.Model.material model)).
Qed.

Lemma raises_only_on_textures {A : Type} (allowed : list Error)
  (m : M (list (list Byte.byte)) A) :
raises_only allowed m -> raises_only allowed (on_textures m).
Proof.
intros Hm material e. unfold on_textures.
specialize (Hm (msh.Material.textures material) e).
by destruct (m (msh.Material.textures material)).
Qed.

Section Allowed.
Variable allowed : list Error.
Hypothesis bounds_allowed : In BoundsViolation allowed.
Hypothesis unterminated_allowed : In UnterminatedString allowed.

Lemma raises_only_read_material_swbf1 (material : Ucfb_reader_strict (mn "MTRL")) :
raises_only allowed (read_material_swbf1 material).
Proof. unfold read_material_swbf1, read_swbf1_params. solve_raises_only. Qed.

Lemma raises_only_read_material (material : Ucfb_reader_strict (mn "MTRL")) :
raises_only allowed (read_material material).
Proof.
unfold read_material. destruct (_ <? _); [apply raises_only_read_material_swbf1|].
unfold read_string_unaligned. solve_raises_only.
Qed.

Lemma raises_only_read_material_name (mnam : Ucfb_reader_strict (mn "MNAM")) :
raises_only allowed (read_material_name mnam).
Proof. unfold read_material_name. solve_raises_only. Qed.

Lemma raises_only_ps2_buffers (vertex_count index_count : Z)
  (vertex_box : vec3 float * vec3 float) :
raises_only allowed (read_strip_buffer index_count)
/\ raises_only allowed (read_positions_buffer vertex_count vertex_box)
/\ raises_only allowed (read_normals_buffer vertex_count)
/\ raises_only allowed (read_uv_buffer vertex_count)
/\ raises_only allowed (read_colour_buffer vertex_count)
/\ raises_only allowed (read_skin_buffer vertex_count)
/\ raises_only allowed read_bone_map.
Proof.
unfold read_strip_buffer, read_positions_buffer, read_normals_buffer,
  read_uv_buffer, read_colour_buffer, read_skin_buffer, read_bone_map.
repeat split; solve_raises_only.
Qed.
End Allowed.

Lemma raises_only_read_texture_name (allowed : list Error)
    (texture_name : Ucfb_reader_strict (mn "TNAM")) :
  In Terminated allowed -> raises_only allowed (read_texture_name texture_name).
Proof. intros Hin. unfold read_texture_name. by apply raises_only_noexcept. Qed.

Lemma raises_only_process_segment_ps2_child (vertex_count index_count : Z)
    (model_info : Model_info) :
  raises_only [BoundsViolation; UnterminatedString; UnexpectedMagic; Terminated;
               LoopFuelExhausted]
    (process_segment_ps2_child vertex_count index_count model_info).
Proof.
  unfold process_segment_ps2_child.
  set (allowed := [BoundsViolation; UnterminatedString; UnexpectedMagic; Terminated;
                   LoopFuelExhausted]).
  assert (In BoundsViolation allowed) as Hb by allowed_here.
  assert (In UnterminatedString allowed) as Hu by allowed_here.
  assert (In Terminated allowed) as Ht by allowed_here.
  destruct (raises_only_ps2_buffers allowed Hb vertex_count index_count
              (vertex_box model_info))
    as (Hstrip & Hpos & Hnorm & Huv & Hcol & Hskin & Hbmap).
  apply raises_only_bind; [apply raises_only_rd; by apply raises_only_read_child|].
  intros child.
  repeat match goal with
         | |- raises_only _ (if ?b then _ else _) => destruct b
         end;
    try apply raises_only_ret;
    apply raises_only_with_strict; try exact Ht; intros c.
  - by apply raises_only_out_ref, raises_only_on_material, raises_only_read_material.
  - solve_raises_only.
  - by apply raises_only_out_ref, raises_only_read_material_name.
  - by apply raises_only_out_ref, raises_only_on_material, raises_only_on_textures,
      raises_only_read_texture_name.
  - solve_raises_only.
  - solve_raises_only.
  - solve_raises_only.
  - solve_raises_only.
  - solve_raises_only.
  - solve_raises_only.
  - solve_raises_only.
  - solve_raises_only.
Qed.

Lemma raises_only_process_segment_ps2 (segment : Ucfb_reader_strict (mn "segm"))
    (lod : msh.Lod.t) (model_info : Model_info) :
  reader_ok segment ->
  raises_only [BoundsViolation; UnterminatedString; UnexpectedMagic; Terminated]
    (process_segment_ps2 segment lod model_info).
Proof.
  intros Hok builder e He.
  pose proof (process_segment_ps2_total segment lod model_info builder Hok) as Htotal.
  assert (In e [BoundsViolation; UnterminatedString; UnexpectedMagic; Terminated;
                LoopFuelExhausted]) as Hin.
  { revert He. clear Htotal. unfold process_segment_ps2. unfold bind at 1.
    match goal with
    | |- context [let '(res, s) := ?body (segment, ?model) in _] =>
        assert (raises_only [BoundsViolation; UnterminatedString; UnexpectedMagic;
                             Terminated; LoopFuelExhausted] body) as Hbody;
        [|specialize (Hbody (segment, model) e);
          destruct (body (segment, model)) as [[[]|e'] s]]
    end.
    - apply raises_only_bind;
        [apply raises_only_rd, raises_only_read_child_strict; allowed_here|].
      intros info. apply raises_only_bind; [solve_raises_only|].
      intros counts. apply raises_only_while_; [allowed_here|].
      apply raises_only_process_segment_ps2_child.
    - done.
    - simpl. intros [= ->]. by apply Hbody. }
  rewrite He in Htotal. simpl in Hin. simpl. intuition congruence.
Qed.

(** The exceptions of the model decoder, by kind.  [read_material] raises
    only the bounds and the unterminated string errors;
    [read_texture_name], being [noexcept], can only end the program; a PS2
    segment raises these and the unexpected magic error of its [INFO]
    child, and none of the errors of the model envelope. *)
Theorem model_decoder_exceptions (segment : Ucfb_reader_strict (mn "segm"))
    (lod : msh.Lod.t) (model_info : Model_info)
    (material : Ucfb_reader_strict (mn "MTRL"))
    (texture_name : Ucfb_reader_strict (mn "TNAM")) :
  reader_ok segment ->
  raises_only [BoundsViolation; UnterminatedString] (read_material material)
  /\ raises_only [Terminated] (read_texture_name texture_name)
  /\ raises_only [BoundsViolation; UnterminatedString; UnexpectedMagic; Terminated]
       (process_segment_ps2 segment lod model_info).
Proof.
  intros Hok. split; [apply raises_only_read_material; allowed_here|].
  split; [apply raises_only_read_texture_name; allowed_here|].
  by apply raises_only_process_segment_ps2.
Qed.

Lemma read_texture_name_malformed (texture_name : Ucfb_reader_strict (mn "TNAM"))
    (out : list (list Byte.byte)) :
  reader_ok texture_name -> _head texture_name = 0 ->
  fst (read_texture_name texture_name out) = Throw Terminated
  <-> size texture_name < 4
      \/ cstring_length (drop 4 (_data texture_name)) (size texture_name - 4) = None.
Proof.
  intros Hok Hh. unfold read_texture_name, noexcept, local, size.
  destruct (Z.ltb_spec (_size texture_name) 4) as [Hshort|Hlong].
  { erewrite bind_rd_throw;
      [|apply read_trivial_overflows; cbn [fst snd]; rewrite ?Hh; simpl;
        (done || lia)].
    cbn [fst snd]. split; [by left|done]. }
  erewrite bind_rd;
    [|apply read_trivial_aligned_ok; cbn [fst snd]; rewrite ?Hh; simpl;
      (done || lia)].
  cbv beta. cbn [fst snd]. rewrite Hh. change (0 + sizeof uint32_t) with 4.
  assert (reader_ok (set_head 4 texture_name)) as Hok4
    by (apply reader_ok_set_head; [done|unfold_wrap; lia]).
  destruct (cstring_length (drop 4 (_data texture_name)) (_size texture_name - 4))
    as [len|] eqn:Hlen.
  - erewrite bind_rd;
      [|by apply (read_string_found false (set_head 4 texture_name) len)].
    unfold upd. cbn [fst snd]. split; [done|]. intros [Hshort|Hnone]; [lia|done].
  - assert (read_string false (set_head 4 texture_name)
            = (Throw UnterminatedString, set_head 4 texture_name)) as Hread.
    { rewrite read_string_advance by done. simpl _head. simpl _size. simpl _data.
      change (Z.to_nat 4) with 4%nat.
      replace (wrap_size_t (_size texture_name - 4)) with (_size texture_name - 4)
        by (destruct Hok as (_ & Hs & _); unfold_wrap; rewrite Z.mod_small; lia).
      by rewrite Hlen. }
    erewrite bind_rd_throw; [|exact Hread]. cbn [fst snd]. split; [by right|done].
Qed.

(** A [TNAM] child that is too short for its slot number, or whose name is
    not terminated inside the chunk, makes [read_texture_name] end the
    program, as the function is [noexcept]; and in a PS2 segment this is the
    only way the program is ended: the contract of a strict reader's
    constructor is never broken there. *)
Theorem segment_terminates_on_texture_name_only (vertex_count index_count : Z)
    (model_info : Model_info) (segment : Ucfb_reader) (model : msh.Model.t) :
  reader_ok segment ->
  fst (process_segment_ps2_child vertex_count index_count model_info (segment, model))
  = Throw Terminated
  <-> child_fits segment /\ child_magic_at segment = mn "TNAM"
      /\ (size (child_at segment) < 4
          \/ cstring_length (drop 4 (_data (child_at segment)))
               (size (child_at segment) - 4) = None).
Proof.
  intros Hok. set (textures := msh.Material.textures (msh.Model.material model)).
  assert (forall (A : Type) (m : M (Ucfb_reader * msh.Model.t) A)
                 (s : Ucfb_reader * msh.Model.t),
            raises_only [BoundsViolation; UnterminatedString] m ->
            fst (m s) <> Throw Terminated) as Hnever.
  { intros A m s Hm He. apply Hm in He. simpl in He. intuition congruence. }
  unfold process_segment_ps2_child.
  destruct (read_child false segment) as [[child|e] r'] eqn:Hchild.
  2:{ erewrite bind_rd_throw; [|exact Hchild]. cbn [fst]. split.
      - intros [= ->].
        pose proof (raises_only_read_child [BoundsViolation] ltac:(allowed_here)
                      false segment Terminated) as Hread.
        rewrite Hchild in Hread. simpl in Hread. intuition congruence.
      - intros (Hfit & _). rewrite read_child_fits in Hchild by done. done. }
  erewrite bind_rd; [|exact Hchild]. cbv beta. cbn [fst snd].
  destruct (read_child_Ok_inv _ _ _ _ Hok Hchild) as (Hfit & -> & ->).
  change (magic_number (child_at segment)) with (child_magic_at segment).
  destruct (raises_only_ps2_buffers [BoundsViolation; UnterminatedString]
              ltac:(allowed_here) vertex_count index_count (vertex_box model_info))
    as (Hstrip & Hpos & Hnorm & Huv & Hcol & Hskin & Hbmap).
  assert (forall A B : Prop, ~ A -> ~ B -> (A <-> B)) as Hneither by tauto.
  assert (forall (m : Magic_number)
                 (callee : Ucfb_reader_strict m -> M (Ucfb_reader * msh.Model.t) unit),
            child_magic_at segment = m ->
            (forall c, raises_only [BoundsViolation; UnterminatedString] (callee c)) ->
            m <> mn "TNAM" ->
            fst (with_strict m (child_at segment) callee
                   (after_child false segment, model)) = Throw Terminated
            <-> child_fits segment /\ child_magic_at segment = mn "TNAM"
                /\ (size (child_at segment) < 4
                    \/ cstring_length (drop 4 (_data (child_at segment)))
                         (size (child_at segment) - 4) = None)) as Hother.
  { intros m callee Hmn Hcallee Hne. apply Hneither.
    - rewrite with_strict_guarded by exact Hmn. by apply Hnever.
    - intros (_ & Hmn' & _). congruence. }
  repeat match goal with
         | |- context [if child_magic_at segment =? ?m then _ else _] =>
             destruct (Z.eqb_spec (child_magic_at segment) m) as [Hmn|?];
             [ first
                 [ apply Hother; [exact Hmn| |vm_compute; discriminate]; intros c
                 | idtac ]
             | ]
         end.
  - by apply raises_only_out_ref, raises_only_on_material, raises_only_read_material;
      allowed_here.
  - solve_raises_only.
  - by apply raises_only_out_ref, raises_only_read_material_name; allowed_here.
  - rewrite with_strict_guarded by exact Hmn.
    unfold out_ref, on_material, on_textures. cbn [fst snd].
    pose proof (read_texture_name_malformed (child_at segment) textures
                  (reader_ok_child_at segment Hok) eq_refl) as Hmalformed.
    fold textures.
    destruct (read_texture_name (child_at segment) textures) as [res textures'].
    cbn [fst] in *. rewrite Hmalformed. tauto.
  - solve_raises_only.
  - solve_raises_only.
  - solve_raises_only.
  - solve_raises_only.
  - solve_raises_only.
  - solve_raises_only.
  - solve_raises_only.
  - solve_raises_only.
  - apply Hneither; [done|]. intros (_ & Hmn' & _). congruence.
Qed.
End DecoderExceptions.

Lemma raises_only_get_properties_child :
  raises_only [BoundsViolation; UnterminatedString; UnexpectedMagic; LoopFuelExhausted]
    get_properties_child.
Proof. unfold get_properties_child. solve_raises_only. Qed.

Lemma get_properties_raises (object : Ucfb_reader) (e : Error) :
  reader_ok object -> fst (get_properties object) = Throw e ->
  In e [BoundsViolation; UnterminatedString; UnexpectedMagic].
Proof.
  intros Hok He. pose proof (get_properties_total object Hok) as Htotal.
  assert (In e [BoundsViolation; UnterminatedString; UnexpectedMagic;
                LoopFuelExhausted]) as Hin.
  { revert He. clear Htotal. unfold get_properties.
    pose proof (raises_only_while_
                  [BoundsViolation; UnterminatedString; UnexpectedMagic;
                   LoopFuelExhausted] get_properties_child
                  ltac:(allowed_here) raises_only_get_properties_child
                  (object, []) e) as Hloop.
    destruct (while_ get_properties_child (object, [])) as [[[]|e'] s]; [done|].
    simpl. intros [= ->]. by apply Hloop. }
  rewrite He in Htotal. simpl in Hin. simpl. intuition congruence.
Qed.

Section ObjectExceptions.
Variable lookup_fnv_hash : Z -> list Byte.byte.

Lemma raises_only_write_properties (properties : list (Z * list Byte.byte)) :
raises_only [] (write_properties lookup_fnv_hash properties).
Proof. intros to e. by rewrite write_properties_text. Qed.

(** With the recorder for a file saver, the emitter over any file saver is
  [handle_object]. *)
Lemma handle_object_any_file_saver (object : Ucfb_reader) (type : list Byte.byte) :
AnyFileSaver.handle_object lookup_fnv_hash save_file object type
= handle_object lookup_fnv_hash object type.
Proof. reflexivity. Qed.

(** The part of [handle_object] before [save_file] is called raises only
  the three errors of the reads. *)
Lemma handle_object_text_raises {File_saver : Type}
  (save_file : list Byte.byte -> list Byte.byte -> list Byte.byte ->
               list Byte.byte -> M File_saver unit)
  (object : Ucfb_reader) (type : list Byte.byte) (file_saver : File_saver) :
reader_ok object ->
(exists e,
   AnyFileSaver.handle_object lookup_fnv_hash save_file object type file_saver
   = (Throw e, file_saver)
   /\ In e [BoundsViolation; UnterminatedString; UnexpectedMagic])
\/ (exists contents name,
      AnyFileSaver.handle_object lookup_fnv_hash save_file object type file_saver
      = save_file contents (sv "odf") name (sv ".odf") file_saver).
Proof.
intros Hok. unfold AnyFileSaver.handle_object. rewrite bind_by_value.
match goal with
| |- context [match ?o with Ok _ => _ | Throw _ => _ end] =>
  destruct o as [saved|e] eqn:Hbody
end; [right; by exists (fst saved), (snd saved)|].
left. exists e. split; [done|]. revert Hbody.
erewrite bind_out_ref; [|reflexivity]. cbv beta. cbn [fst snd].
destruct (read_child_strict (mn "BASE") false object) as [[base|e1] after_base]
eqn:Hbase.
2:{ erewrite bind_rd_throw; [|exact Hbase]. cbn [fst]. intros [= <-].
  pose proof (raises_only_read_child_strict
                [BoundsViolation; UnterminatedString; UnexpectedMagic] ltac:(allowed_here)
                (mn "BASE") false ltac:(allowed_here) object e1) as Hin.
  rewrite Hbase in Hin. by apply Hin. }
erewrite bind_rd; [|exact Hbase]. cbv beta. cbn [fst snd].
destruct (read_child_strict_Ok_inv _ _ _ _ _ Hok Hbase) as (Hfit1 & _ & _ & ->).
pose proof (reader_ok_after_child false object Hok Hfit1) as Hok1.
destruct (fst (read_string false base)) as [class_name|e2] eqn:Hclass.
2:{ erewrite bind_by_value_Throw; [|exact Hclass]. cbn [fst]. intros [= <-].
  by apply (raises_only_read_string
              [BoundsViolation; UnterminatedString; UnexpectedMagic] ltac:(allowed_here) false
              ltac:(allowed_here) base e2). }
erewrite bind_by_value_Ok; [|exact Hclass].
erewrite bind_out_ref; [|reflexivity]. cbv beta. cbn [fst snd].
destruct (read_child_strict (mn "TYPE") false (after_child false object))
as [[type_chunk|e3] after_type] eqn:Htype.
2:{ erewrite bind_rd_throw; [|exact Htype]. cbn [fst]. intros [= <-].
  pose proof (raises_only_read_child_strict
                [BoundsViolation; UnterminatedString; UnexpectedMagic] ltac:(allowed_here)
                (mn "TYPE") false ltac:(allowed_here)
                (after_child false object) e3) as Hin.
  rewrite Htype in Hin. by apply Hin. }
erewrite bind_rd; [|exact Htype]. cbv beta. cbn [fst snd].
destruct (read_child_strict_Ok_inv _ _ _ _ _ Hok1 Htype) as (Hfit2 & _ & _ & ->).
pose proof (reader_ok_after_child false _ Hok1 Hfit2) as Hok2.
destruct (fst (read_string false type_chunk)) as [odf_name|e4] eqn:Hodf.
2:{ erewrite bind_by_value_Throw; [|exact Hodf]. cbn [fst]. intros [= <-].
  by apply (raises_only_read_string
              [BoundsViolation; UnterminatedString; UnexpectedMagic] ltac:(allowed_here) false
              ltac:(allowed_here) type_chunk e4). }
erewrite bind_by_value_Ok; [|exact Hodf].
rewrite bind_get. cbn [fst snd].
destruct (fst (get_properties (after_child false (after_child false object))))
as [properties|e5] eqn:Hget.
2:{ erewrite bind_by_value_Throw; [|exact Hget]. cbn [fst]. intros [= <-].
  by eapply get_properties_raises. }
erewrite bind_by_value_Ok; [|exact Hget].
intros Hrest. exfalso.
match type of Hrest with
| fst (?m ?s) = _ =>
  assert (raises_only [] m) as Hnone;
  [|exact (Hnone s e Hrest)]
end.
pose proof raises_only_write_properties as Hwrite.
unfold write_property, write_bracketed_str.
solve_raises_only.
Qed.

(** [handle_object] over any file saver, whatever its [save_file] does: the
  call either fails before [save_file] is reached, with the bounds error,
  the unterminated string error or the unexpected magic error and with
  the file saver untouched, or it ends as its one call of [save_file]
  ends, for the directory [odf] and the extension [.odf].  So it raises
  only these three errors and those [save_file] raises; writing the
  descriptor text never fails and the loop over the properties ends. *)
Theorem handle_object_exceptions {File_saver : Type}
  (save_file : list Byte.byte -> list Byte.byte -> list Byte.byte ->
               list Byte.byte -> M File_saver unit)
  (object : Ucfb_reader) (type : list Byte.byte) :
reader_ok object ->
(forall file_saver : File_saver,
   (exists e,
      AnyFileSaver.handle_object lookup_fnv_hash save_file object type file_saver
      = (Throw e, file_saver)
      /\ In e [BoundsViolation; UnterminatedString; UnexpectedMagic])
   \/ (exists contents name,
         AnyFileSaver.handle_object lookup_fnv_hash save_file object type file_saver
         = save_file contents (sv "odf") name (sv ".odf") file_saver))
/\ (forall save_file_errors : list Error,
      (forall contents directory name extension,
         raises_only save_file_errors
           (save_file contents directory name extension)) ->
      raises_only
        ([BoundsViolation; UnterminatedString; UnexpectedMagic] ++ save_file_errors)
        (AnyFileSaver.handle_object lookup_fnv_hash save_file object type)).
Proof.
intros Hok. split; [intros file_saver; by apply handle_object_text_raises|].
intros save_file_errors Hsave file_saver e.
destruct (handle_object_text_raises save_file object type file_saver Hok)
as [(e' & -> & Hin)|(contents & name & ->)].
- cbn [fst]. intros [= ->]. apply in_or_app. by left.
- intros He. apply in_or_app. right. by eapply Hsave.
Qed.
End ObjectExceptions.

Lemma model_decoder_exceptions_witness :
  reader_ok ps2_scenario_segment
  /\ raises_only [BoundsViolation; UnterminatedString; UnexpectedMagic; Terminated]
       (process_segment_ps2 ps2_scenario_segment msh.Lod.zero ps2_scenario_info).
Proof.
  assert (reader_ok ps2_scenario_segment) as Hok by (unfold reader_ok; simpl; lia).
  split; [exact Hok|].
  exact (proj2 (proj2 (model_decoder_exceptions (FM := SymbolicFloat.model)
                         ps2_scenario_segment msh.Lod.zero ps2_scenario_info
                         (reader_over "MTRL" []) (reader_over "TNAM" []) Hok))).
Defined.

Lemma segment_terminates_on_texture_name_only_witness :
  let segment := reader_over "segm" (chunk "TNAM" (le_bytes 4 0 ++ sv "tex")) in
  reader_ok segment
  /\ fst (process_segment_ps2_child (FM := SymbolicFloat.model) 0 0 ps2_scenario_info
            (segment, msh.Model.default))
     = Throw Terminated.
Proof.
  intros segment.
  assert (reader_ok segment) as Hok by (unfold reader_ok; simpl; lia).
  split; [exact Hok|].
  apply (proj2 (segment_terminates_on_texture_name_only (FM := SymbolicFloat.model)
                  0 0 ps2_scenario_info segment msh.Model.default Hok)).
  split; [vm_compute; congruence|]. split; [reflexivity|]. right. reflexivity.
Defined.

Lemma handle_object_exceptions_witness :
  let failing_save := fun (contents directory name extension : list Byte.byte)
                          (saved : nat) => (Throw Terminated : outcome unit, S saved) in
  reader_ok object_with_properties
  /\ AnyFileSaver.handle_object (fun _ => sv "Name") failing_save
       object_with_properties (sv "GameObjectClass") 0%nat
     = (Throw Terminated, 1%nat)
  /\ raises_only
       ([BoundsViolation; UnterminatedString; UnexpectedMagic] ++ [Terminated])
       (AnyFileSaver.handle_object (fun _ => sv "Name") failing_save
          object_with_properties (sv "GameObjectClass")).
Proof.
  intros failing_save.
  assert (reader_ok object_with_properties) as Hok
    by (unfold reader_ok; simpl; lia).
  split; [exact Hok|]. split; [vm_compute; reflexivity|].
  apply (handle_object_exceptions (fun _ => sv "Name") failing_save
           object_with_properties (sv "GameObjectClass") Hok).
  intros contents directory name extension saved e [= <-]. by left.
Defined.

(** ** The model envelope *)

Lemma read_child_strict_optional_found (type_mn : Magic_number) (unaligned : bool)
    (r : Ucfb_reader) :
  reader_ok r -> child_fits r -> child_magic_at r = type_mn ->
  read_child_strict_optional type_mn unaligned r
  = (Ok (Some (child_at r)), after_child unaligned r).
Proof.
  intros Hok Hfit Hmn.
  unfold read_child_strict_optional, bind, read_child_strict_optional_mn.
  rewrite read_child_fits by done.
  unfold magic_number, child_at at 1. simpl _mn.
  rewrite Hmn, Z.eqb_refl. done.
Qed.

Lemma read_child_strict_optional_absent (type_mn : Magic_number) (unaligned : bool)
    (r : Ucfb_reader) :
  reader_ok r -> child_fits r -> child_magic_at r <> type_mn ->
  read_child_strict_optional type_mn unaligned r = (Ok None, r).
Proof.
  intros Hok Hfit Hmn.
  unfold read_child_strict_optional, bind, read_child_strict_optional_mn.
  rewrite read_child_fits by done.
  unfold magic_number, child_at at 1. simpl _mn.
  destruct (Z.eqb_spec (child_magic_at r) type_mn); [done|]. simpl.
  by rewrite set_head_after_child.
Qed.

Lemma read_child_strict_optional_Ok_inv (type_mn : Magic_number) (unaligned : bool)
    (r r' : Ucfb_reader) (child : option (Ucfb_reader_strict type_mn)) :
  reader_ok r ->
  read_child_strict_optional type_mn unaligned r = (Ok child, r') ->
  child_fits r /\ (r' = r \/ r' = after_child unaligned r).
Proof.
  intros Hok Hread.
  destruct (Z_le_dec (child_end r) (_size r)) as [Hfit|Hfit];
    fold (child_fits r) in Hfit.
  - split; [done|].
    destruct (Z.eq_dec (child_magic_at r) type_mn) as [Hmn|Hmn].
    + rewrite read_child_strict_optional_found in Hread by done.
      right. congruence.
    + rewrite read_child_strict_optional_absent in Hread by done.
      left. congruence.
  - exfalso. revert Hread.
    unfold read_child_strict_optional, bind, read_child_strict_optional_mn.
    by destruct (read_child_overflows unaligned r Hok Hfit) as [h ->].
Qed.

Section Envelope.
Context {FM : FloatModel}.
Variable fadd : float -> float -> float.
Variable fabs : float -> float.

(** Once the envelope is read, the builder of the base name gets its
  bounding box and the loop over the children runs. *)
Lemma handle_model_impl_envelope (segm_processor : Segm_processor)
  (model : Ucfb_reader) (builders : Builders_map)
  (name : list Byte.byte) (lod : msh.Lod.t) (model_info : Model_info)
  (rest : Ucfb_reader) :
model_envelope model name lod model_info rest ->
handle_model_impl fadd fabs segm_processor model builders
= let '(res, s') :=
    while_ (handle_model_impl_child segm_processor name lod model_info)
      (rest, at_key name (set_bbox (create_bbox fadd fabs model_info)) builders) in
  (res, snd s').
Proof.
intros (name_chunk & r1 & vrtx & r2 & node & r3 & info
        & Hname & Hlod & Hvrtx & Hnode & Hinfo & Hmi).
unfold handle_model_impl, local.
erewrite bind_rd; [|exact Hname]. cbv beta. cbn [fst snd].
erewrite bind_by_value_Ok; [|exact Hlod]. cbv zeta. cbn [fst snd].
erewrite bind_rd; [|exact Hvrtx]. cbv beta. cbn [fst snd].
erewrite bind_rd; [|exact Hnode]. cbv beta. cbn [fst snd].
erewrite bind_rd; [|exact Hinfo]. cbv beta. cbn [fst snd].
erewrite bind_by_value_Ok; [|exact Hmi].
rewrite bind_upd. cbn [fst snd]. done.
Qed.

(** The exceptions of the reads of the envelope. *)
Lemma envelope_reads_raise :
(forall type_mn, raises_only [BoundsViolation; UnexpectedMagic]
                   (read_child_strict type_mn false))
/\ (forall type_mn, raises_only [BoundsViolation]
                      (read_child_strict_optional type_mn false))
/\ raises_only [BoundsViolation; UnterminatedString; SubstrOutOfRange]
     read_model_name
/\ raises_only [BoundsViolation; UnknownModelInfo] read_model_info.
Proof.
split; [|split; [|split]].
- intros type_mn. apply raises_only_read_child_strict; allowed_here.
- intros type_mn. unfold read_child_strict_optional.
  apply raises_only_bind; [|intros [child|]; apply raises_only_ret].
  intros r e. unfold read_child_strict_optional_mn.
  pose proof (raises_only_read_child [BoundsViolation] ltac:(allowed_here)
                false r) as Hread.
  destruct (read_child false r) as [[child|e'] r'].
  + by destruct (negb _).
  + intros [= <-]. by apply Hread.
- unfold read_model_name.
  apply raises_only_bind;
    [apply raises_only_read_string; allowed_here|intros name_view].
  cbv zeta.
  apply raises_only_bind; [|intros suffix].
  { apply raises_only_lift_outcome. unfold substr.
    destruct (_ <? _); [|done]. intros e [= <-]. allowed_here. }
  apply raises_only_bind; [|intros unsuffixed_name].
  { apply raises_only_lift_outcome. unfold substr.
    destruct (_ <? _); [|done]. intros e [= <-]. allowed_here. }
  repeat match goal with
         | |- raises_only _ (if ?b then _ else _) => destruct b
         end; apply raises_only_ret.
- unfold read_model_info. apply raises_only_bind; [apply raises_only_get|].
  intros info. destruct (_ && _).
  + intros r e [= <-]. allowed_here.
  + solve_raises_only.
Qed.

Lemma handle_model_impl_envelope_or_error (segm_processor : Segm_processor)
  (model : Ucfb_reader) (builders : Builders_map) :
(exists name lod model_info rest, model_envelope model name lod model_info rest)
\/ (exists e,
      handle_model_impl fadd fabs segm_processor model builders
      = (Throw e, builders)
      /\ In e [BoundsViolation; UnterminatedString; UnexpectedMagic;
               SubstrOutOfRange; UnknownModelInfo]).
Proof.
destruct envelope_reads_raise as (Hstrict & Hoptional & Hname_raises & Hinfo_raises).
unfold handle_model_impl, local.
destruct (read_child_strict (mn "NAME") false model) as [[name_chunk|e] r1]
  eqn:Hname.
2:{ right. erewrite bind_rd_throw; [|exact Hname]. eexists. split; [done|].
    pose proof (Hstrict (mn "NAME") model e) as Hin. rewrite Hname in Hin.
    specialize (Hin eq_refl). simpl in *. tauto. }
erewrite bind_rd; [|exact Hname]. cbv beta. cbn [fst snd].
destruct (fst (read_model_name name_chunk)) as [[name lod]|e] eqn:Hlod.
2:{ right. erewrite bind_by_value_Throw; [|exact Hlod]. eexists. split; [done|].
    pose proof (Hname_raises name_chunk e Hlod) as Hin. simpl in *. tauto. }
erewrite bind_by_value_Ok; [|exact Hlod]. cbv zeta. cbn [fst snd].
destruct (read_child_strict_optional (mn "VRTX") false r1) as [[vrtx|e] r2]
  eqn:Hvrtx.
2:{ right. erewrite bind_rd_throw; [|exact Hvrtx]. eexists. split; [done|].
    pose proof (Hoptional (mn "VRTX") r1 e) as Hin. rewrite Hvrtx in Hin.
    specialize (Hin eq_refl). simpl in *. tauto. }
erewrite bind_rd; [|exact Hvrtx]. cbv beta. cbn [fst snd].
destruct (read_child_strict (mn "NODE") false r2) as [[node|e] r3] eqn:Hnode.
2:{ right. erewrite bind_rd_throw; [|exact Hnode]. eexists. split; [done|].
    pose proof (Hstrict (mn "NODE") r2 e) as Hin. rewrite Hnode in Hin.
    specialize (Hin eq_refl). simpl in *. tauto. }
erewrite bind_rd; [|exact Hnode]. cbv beta. cbn [fst snd].
destruct (read_child_strict (mn "INFO") false r3) as [[info|e] rest] eqn:Hinfo.
2:{ right. erewrite bind_rd_throw; [|exact Hinfo]. eexists. split; [done|].
    pose proof (Hstrict (mn "INFO") r3 e) as Hin. rewrite Hinfo in Hin.
    specialize (Hin eq_refl). simpl in *. tauto. }
erewrite bind_rd; [|exact Hinfo]. cbv beta. cbn [fst snd].
destruct (fst (read_model_info info)) as [model_info|e] eqn:Hmi.
2:{ right. erewrite bind_by_value_Throw; [|exact Hmi]. eexists. split; [done|].
    pose proof (Hinfo_raises info e Hmi) as Hin. simpl in *. tauto. }
left. exists name, lod, model_info, rest.
by exists name_chunk, r1, vrtx, r2, node, r3, info.
Qed.

Lemma entry_kept_refl (name : list Byte.byte) (builders : Builders_map) :
entry_kept name builders builders.
Proof. by split. Qed.

Lemma entry_kept_trans (name : list Byte.byte) (b1 b2 b3 : Builders_map) :
entry_kept name b1 b2 -> entry_kept name b2 b3 -> entry_kept name b1 b3.
Proof.
intros [Hk1 Hb1] [Hk2 Hb2]. split; [|congruence].
intros key Hkey. rewrite Hk2, Hk1; done.
Qed.

Lemma on_builder_entry_kept {A : Type} (name : list Byte.byte)
  (m : M msh.Builder.t A) :
related (entry_kept name) (on_builder name m).
Proof.
intros builders. unfold on_builder.
destruct (m (builder_models (builders name))) as [res models']. cbn [snd].
split.
- intros key Hkey. unfold at_key. by rewrite bool_decide_false.
- unfold at_key. by rewrite bool_decide_true.
Qed.

Lemma handle_model_impl_child_entry_kept (segm_processor : Segm_processor)
  (name : list Byte.byte) (lod : msh.Lod.t) (model_info : Model_info) :
related (on_object (entry_kept name))
  (handle_model_impl_child segm_processor name lod model_info).
Proof.
unfold handle_model_impl_child.
apply related_bind.
- intros s1 s2 s3. apply entry_kept_trans.
- apply related_rd, entry_kept_refl.
- intros child. destruct (_ =? _).
  + apply related_with_strict; [intros s; apply entry_kept_refl|].
    intros c. apply related_out_ref, on_builder_entry_kept.
  + apply related_ret. intros s. apply entry_kept_refl.
Qed.

(** [handle_model_impl], with any segment processor.  When the envelope of
  the model cannot be read ([NAME] with a name of four characters or
  more, [VRTX] or not, [NODE], [INFO] of 68 or 72 bytes) the call throws
  one of five errors and the builders are as they were.  When it can, the builder of the
  base name has the bounding box made from the vertex box of [INFO], also
  when a segment throws later on, and every other builder is as it
  was. *)
Theorem handle_model_impl_entry (segm_processor : Segm_processor)
  (model : Ucfb_reader) (builders : Builders_map) :
let result := handle_model_impl fadd fabs segm_processor model builders in
(forall name lod model_info rest,
   model_envelope model name lod model_info rest ->
   builder_bbox (snd result name) = Some (create_bbox fadd fabs model_info)
   /\ other_builders_kept name builders (snd result))
/\ ((forall name lod model_info rest,
       ~ model_envelope model name lod model_info rest) ->
    exists e, result = (Throw e, builders)
              /\ In e [BoundsViolation; UnterminatedString; UnexpectedMagic;
                       SubstrOutOfRange; UnknownModelInfo]).
Proof.
intros result. subst result. split.
2:{ intros Hnone.
    destruct (handle_model_impl_envelope_or_error segm_processor model builders)
      as [(name & lod & model_info & rest & Henvelope)|Herror]; [|done].
    by destruct (Hnone name lod model_info rest). }
intros name lod model_info rest Henvelope.
rewrite (handle_model_impl_envelope _ _ _ _ _ _ _ Henvelope).
unfold while_. cbn [fst].
match goal with
| |- context [while_reader ?fuel ?body ?s] =>
    pose proof (related_while_reader (on_object (entry_kept name)) body fuel
                  ltac:(intros ?; apply entry_kept_refl)
                  ltac:(intros ? ? ?; apply entry_kept_trans)
                  (handle_model_impl_child_entry_kept _ _ _ _) s) as Hkept;
    destruct (while_reader fuel body s) as [res s']
end.
destruct Hkept as [Hothers Hbbox]. cbn [fst snd] in *. split.
- rewrite Hbbox. unfold at_key. by rewrite bool_decide_true.
- intros key Hkey. rewrite Hothers by done. unfold at_key.
  by rewrite bool_decide_false.
Qed.

(** *** PS2 models *)

Lemma segments_between_app (r1 r2 r3 : Ucfb_reader) (l1 l2 : list Ucfb_reader) :
segments_between r1 r2 l1 -> segments_between r2 r3 l2 ->
segments_between r1 r3 (l1 ++ l2).
Proof.
intros H1 H2. induction H1 as [r|r stop l Hfit Hmn _ IH|r stop l Hfit Hmn _ IH].
- done.
- apply segments_other; [done..|by apply IH].
- simpl. apply segments_segm; [done..|by apply IH].
Qed.

Lemma ps2_models_added_refl (name : list Byte.byte) (lod : msh.Lod.t)
  (r : Ucfb_reader) (builders : Builders_map) :
ps2_models_added name lod r r builders builders.
Proof.
exists [], []. split; [constructor|]. split; [by rewrite app_nil_r|constructor].
Qed.

Lemma ps2_models_added_trans (name : list Byte.byte) (lod : msh.Lod.t)
  (r1 r2 r3 : Ucfb_reader) (b1 b2 b3 : Builders_map) :
ps2_models_added name lod r1 r2 b1 b2 -> ps2_models_added name lod r2 r3 b2 b3 ->
ps2_models_added name lod r1 r3 b1 b3.
Proof.
intros (l1 & added1 & Hl1 & Hm1 & Hs1) (l2 & added2 & Hl2 & Hm2 & Hs2).
exists (l1 ++ l2), (added1 ++ added2).
split; [by eapply segments_between_app|].
split; [by rewrite Hm2, Hm1, app_assoc|]. by apply Forall2_app.
Qed.

(** Same models for [name], same segments. *)
Lemma ps2_models_added_same (name : list Byte.byte) (lod : msh.Lod.t)
  (r : Ucfb_reader) (before after : Builders_map) :
builder_models (after name) = builder_models (before name) ->
ps2_models_added name lod r r before after.
Proof.
intros Hsame. exists [], []. split; [constructor|].
split; [by rewrite app_nil_r|constructor].
Qed.

Lemma process_segment_ps2_appends (segment : Ucfb_reader_strict (mn "segm"))
  (lod : msh.Lod.t) (model_info : Model_info) (builder : msh.Builder.t) :
reader_ok segment ->
let result := process_segment_ps2 segment lod model_info builder in
(fst result = Ok tt ->
   exists model, snd result = builder ++ [model] /\ ps2_model_of lod segment model)
/\ (forall e, fst result = Throw e -> snd result = builder).
Proof.
intros Hok result. subst result. unfold process_segment_ps2.
pose proof (process_segment_ps2_body_shape segment lod model_info) as Hbody.
unfold bind at 1.
match goal with
| |- context [let '(res, s) := ?body (segment, ?model) in _] =>
    destruct (body (segment, model)) as [[[]|e'] s] eqn:Hrun
end; cbn [fst snd].
- split; [|done]. intros _.
  destruct (Hbody s Hok Hrun) as (Hfits & Hmagic & Hsize & Hshape).
  by exists (snd s).
- by split.
Qed.

Lemma handle_model_ps2_child_Ok_inv (name : list Byte.byte) (lod : msh.Lod.t)
  (model_info : Model_info) (s s' : Ucfb_reader * Builders_map)
  (res : outcome unit) :
reader_ok (fst s) ->
handle_model_impl_child process_segment_ps2 name lod model_info s = (res, s') ->
(res = Ok tt ->
   child_fits (fst s) /\ fst s' = after_child false (fst s)
   /\ ps2_models_added name lod (fst s) (fst s') (snd s) (snd s'))
/\ (forall e, res = Throw e ->
      builder_models (snd s' name) = builder_models (snd s name))
/\ res <> Throw LoopFuelExhausted.
Proof.
intros Hok. unfold handle_model_impl_child.
destruct (read_child false (fst s)) as [[child|e] r'] eqn:Hchild.
2:{ erewrite bind_rd_throw; [|exact Hchild]. intros [= <- <-]. cbn [snd].
    split; [done|]. split; [done|].
    pose proof (fuel_free_read_child false (fst s)) as Hfree.
    rewrite Hchild in Hfree. intros [= ->]. by apply Hfree. }
erewrite bind_rd; [|exact Hchild]. cbv beta.
destruct (read_child_Ok_inv _ _ _ _ Hok Hchild) as (Hfit & -> & ->).
destruct (Z.eqb_spec (magic_number (child_at (fst s))) (mn "segm")) as [Hmn|Hmn].
- rewrite with_strict_guarded by exact Hmn.
  unfold out_ref, on_builder. cbn [fst snd].
  pose proof (process_segment_ps2_appends (child_at (fst s)) lod model_info
                (builder_models (snd s name)) (reader_ok_child_at _ Hok))
    as [Hadded Hthrown].
  pose proof (process_segment_ps2_total (child_at (fst s)) lod model_info
                (builder_models (snd s name)) (reader_ok_child_at _ Hok))
    as Htotal.
  destruct (process_segment_ps2 (child_at (fst s)) lod model_info
              (builder_models (snd s name))) as [res' models'].
  cbn [fst snd] in *. intros [= <- <-]. cbn [fst snd].
  unfold at_key. rewrite bool_decide_true by done. cbn [builder_models].
  split; [|split; [exact Hthrown|exact Htotal]].
  intros Hres. destruct (Hadded Hres) as (model & -> & Hmodel).
  split; [done|]. split; [done|].
  exists [child_at (fst s)], [model]. split.
  { apply segments_segm; [done|exact Hmn|constructor]. }
  split; [by rewrite bool_decide_true by done|].
  by constructor.
- unfold ret. intros [= <- <-]. cbn [fst snd].
  split; [|done]. intros _. split; [done|]. split; [done|].
  exists [], []. split; [by apply segments_other; [| |constructor]|].
  split; [by rewrite app_nil_r|constructor].
Qed.

Lemma handle_model_ps2_loop (name : list Byte.byte) (lod : msh.Lod.t)
  (model_info : Model_info) (fuel : nat) (s : Ucfb_reader * Builders_map) :
reader_ok (fst s) -> (0 < fuel)%nat ->
_size (fst s) - _head (fst s) < Z.of_nat fuel ->
let run :=
  while_reader fuel
    (handle_model_impl_child process_segment_ps2 name lod model_info) s in
(exists stop,
   ps2_models_added name lod (fst s) stop (snd s) (snd (snd run))
   /\ (fst run = Ok tt -> _size stop <= _head stop))
/\ fst run <> Throw LoopFuelExhausted.
Proof.
revert s. induction fuel as [|fuel IH]; intros s Hok Hpos Hfuel; [lia|].
simpl. destruct (operator_bool (fst s)) eqn:Htruthy.
2:{ split; [|done]. exists (fst s). split; [apply ps2_models_added_refl|].
    intros _. unfold operator_bool in Htruthy. apply Z.ltb_ge in Htruthy. lia. }
unfold operator_bool in Htruthy. apply Z.ltb_lt in Htruthy.
unfold bind.
destruct (handle_model_impl_child process_segment_ps2 name lod model_info s)
  as [res s1] eqn:Hchild.
destruct (handle_model_ps2_child_Ok_inv name lod model_info s s1 res Hok Hchild)
  as (Hstep & Hthrown & Htotal).
destruct res as [[]|e].
2:{ cbn [fst snd]. split; [|done]. exists (fst s).
    split; [|done]. apply ps2_models_added_same. by eapply Hthrown. }
destruct (Hstep eq_refl) as (Hfit & Hs1 & Hadded).
pose proof (after_child_head false (fst s)) as Hhead.
pose proof (uint32_range (_data (fst s)) (_head (fst s) + 4)) as Hsz.
unfold child_end in Hhead. fold (child_size_at (fst s)) in Hsz.
rewrite <- Hs1 in Hhead.
assert (_size (fst s1) = _size (fst s)) as Hsize by (by rewrite Hs1).
destruct (IH s1) as [(stop & Hadded' & Hstop) Htotal'].
- rewrite Hs1. by apply reader_ok_after_child.
- lia.
- lia.
- split; [|done]. exists stop. split; [|done].
  by eapply ps2_models_added_trans.
Qed.

Lemma model_envelope_rest (model : Ucfb_reader) (name : list Byte.byte)
  (lod : msh.Lod.t) (model_info : Model_info) (rest : Ucfb_reader) :
reader_ok model -> model_envelope model name lod model_info rest ->
reader_ok rest.
Proof.
intros Hok (name_chunk & r1 & vrtx & r2 & node & r3 & info
            & Hname & _ & Hvrtx & Hnode & Hinfo & _).
destruct (read_child_strict_Ok_inv _ _ _ _ _ Hok Hname) as (Hfit1 & _ & _ & ->).
pose proof (reader_ok_after_child false model Hok Hfit1) as Hok1.
destruct (read_child_strict_optional_Ok_inv _ _ _ _ _ Hok1 Hvrtx) as (Hfit2 & Hr2).
assert (reader_ok r2) as Hok2
  by (destruct Hr2 as [->| ->]; [done|by apply reader_ok_after_child]).
destruct (read_child_strict_Ok_inv _ _ _ _ _ Hok2 Hnode) as (Hfit3 & _ & _ & ->).
pose proof (reader_ok_after_child false r2 Hok2 Hfit3) as Hok3.
destruct (read_child_strict_Ok_inv _ _ _ _ _ Hok3 Hinfo) as (Hfit4 & _ & _ & ->).
by apply reader_ok_after_child.
Qed.

(** [handle_model_ps2] on a model whose envelope can be read, [rest] being
  the reader after the envelope: whether the call returns or throws, the
  models the builder of the base name had are still there, in their order,
  followed by one model for each [segm] child of a stretch of the children
  that starts at [rest], in the order of the children.  Each of these
  models has the level of detail the suffix of the name stands for and the
  shape of a PS2 model for the two counts of the [INFO] child of its own
  segment.  When the call returns the stretch ends at the end of the model,
  so that every [segm] child has its model.  The loop over the children
  ends. *)
Theorem handle_model_ps2_models (model : Ucfb_reader) (builders : Builders_map)
  (name : list Byte.byte) (lod : msh.Lod.t) (model_info : Model_info)
  (rest : Ucfb_reader) :
reader_ok model -> model_envelope model name lod model_info rest ->
let result := handle_model_ps2 fadd fabs model builders in
(exists stop,
   ps2_models_added name lod rest stop builders (snd result)
   /\ (fst result = Ok tt -> _size stop <= _head stop))
/\ fst result <> Throw LoopFuelExhausted.
Proof.
intros Hok Henvelope result. subst result. unfold handle_model_ps2.
rewrite (handle_model_impl_envelope _ _ _ _ _ _ _ Henvelope).
pose proof (model_envelope_rest _ _ _ _ _ Hok Henvelope) as Hrest.
unfold while_. cbn [fst].
match goal with
| |- context [while_reader ?fuel ?body ?s] =>
    destruct (handle_model_ps2_loop name lod model_info fuel s)
      as [(stop & Hadded & Hstop) Htotal]
end.
- done.
- unfold loop_fuel. lia.
- unfold loop_fuel. cbn [fst]. destruct Hrest as (? & ? & ?). lia.
- match goal with
  | |- context [while_reader ?fuel ?body ?s] =>
      destruct (while_reader fuel body s) as [res s']
  end.
  cbn [fst snd] in *. split; [|done]. exists stop. split; [|done].
  destruct Hadded as (segments & added & Hsegments & Hmodels & Hshape).
  exists segments, added. split; [done|]. split; [|done].
  rewrite Hmodels. unfold at_key. by rewrite bool_decide_true.
Qed.

Lemma raises_only_on_builder {A : Type} (allowed : list Error)
  (name : list Byte.byte) (m : M msh.Builder.t A) :
raises_only allowed m -> raises_only allowed (on_builder name m).
Proof.
intros Hm builders e. unfold on_builder.
specialize (Hm (builder_models (builders name)) e).
by destruct (m (builder_models (builders name))).
Qed.

Lemma handle_model_ps2_child_raises (name : list Byte.byte) (lod : msh.Lod.t)
  (model_info : Model_info) (s : Ucfb_reader * Builders_map) (e : Error) :
reader_ok (fst s) ->
fst (handle_model_impl_child process_segment_ps2 name lod model_info s) = Throw e ->
In e [BoundsViolation; UnterminatedString; UnexpectedMagic; Terminated].
Proof.
intros Hok. unfold handle_model_impl_child.
destruct (read_child false (fst s)) as [[child|e'] r'] eqn:Hchild.
2:{ erewrite bind_rd_throw; [|exact Hchild]. cbn [fst]. intros [= <-].
    pose proof (raises_only_read_child [BoundsViolation] ltac:(allowed_here)
                  false (fst s) e') as Hread.
    rewrite Hchild in Hread. specialize (Hread eq_refl). simpl in *. tauto. }
erewrite bind_rd; [|exact Hchild]. cbv beta.
destruct (read_child_Ok_inv _ _ _ _ Hok Hchild) as (Hfit & -> & ->).
destruct (Z.eqb_spec (magic_number (child_at (fst s))) (mn "segm")) as [Hmn|Hmn];
  [|done].
rewrite with_strict_guarded by exact Hmn.
apply raises_only_out_ref, raises_only_on_builder, raises_only_process_segment_ps2.
by apply reader_ok_child_at.
Qed.

Lemma handle_model_ps2_loop_raises (name : list Byte.byte) (lod : msh.Lod.t)
  (model_info : Model_info) (fuel : nat) (s : Ucfb_reader * Builders_map)
  (e : Error) :
reader_ok (fst s) ->
fst (while_reader fuel
       (handle_model_impl_child process_segment_ps2 name lod model_info) s)
= Throw e ->
In e [BoundsViolation; UnterminatedString; UnexpectedMagic; Terminated;
      LoopFuelExhausted].
Proof.
revert s. induction fuel as [|fuel IH]; intros s Hok; simpl.
{ intros [= <-]. allowed_here. }
destruct (operator_bool (fst s)); [|done].
unfold bind.
destruct (handle_model_impl_child process_segment_ps2 name lod model_info s)
  as [res s1] eqn:Hchild.
destruct (handle_model_ps2_child_Ok_inv name lod model_info s s1 res Hok Hchild)
  as (Hstep & _ & _).
destruct res as [[]|e'].
- destruct (Hstep eq_refl) as (Hfit & Hs1 & _). apply IH.
  rewrite Hs1. by apply reader_ok_after_child.
- cbn [fst]. intros [= <-].
  pose proof (handle_model_ps2_child_raises name lod model_info s e' Hok) as Hin.
  rewrite Hchild in Hin. specialize (Hin eq_refl). simpl in *. tauto.
Qed.

(** [handle_model_ps2] raises only the bounds, unterminated string and
  unexpected magic errors of the reader, the two errors of the envelope
  (a name shorter than four characters, an [INFO] of unknown size), or
  ends the program on a malformed [TNAM]; it never raises the error of the
  strip decoder, and its loops end. *)
Theorem handle_model_ps2_exceptions (model : Ucfb_reader) :
reader_ok model ->
raises_only [BoundsViolation; UnterminatedString; UnexpectedMagic; Terminated;
             SubstrOutOfRange; UnknownModelInfo]
  (handle_model_ps2 fadd fabs model).
Proof.
intros Hok builders e He.
destruct (handle_model_impl_envelope_or_error process_segment_ps2 model builders)
  as [(name & lod & model_info & rest & Henvelope)|(e' & Herror & Hin)].
2:{ unfold handle_model_ps2 in He. rewrite Herror in He. cbn [fst] in He.
    injection He as <-. simpl in *. tauto. }
pose proof (model_envelope_rest _ _ _ _ _ Hok Henvelope) as Hrest.
revert He. unfold handle_model_ps2.
rewrite (handle_model_impl_envelope _ _ _ _ _ _ _ Henvelope).
unfold while_. cbn [fst].
match goal with
| |- context [while_reader ?fuel ?body ?s] =>
    pose proof (handle_model_ps2_loop_raises name lod model_info fuel s e Hrest)
      as Hraises;
    destruct (handle_model_ps2_loop name lod model_info fuel s) as [_ Htotal];
    [done|unfold loop_fuel; lia
    |unfold loop_fuel; cbn [fst]; destruct Hrest as (? & ? & ?); lia|];
    destruct (while_reader fuel body s) as [res s']
end.
cbn [fst] in *. intros ->. specialize (Hraises eq_refl).
simpl in *. intuition congruence.
Qed.
End Envelope.

Lemma ps2_scenario_model_envelope :
  model_envelope (FM := SymbolicFloat.model) ps2_scenario_model (sv "Crate")
    msh.Lod.one
    (Model_info_at (_data (child_at
       (after_child false (after_child false ps2_scenario_model)))) 12)
    (after_child false (after_child false (after_child false ps2_scenario_model))).
Proof.
  exists (child_at ps2_scenario_model), (after_child false ps2_scenario_model),
    None, (after_child false ps2_scenario_model),
    (child_at (after_child false ps2_scenario_model)),
    (after_child false (after_child false ps2_scenario_model)),
    (child_at (after_child false (after_child false ps2_scenario_model))).
  repeat split; vm_compute; reflexivity.
Qed.

Lemma handle_model_ps2_models_witness :
  let result :=
    handle_model_ps2 (FM := SymbolicFloat.model) example_fadd example_fabs
      ps2_scenario_model no_builders in
  let rest :=
    after_child false (after_child false (after_child false ps2_scenario_model)) in
  reader_ok ps2_scenario_model
  /\ (exists stop,
        ps2_models_added (sv "Crate") msh.Lod.one rest stop no_builders (snd result)
        /\ (fst result = Ok tt -> _size stop <= _head stop))
  /\ fst result <> Throw LoopFuelExhausted.
Proof.
  intros result rest.
  assert (reader_ok ps2_scenario_model) as Hok
    by (vm_compute; repeat split; (reflexivity || discriminate)).
  split; [exact Hok|].
  exact (handle_model_ps2_models example_fadd example_fabs ps2_scenario_model
           no_builders _ _ _ _ Hok ps2_scenario_model_envelope).
Defined.

Lemma handle_model_ps2_exceptions_witness :
  reader_ok ps2_scenario_model
  /\ raises_only [BoundsViolation; UnterminatedString; UnexpectedMagic; Terminated;
                  SubstrOutOfRange; UnknownModelInfo]
       (handle_model_ps2 (FM := SymbolicFloat.model) example_fadd example_fabs
          ps2_scenario_model).
Proof.
  assert (reader_ok ps2_scenario_model) as Hok
    by (vm_compute; repeat split; (reflexivity || discriminate)).
  split; [exact Hok|].
  exact (handle_model_ps2_exceptions example_fadd example_fabs ps2_scenario_model
           Hok).
Defined.

(** ** Reading strings *)

Lemma cstring_length_none (str : list Byte.byte) (max_length : Z) :
  Forall (fun c => c <> Byte.x00) (take (Z.to_nat max_length) str) ->
  cstring_length str max_length = None.
Proof.
  revert max_length. induction str as [|c str IH]; intros max_length Hstr; [done|].
  cbn [cstring_length]. destruct (Z.leb_spec max_length 0) as [|Hpos]; [done|].
  replace (Z.to_nat max_length) with (S (Z.to_nat (max_length - 1))) in Hstr by lia.
  cbn [take] in Hstr. inversion Hstr as [|? ? Hc Hrest]; subst.
  destruct (Z.eqb_spec (byte_val c) 0) as [Hnul|_];
    [by apply byte_val_nul in Hnul|].
  by rewrite IH.
Qed.

(** [read_string] from a head inside the chunk.  When the bytes at the head
    are a string without NUL, then a NUL, all before the end of the chunk,
    the string is returned and the head is past the NUL, on the next
    multiple of four for an aligned read.  When there is no NUL between the
    head and the end of the chunk the read throws the unterminated string
    error and, unlike a failed [read_trivial], leaves the reader as it was.
    From a head past the end of the chunk, where the length left wraps
    around, the read never returns. *)
Theorem read_string_scan (unaligned : bool) (r : Ucfb_reader) :
  reader_ok r ->
  (forall str rest : list Byte.byte,
     _head r <= _size r ->
     drop (Z.to_nat (_head r)) (_data r) = str ++ Byte.x00 :: rest ->
     Forall (fun c => c <> Byte.x00) str ->
     _head r + Z.of_nat (length str) < _size r ->
     let e := _head r + Z.of_nat (length str) + 1 in
     read_string unaligned r
     = (Ok str, set_head (if unaligned then e else ceil4 e) r))
  /\ (_head r <= _size r ->
      Forall (fun c => c <> Byte.x00)
        (take (Z.to_nat (_size r - _head r)) (drop (Z.to_nat (_head r)) (_data r))) ->
      read_string unaligned r = (Throw UnterminatedString, r))
  /\ (_size r < _head r ->
      exists e r', read_string unaligned r = (Throw e, r')).
Proof.
  intros Hok. pose proof Hok as (Hh & Hs & Hd). split; [|split].
  - intros str rest Hin Hdata Hstr Hfit e.
    rewrite (read_string_found unaligned r (Z.of_nat (length str))); try done.
    + rewrite Nat2Z.id, Hdata, take_app_length. done.
    + rewrite Hdata. apply cstring_length_app; [done|lia].
  - intros Hin Hnone. rewrite read_string_advance by done.
    replace (wrap_size_t (_size r - _head r)) with (_size r - _head r)
      by (unfold_wrap; rewrite Z.mod_small; lia).
    by rewrite cstring_length_none.
  - intros Hpast. rewrite read_string_advance by done.
    destruct (cstring_length _ _) as [len|] eqn:Hlen; [|by eexists _, _].
    apply cstring_length_Some in Hlen as (Hlen & _).
    unfold advance_to.
    destruct (Z.ltb_spec (_size r) (_head r + len + 1)); [by eexists _, _|lia].
Qed.

Lemma read_string_scan_witness :
  let r := reader_over "BNAM" (sv "bone_root" ++ [Byte.x00]) in
  reader_ok r /\ _head r <= _size r
  /\ read_string false r = (Ok (sv "bone_root"), set_head 12 r).
Proof.
  intros r.
  assert (reader_ok r) as Hok by (unfold reader_ok; simpl; lia).
  assert (_head r <= _size r) as Hin by (simpl; lia).
  split; [exact Hok|]. split; [exact Hin|].
  exact (proj1 (read_string_scan false r Hok) (sv "bone_root") [] Hin eq_refl
           ltac:(repeat constructor; discriminate) ltac:(simpl; lia)).
Defined.

(** ** The render type chunk *)

Section RenderType.
Context {FM : FloatModel}.

(** [read_render_type] on a chunk that holds the name [Bump]. *)
Lemma read_render_type_bump (render_type : Ucfb_reader_strict (mn "RTYP"))
  (rest : list Byte.byte) (out : msh.Material.t) :
reader_ok render_type -> _head render_type = 0 ->
_data render_type = sv "Bump" ++ Byte.x00 :: rest -> 4 < size render_type ->
read_render_type render_type out
= (Ok tt, msh.Material.set_type_swbf1 (bumped (msh.Material.type_swbf1 out)) out).
Proof.
intros Hok Hh Hdata Hsize. unfold read_render_type, local.
assert (read_string false render_type
        = (Ok (sv "Bump"), set_head (ceil4 5) render_type)) as Hread.
{ rewrite (read_string_found false render_type 4); try done.
  - rewrite Hh, Hdata. done.
  - unfold size in Hsize. lia.
  - rewrite Hh, Hdata. unfold size in Hsize.
    apply (cstring_length_app (sv "Bump") rest);
      [repeat constructor; discriminate|simpl; lia]. }
erewrite bind_rd; [|exact Hread].
rewrite bool_decide_eq_false_2 by discriminate.
rewrite bool_decide_eq_true_2 by done.
unfold upd. cbn [fst snd]. by destruct (msh.Material.type_swbf1 out).
Qed.

(** A dialect-1 [MTRL] chunk and an [RTYP] chunk with the name [Bump], both
  of which can be decoded: the render type depends on which is decoded
  first.  When the material comes first, [Bump] is applied to the render
  type its flags decide; when the render type chunk comes first, a flag of
  the material replaces what [Bump] made.  With [specular] as the only
  flag the first order gives [bumpmap_specular], the second [specular]. *)
Theorem render_type_order (material : Ucfb_reader_strict (mn "MTRL"))
  (render_type : Ucfb_reader_strict (mn "RTYP")) (rest : list Byte.byte)
  (out : msh.Material.t) :
reader_ok material -> _head material = 0 ->
size material < 24 -> swbf1_needed (swbf1_flags_at material) <= size material ->
reader_ok render_type -> _head render_type = 0 ->
_data render_type = sv "Bump" ++ Byte.x00 :: rest -> 4 < size render_type ->
let flags := swbf1_flags_at material in
let material_first := (read_material material ;;; read_render_type render_type) out in
let render_type_first := (read_render_type render_type ;;; read_material material) out in
fst material_first = Ok tt /\ fst render_type_first = Ok tt
/\ msh.Material.type_swbf1 (snd material_first)
   = bumped (swbf1_type_of_flags flags (msh.Material.type_swbf1 out))
/\ msh.Material.type_swbf1 (snd render_type_first)
   = swbf1_type_of_flags flags (bumped (msh.Material.type_swbf1 out)).
Proof.
intros Hok Hh Hsmall Hneeded Hrok Hrh Hdata Hsize flags material_first render_type_first.
assert (forall out0, read_material material out0
                     = (Ok tt, decoded_material_swbf1 material out0)) as Hmaterial.
{ intros out0. unfold read_material. change (sizeof Material_info_t) with 24.
  destruct (Z.ltb_spec (size material) 24); [|lia].
  by destruct (read_material_swbf1_run material out0 Hok Hh) as [[_ Hrun]|[? _]];
    [|lia]. }
assert (forall out0, read_render_type render_type out0
          = (Ok tt, msh.Material.set_type_swbf1
                      (bumped (msh.Material.type_swbf1 out0)) out0)) as Hrender
  by (intros out0; by apply (read_render_type_bump _ rest)).
subst material_first render_type_first. unfold bind.
rewrite Hmaterial, Hrender, Hrender, Hmaterial. cbn [fst snd].
split; [done|]. split; [done|].
rewrite !decoded_material_swbf1_type. cbn zeta. done.
Qed.
End RenderType.

Lemma render_type_order_witness :
  let material :=
    reader_over "MTRL" (le_bytes 4 48 ++ le_bytes 4 30 ++ le_bytes 4 4294967295) in
  let render_type := reader_over "RTYP" (sv "Bump" ++ [Byte.x00]) in
  let out := msh.Material.default (FM := SymbolicFloat.model) in
  msh.Material.type_swbf1
    (snd ((read_material material ;;; read_render_type render_type) out))
  = msh.Render_type_swbf1.bumpmap_specular
  /\ msh.Material.type_swbf1
       (snd ((read_render_type render_type ;;; read_material material) out))
     = msh.Render_type_swbf1.specular.
Proof.
  intros material render_type out.
  assert (reader_ok material) as Hok by (unfold reader_ok; simpl; lia).
  assert (reader_ok render_type) as Hrok by (unfold reader_ok; simpl; lia).
  assert (size material < 24) as Hsmall by (simpl; lia).
  assert (swbf1_needed (swbf1_flags_at material) <= size material) as Hneeded
    by (vm_compute; discriminate).
  assert (4 < size render_type) as Hsize by (simpl; lia).
  destruct (render_type_order (FM := SymbolicFloat.model) material render_type [] out
              Hok eq_refl Hsmall Hneeded Hrok eq_refl eq_refl Hsize)
    as (_ & _ & Hfirst & Hsecond).
  split; [exact Hfirst|exact Hsecond].
Defined.

(** ** The float model of the examples *)

(** The conversion to [std::uint8_t] in the float model of the examples: the
    stored floats 1.0, 0.5, 0.0 and -1.0, range converted as [detail] and
    [scroll] convert them, give 127, 63, 0 and 128. *)
Lemma uint8_of_range_converted :
  map (fun bits =>
         uint8_of_float (FloatModel := SymbolicFloat.model)
           (range_convert (float_of_bits bits)
              (float_of_int (-1), float_of_int 1)
              (float_of_int (-128), float_of_int 127)))
      [0x3F800000; 0x3F000000; 0; 0xBF800000]
  = [127; 63; 0; 128].
Proof.
  cbn [map uint8_of_float SymbolicFloat.model].
  rewrite SymbolicFloat.to_uint8_unseal. vm_compute. reflexivity.
Qed.
